(** * A shallow embedding of parts of the polymarket market-making bot

    Python [float] and [Decimal] values are modelled as exact rationals [Q]
    (the volatility tracker, which needs [math.log] and [math.sqrt], uses the
    reals of the Standard Library).  Python [int]s are [Z].  Dicts are
    stdpp [gmap]s, except where the code depends on the insertion order of a
    dict (the simulator's orders), which is an association list. *)

From Stdlib Require Import ZArith QArith Qround Qabs Qminmax Qpower Lia Lqa.
From Stdlib Require Import List String Sorting.Sorted Sorting.Permutation Reals Lra Psatz.
From stdpp Require Import base gmap strings.
Import ListNotations.

Open Scope Q_scope.

Definition Qlt_bool (a b : Q) : bool := negb (Qle_bool b a).

(** Python truthiness of an optional float: [None], [0.0] and [-0.0] are
    falsy. *)
Definition truthy (o : option Q) : bool :=
  match o with
  | Some p => negb (Qeq_bool p 0)
  | None => false
  end.

(** [list.sort] is stable, also with [reverse=True]: an insertion sort
    that places each new item before the first item it strictly precedes
    ([before]), hence after the items with an equal key. *)
Fixpoint insert_by {A} (before : A -> A -> bool) (x : A) (l : list A) : list A :=
  match l with
  | [] => [x]
  | y :: rest => if before x y then x :: y :: rest else y :: insert_by before x rest
  end.

Definition sort_by {A} (before : A -> A -> bool) (l : list A) : list A :=
  fold_left (fun acc x => insert_by before x acc) l [].

(** ** src/models.py *)
Module Models.

Record PriceLevel := mkPriceLevel { pl_price : Q; pl_size : Q }.

Record OrderBook := mkOrderBook {
  ob_token_id : string;
  ob_bids : list PriceLevel;
  ob_asks : list PriceLevel;
  ob_timestamp : option string
}.

(** [return self.bids[0].price if self.bids else None] *)
Definition best_bid (b : OrderBook) : option Q :=
  match ob_bids b with
  | l :: _ => Some (pl_price l)
  | [] => None
  end.

Definition best_ask (b : OrderBook) : option Q :=
  match ob_asks b with
  | l :: _ => Some (pl_price l)
  | [] => None
  end.

(** [if self.best_bid and self.best_ask: return self.best_ask - self.best_bid] *)
Definition spread (b : OrderBook) : option Q :=
  if truthy (best_bid b) && truthy (best_ask b) then
    match best_bid b, best_ask b with
    | Some bb, Some ba => Some (ba - bb)
    | _, _ => None
    end
  else None.

(** [if self.best_bid and self.best_ask: return (self.best_bid + self.best_ask) / 2] *)
Definition midpoint (b : OrderBook) : option Q :=
  if truthy (best_bid b) && truthy (best_ask b) then
    match best_bid b, best_ask b with
    | Some bb, Some ba => Some ((bb + ba) / 2)
    | _, _ => None
    end
  else None.

Inductive OrderStatus := LIVE | MATCHED | CANCELLED | EXPIRED.
Inductive OrderSide := BUY | SELL.
Inductive OrderType := GTC | GTD | FOK | FAK.

Definition OrderStatus_eqb (a b : OrderStatus) : bool :=
  match a, b with
  | LIVE, LIVE | MATCHED, MATCHED | CANCELLED, CANCELLED
  | EXPIRED, EXPIRED => true
  | _, _ => false
  end.

Record Order := mkOrder {
  o_id : string;
  o_token_id : string;
  o_side : OrderSide;
  o_price : Q;
  o_size : Q;
  o_filled : Q;
  o_status : OrderStatus;
  o_is_simulated : bool;
  o_created_at : option string;
  o_expiration : option string;
  o_order_type : OrderType;
  o_market_id : option string
}.

Definition is_live (o : Order) : bool := OrderStatus_eqb (o_status o) LIVE.

Definition set_status (o : Order) (s : OrderStatus) : Order :=
  mkOrder (o_id o) (o_token_id o) (o_side o) (o_price o) (o_size o)
    (o_filled o) s (o_is_simulated o) (o_created_at o) (o_expiration o)
    (o_order_type o) (o_market_id o).

Definition set_filled (o : Order) (f : Q) : Order :=
  mkOrder (o_id o) (o_token_id o) (o_side o) (o_price o) (o_size o)
    f (o_status o) (o_is_simulated o) (o_created_at o) (o_expiration o)
    (o_order_type o) (o_market_id o).

(** Trade identifiers come from [uuid.uuid4()]; they are modelled by a
    counter held in the simulator. *)
Record Trade := mkTrade {
  t_id : nat;
  t_order_id : string;
  t_token_id : string;
  t_side : OrderSide;
  t_price : Q;
  t_size : Q;
  t_is_simulated : bool;
  t_timestamp : option string;
  t_fee : Q;
  t_market_id : option string
}.

Definition remaining (o : Order) : Q := o_size o - o_filled o.

Definition is_filled (o : Order) : bool := OrderStatus_eqb (o_status o) MATCHED.

End Models.

(** ** src/feed/data_store.py *)
Module DataStore.
Import Models.

Record TokenData := mkTokenData {
  td_token_id : string;
  td_order_book : option OrderBook;
  td_last_price : option Q;
  td_last_trade_price : option Q;
  td_last_trade_side : option string;
  td_last_trade_size : option Q;
  td_last_update : Q
}.

Record DataStore := mkDataStore {
  data : gmap string TokenData;
  stale_threshold : Q;
  sequence : gmap string Z;
  gap_count : gmap string Z
}.

(** [get_midpoint]: a [TokenData] or [OrderBook] instance is always truthy,
    so [if data and data.order_book] only tests for presence. *)
Definition get_midpoint (s : DataStore) (token_id : string) : option Q :=
  match data s !! token_id with
  | Some d =>
      match td_order_book d with
      | Some b => midpoint b
      | None => None
      end
  | None => None
  end.

Definition get_spread (s : DataStore) (token_id : string) : option Q :=
  match data s !! token_id with
  | Some d =>
      match td_order_book d with
      | Some b => spread b
      | None => None
      end
  | None => None
  end.

(** [check_sequence]: returns the result and the new store. *)
Definition check_sequence (s : DataStore) (token_id : string) (seq : option Z)
    : bool * DataStore :=
  match seq with
  | None => (true, s)
  | Some q =>
      let last := default (-1)%Z (sequence s !! token_id) in
      if Z.eqb last (-1) then
        (true, mkDataStore (data s) (stale_threshold s)
                 (<[token_id := q]> (sequence s)) (gap_count s))
      else
        let expected := (last + 1)%Z in
        if Z.eqb q expected then
          (true, mkDataStore (data s) (stale_threshold s)
                   (<[token_id := q]> (sequence s)) (gap_count s))
        else
          (false, mkDataStore (data s) (stale_threshold s)
                    (<[token_id := q]> (sequence s))
                    (<[token_id := (default 0%Z (gap_count s !! token_id) + 1)%Z]>
                       (gap_count s)))
  end.

Definition get (s : DataStore) (token_id : string) : option TokenData :=
  data s !! token_id.

Definition get_order_book (s : DataStore) (token_id : string) : option OrderBook :=
  match data s !! token_id with
  | Some d => td_order_book d
  | None => None
  end.

Definition get_best_bid (s : DataStore) (token_id : string) : option Q :=
  match data s !! token_id with
  | Some d =>
      match td_order_book d with
      | Some b => best_bid b
      | None => None
      end
  | None => None
  end.

Definition get_best_ask (s : DataStore) (token_id : string) : option Q :=
  match data s !! token_id with
  | Some d =>
      match td_order_book d with
      | Some b => best_ask b
      | None => None
      end
  | None => None
  end.

(** [TokenData.seconds_since_update]: [None] stands for [float('inf')];
    the clock [time.time()] is the argument [now]. *)
Definition seconds_since_update (d : TokenData) (now : Q) : option Q :=
  if Qeq_bool (td_last_update d) 0 then None else Some (now - td_last_update d).

(** [inf < threshold] is [False]. *)
Definition is_fresh (s : DataStore) (now : Q) (token_id : string) : bool :=
  match data s !! token_id with
  | None => false
  | Some d =>
      match seconds_since_update d now with
      | None => false
      | Some x => Qlt_bool x (stale_threshold s)
      end
  end.

Definition all_fresh (s : DataStore) (now : Q) : bool :=
  match map_to_list (data s) with
  | [] => false
  | l => forallb (fun kv => is_fresh s now (fst kv)) l
  end.

Definition has_gaps (s : DataStore) : bool :=
  existsb (fun kv => Z.ltb 0 (snd kv)) (map_to_list (gap_count s)).

Definition new_token_data (token_id : string) : TokenData :=
  mkTokenData token_id None None None None None 0.

Definition register_token (s : DataStore) (token_id : string) : DataStore :=
  match data s !! token_id with
  | Some _ => s
  | None =>
      mkDataStore (<[token_id := new_token_data token_id]> (data s)) (stale_threshold s)
        (<[token_id := (-1)%Z]> (sequence s)) (<[token_id := 0%Z]> (gap_count s))
  end.

Definition unregister_token (s : DataStore) (token_id : string) : DataStore :=
  mkDataStore (delete token_id (data s)) (stale_threshold s)
    (delete token_id (sequence s)) (delete token_id (gap_count s)).

Definition clear_gaps (s : DataStore) (token_id : string) : DataStore :=
  mkDataStore (data s) (stale_threshold s) (sequence s) (<[token_id := 0%Z]> (gap_count s)).

(** A raw level of a book message: a dict, given by its [float(b['price'])]
    and [float(b['size'])], or anything else (skipped by the
    [isinstance(b, dict)] filter). *)
Inductive RawLevel := RDict (price size : Q) | ROther.

Fixpoint parse_levels (l : list RawLevel) : list PriceLevel :=
  match l with
  | [] => []
  | RDict p sz :: rest => mkPriceLevel p sz :: parse_levels rest
  | ROther :: rest => parse_levels rest
  end.

(** [parsed_bids.sort(key=lambda x: x.price, reverse=True)] *)
Definition sort_desc (l : list PriceLevel) : list PriceLevel :=
  sort_by (fun a b => Qlt_bool (pl_price b) (pl_price a)) l.

(** [parsed_asks.sort(key=lambda x: x.price)] *)
Definition sort_asc (l : list PriceLevel) : list PriceLevel :=
  sort_by (fun a b => Qlt_bool (pl_price a) (pl_price b)) l.

Definition ensure_registered (s : DataStore) (token_id : string) : DataStore :=
  match data s !! token_id with
  | Some _ => s
  | None => register_token s token_id
  end.

Definition set_token_data (s : DataStore) (token_id : string) (d : TokenData) : DataStore :=
  mkDataStore (<[token_id := d]> (data s)) (stale_threshold s) (sequence s) (gap_count s).

Definition update_book (s : DataStore) (token_id : string) (bids asks : list RawLevel)
    (timestamp : option string) (now : Q) : DataStore :=
  let s1 := ensure_registered s token_id in
  match data s1 !! token_id with
  | None => s1
  | Some d =>
      let book := mkOrderBook token_id (sort_desc (parse_levels bids))
                    (sort_asc (parse_levels asks)) timestamp in
      set_token_data s1 token_id
        (mkTokenData (td_token_id d) (Some book) (td_last_price d) (td_last_trade_price d)
           (td_last_trade_side d) (td_last_trade_size d) now)
  end.

Definition update_price (s : DataStore) (token_id : string) (price : Q) (now : Q) : DataStore :=
  let s1 := ensure_registered s token_id in
  match data s1 !! token_id with
  | None => s1
  | Some d =>
      set_token_data s1 token_id
        (mkTokenData (td_token_id d) (td_order_book d) (Some price) (td_last_trade_price d)
           (td_last_trade_side d) (td_last_trade_size d) now)
  end.

Definition update_trade (s : DataStore) (token_id : string) (price : Q)
    (size : option Q) (side : option string) (now : Q) : DataStore :=
  let s1 := ensure_registered s token_id in
  match data s1 !! token_id with
  | None => s1
  | Some d =>
      set_token_data s1 token_id
        (mkTokenData (td_token_id d) (td_order_book d) (td_last_price d) (Some price)
           side size now)
  end.

Definition get_token_ids (s : DataStore) : list string := map fst (map_to_list (data s)).

Definition clear (s : DataStore) : DataStore := mkDataStore empty (stale_threshold s) empty empty.

End DataStore.

(** ** src/simulator.py *)
Module Simulator.
Import Models.

(** [orders] is a dict keyed by order id; its insertion order decides the
    order in which [check_fills] visits the orders, so it is an association
    list.  [trade_seq] stands for the uuid source of trade ids. *)
Record Sim := mkSim {
  orders : list (string * Order);
  trades : list Trade;
  positions : gmap string Q;
  trade_seq : nat
}.

(** [self.orders.get(order_id)] *)
Fixpoint orders_get (os : list (string * Order)) (k : string) : option Order :=
  match os with
  | [] => None
  | (k', o) :: rest => if String.eqb k' k then Some o else orders_get rest k
  end.

(** In-place mutation of the order stored under [k]. *)
Fixpoint orders_update (os : list (string * Order)) (k : string)
    (f : Order -> Order) : list (string * Order) :=
  match os with
  | [] => []
  | (k', o) :: rest =>
      if String.eqb k' k then (k', f o) :: rest
      else (k', o) :: orders_update rest k f
  end.

Definition cancel_order (s : Sim) (order_id : string) : bool * Sim :=
  match orders_get (orders s) order_id with
  | None => (false, s)
  | Some o =>
      if negb (is_live o) then (false, s)
      else (true, mkSim (orders_update (orders s) order_id
                           (fun o => set_status o CANCELLED))
                        (trades s) (positions s) (trade_seq s))
  end.

Definition update_position (ps : gmap string Q) (token_id : string)
    (side : OrderSide) (size : Q) : gmap string Q :=
  let cur := default 0 (ps !! token_id) in
  match side with
  | BUY => <[token_id := cur + size]> ps
  | SELL => <[token_id := cur - size]> ps
  end.

Definition should_fill (bid ask : Q) (o : Order) : bool :=
  match o_side o with
  | BUY => Qle_bool ask (o_price o)
  | SELL => Qle_bool (o_price o) bid
  end.

(** The state threaded through the loop of [check_fills]. *)
Record FillAcc := mkFillAcc {
  fa_trades : list Trade;
  fa_positions : gmap string Q;
  fa_seq : nat;
  fa_count : Z
}.

Section CheckFills.
Variable fee_rate : Q.   (* [SIMULATED_FEE_RATE] *)
Variables (token_id : string) (bid ask : Q).

Fixpoint check_fills_loop (os : list (string * Order)) (acc : FillAcc)
    : list (string * Order) * FillAcc :=
  match os with
  | [] => ([], acc)
  | (k, o) :: rest =>
      if negb (is_live o) || negb (String.eqb (o_token_id o) token_id) then
        let '(rest', acc') := check_fills_loop rest acc in ((k, o) :: rest', acc')
      else if should_fill bid ask o then
        let fee := o_price o * o_size o * fee_rate in
        let tr := mkTrade (fa_seq acc) (o_id o) (o_token_id o) (o_side o)
                    (o_price o) (o_size o) true None fee None in
        let acc1 := mkFillAcc (fa_trades acc ++ [tr])
                      (update_position (fa_positions acc) token_id (o_side o) (o_size o))
                      (S (fa_seq acc)) (fa_count acc + 1)%Z in
        let o' := set_status (set_filled o (o_size o)) MATCHED in
        let '(rest', acc') := check_fills_loop rest acc1 in ((k, o') :: rest', acc')
      else
        let '(rest', acc') := check_fills_loop rest acc in ((k, o) :: rest', acc')
  end.

Definition check_fills (s : Sim) : Z * Sim :=
  let '(os', acc) := check_fills_loop (orders s)
                       (mkFillAcc (trades s) (positions s) (trade_seq s) 0%Z) in
  (fa_count acc, mkSim os' (fa_trades acc) (fa_positions acc) (fa_seq acc)).

End CheckFills.

(** [self.orders[k] = v]: an existing key keeps its place, a new key goes
    last. *)
Fixpoint orders_set (os : list (string * Order)) (k : string) (v : Order)
    : list (string * Order) :=
  match os with
  | [] => [(k, v)]
  | (k', o) :: rest =>
      if String.eqb k' k then (k', v) :: rest else (k', o) :: orders_set rest k v
  end.

(** [create_order]: [hex] stands for [uuid.uuid4().hex[:12]] and
    [created_at] for the clock reading. *)
Definition create_order (s : Sim) (hex : string) (token_id : string) (side : OrderSide)
    (price size : Q) (created_at : string) : Order * Sim :=
  let o := mkOrder ("sim_" ++ hex)%string token_id side price size 0 LIVE true
             (Some created_at) None GTC None in
  (o, mkSim (orders_set (orders s) (o_id o) o) (trades s) (positions s) (trade_seq s)).

(** [if token_id] on an optional string: [None] and [""] are falsy. *)
Definition token_filter (token_id : option string) : option string :=
  match token_id with
  | Some t => if String.eqb t "" then None else Some t
  | None => None
  end.

Fixpoint cancel_all_loop (token_id : option string) (os : list (string * Order))
    : list (string * Order) * Z :=
  match os with
  | [] => ([], 0%Z)
  | (k, o) :: rest =>
      let '(rest', n) := cancel_all_loop token_id rest in
      if negb (is_live o) then ((k, o) :: rest', n)
      else match token_filter token_id with
           | Some t => if negb (String.eqb (o_token_id o) t) then ((k, o) :: rest', n)
                       else ((k, set_status o CANCELLED) :: rest', (n + 1)%Z)
           | None => ((k, set_status o CANCELLED) :: rest', (n + 1)%Z)
           end
  end.

Definition cancel_all (s : Sim) (token_id : option string) : Z * Sim :=
  let '(os', n) := cancel_all_loop token_id (orders s) in
  (n, mkSim os' (trades s) (positions s) (trade_seq s)).

Definition get_order (s : Sim) (order_id : string) : option Order :=
  orders_get (orders s) order_id.

Definition get_open_orders (s : Sim) (token_id : option string) : list Order :=
  let os := List.filter is_live (map snd (orders s)) in
  match token_filter token_id with
  | Some t => List.filter (fun o => String.eqb (o_token_id o) t) os
  | None => os
  end.

Definition get_trades (s : Sim) (token_id : option string) : list Trade :=
  match token_filter token_id with
  | Some t => List.filter (fun tr => String.eqb (t_token_id tr) t) (trades s)
  | None => trades s
  end.

Definition get_position (s : Sim) (token_id : string) : Q :=
  default 0 (positions s !! token_id).

Definition reset (s : Sim) : Sim := mkSim [] [] empty (trade_seq s).

End Simulator.

(** Python's [int(x)] on a [Decimal] or [float]: truncation toward zero. *)
Definition py_int (q : Q) : Z :=
  if Qle_bool 0 q then Qfloor q else (- Qfloor (- q))%Z.

(** Python's [min(a, b)]: [b] when [b < a], otherwise [a]. *)
Definition py_min (a b : Q) : Q := if Qlt_bool b a then b else a.

(** ** src/alpha/arbitrage.py *)
Module Arbitrage.

Inductive ArbitrageType := NONE | SELL_BOTH | BUY_BOTH | SKEW_QUOTES.

Record TokenPair := mkTokenPair {
  condition_id : string;
  yes_token_id : string;
  no_token_id : string;
  market_slug : string
}.

(** The human-readable [recommended_action] strings. *)
Inductive Action :=
  | ActSellBoth (yes no sum : Q)
  | ActBuyBoth (yes no sum : Q)
  | ActSkewHigh
  | ActSkewLow
  | ActNone.

Record ArbitrageSignal := mkSignal {
  sig_type : ArbitrageType;
  sig_yes_token_id : string;
  sig_no_token_id : string;
  sig_yes_price : Q;
  sig_no_price : Q;
  sig_sum_price : Q;
  sig_profit_bps : Z;
  sig_confidence : Q;
  sig_recommended_action : Action
}.

Definition SKEW_THRESHOLD_BPS : Z := 10.

Record ArbitrageDetector := mkDetector {
  fee_rate : Q;
  min_profit_bps : Z
}.

Definition check_pair (d : ArbitrageDetector) (yes_price no_price : Q)
    (pair : TokenPair) : ArbitrageSignal :=
  let sum_price := yes_price + no_price in
  let deviation := sum_price - 1 in
  let deviation_bps := py_int (Qabs deviation * 10000) in
  let fee_cost_bps := py_int (fee_rate d * 2 * 10000) in
  let net_profit_bps := (deviation_bps - fee_cost_bps)%Z in
  let '(arb_type, action, confidence, profit) :=
    if Qlt_bool 0 deviation && Z.leb (min_profit_bps d) net_profit_bps then
      (SELL_BOTH, ActSellBoth yes_price no_price sum_price,
       py_min 1 (inject_Z net_profit_bps / 100), net_profit_bps)
    else if Qlt_bool deviation 0 && Z.leb (min_profit_bps d) net_profit_bps then
      (BUY_BOTH, ActBuyBoth yes_price no_price sum_price,
       py_min 1 (inject_Z net_profit_bps / 100), net_profit_bps)
    else if Z.leb SKEW_THRESHOLD_BPS (Z.abs deviation_bps) then
      (SKEW_QUOTES, (if Qlt_bool 0 deviation then ActSkewHigh else ActSkewLow),
       1 # 2, Z.abs deviation_bps)
    else (NONE, ActNone, 0, 0%Z) in
  mkSignal arb_type (yes_token_id pair) (no_token_id pair) yes_price no_price
    sum_price profit confidence action.

Definition ArbitrageType_eqb (a b : ArbitrageType) : bool :=
  match a, b with
  | NONE, NONE | SELL_BOTH, SELL_BOTH | BUY_BOTH, BUY_BOTH | SKEW_QUOTES, SKEW_QUOTES => true
  | _, _ => false
  end.

Definition is_actionable (s : ArbitrageSignal) : bool :=
  negb (ArbitrageType_eqb (sig_type s) NONE) && Z.ltb 10 (sig_profit_bps s).

(** The detector's dicts: [_pairs] keeps its insertion order (it decides
    the scan order and which pair [get_quote_adjustment] finds first). *)
Record DetectorState := mkDetectorState {
  pairs : list (string * TokenPair);
  last_signals : gmap string ArbitrageSignal
}.

(** [d[k] = v] on an insertion-ordered dict. *)
Fixpoint pairs_set (ps : list (string * TokenPair)) (k : string) (v : TokenPair)
    : list (string * TokenPair) :=
  match ps with
  | [] => [(k, v)]
  | (k', p) :: rest => if String.eqb k' k then (k', v) :: rest else (k', p) :: pairs_set rest k v
  end.

Definition register_pair (st : DetectorState) (pair : TokenPair) : DetectorState :=
  mkDetectorState (pairs_set (pairs st) (condition_id pair) pair) (last_signals st).

(** The loop of [scan_all]: the signals found so far and [_last_signals]. *)
Fixpoint scan_loop (d : ArbitrageDetector) (price_getter : string -> option Q)
    (ps : list (string * TokenPair)) (signals : list ArbitrageSignal)
    (last : gmap string ArbitrageSignal) : list ArbitrageSignal * gmap string ArbitrageSignal :=
  match ps with
  | [] => (signals, last)
  | (cid, tp) :: rest =>
      match price_getter (yes_token_id tp), price_getter (no_token_id tp) with
      | Some yes_price, Some no_price =>
          let signal := check_pair d yes_price no_price tp in
          if is_actionable signal then
            scan_loop d price_getter rest (signals ++ [signal]) (<[cid := signal]> last)
          else scan_loop d price_getter rest signals last
      | _, _ => scan_loop d price_getter rest signals last
      end
  end.

(** [signals.sort(key=lambda s: s.profit_bps, reverse=True)] *)
Definition sort_signals (l : list ArbitrageSignal) : list ArbitrageSignal :=
  sort_by (fun a b => Z.ltb (sig_profit_bps b) (sig_profit_bps a)) l.

Definition scan_all (d : ArbitrageDetector) (st : DetectorState)
    (price_getter : string -> option Q) : list ArbitrageSignal * DetectorState :=
  let '(signals, last) := scan_loop d price_getter (pairs st) [] (last_signals st) in
  (sort_signals signals, mkDetectorState (pairs st) last).

Fixpoint quote_loop (last : gmap string ArbitrageSignal) (token_id : string)
    (base_bid base_ask : Q) (ps : list (string * TokenPair)) : Q * Q :=
  match ps with
  | [] => (base_bid, base_ask)
  | (cid, tp) :: rest =>
      if negb (String.eqb token_id (yes_token_id tp) || String.eqb token_id (no_token_id tp))
      then quote_loop last token_id base_bid base_ask rest
      else
        match last !! cid with
        | None => quote_loop last token_id base_bid base_ask rest
        | Some signal =>
            match sig_type signal with
            | SKEW_QUOTES =>
                let skew := 5 # 1000 in
                if Qlt_bool 1 (sig_sum_price signal) then (base_bid - skew, base_ask - skew * 2)
                else (base_bid + skew * 2, base_ask + skew)
            | _ => quote_loop last token_id base_bid base_ask rest
            end
        end
  end.

Definition get_quote_adjustment (st : DetectorState) (token_id : string)
    (base_bid base_ask : Q) : Q * Q :=
  quote_loop (last_signals st) token_id base_bid base_ask (pairs st).

End Arbitrage.

(** ** The decimal context used by [Decimal] arithmetic
    (28 significant digits, [ROUND_HALF_EVEN]). *)
Module Dec.

Definition pow10 (e : Z) : Q :=
  if Z.leb 0 e then inject_Z (10 ^ e) else 1 / inject_Z (10 ^ (- e)).

(** Rounding to an integer, ties to even. *)
Definition round_half_even (q : Q) : Z :=
  let f := Qfloor q in
  let r := q - inject_Z f in
  if Qlt_bool r (1 # 2) then f
  else if Qlt_bool (1 # 2) r then (f + 1)%Z
  else if Z.even f then f else (f + 1)%Z.

Definition PREC : Z := 28.

(** [floor(log10 n)] for [n > 0], from its decimal digits. *)
Definition log10 (n : Z) : Z :=
  match n with
  | Zpos p => (Z.of_nat (Decimal.nb_digits (Pos.to_uint p)) - 1)%Z
  | _ => 0%Z
  end.

(** The result of an inexact operation is rounded to [PREC] significant
    digits.  For [a = n/d > 0], [k = log10 n - log10 d] gives
    [10^(k-1) < a < 10^(k+1)], so one correction of the exponent brings
    the coefficient into [[10^(PREC-1), 10^PREC)]. *)
Definition round_ctx (q : Q) : Q :=
  if Qeq_bool q 0 then 0 else
  let a := Qabs q in
  let k := (log10 (Qnum a) - log10 (Zpos (Qden a)))%Z in
  let e0 := (PREC - 1 - k)%Z in
  let e := if Qlt_bool (a * pow10 e0) (inject_Z (10 ^ (PREC - 1))) then (e0 + 1)%Z else e0 in
  let v := inject_Z (round_half_even (a * pow10 e)) / pow10 e in
  if Qlt_bool q 0 then - v else v.

Inductive DecError := ValueError | DivisionByZero | InvalidOperation.

Definition mul (a b : Q) : Q := round_ctx (a * b).

Definition div (a b : Q) : Q + DecError :=
  if Qeq_bool b 0 then inr (if Qeq_bool a 0 then InvalidOperation else DivisionByZero)
  else inl (round_ctx (a / b)).

(** [x.quantize(Decimal("1"))]: rounds to an integer; fails when the
    coefficient needs more than [PREC] digits. *)
Definition quantize1 (q : Q) : Z + DecError :=
  let c := round_half_even q in
  if Z.leb (10 ^ PREC) (Z.abs c) then inr InvalidOperation else inl c.

End Dec.

(** ** Python floats (IEEE 754 binary64) *)
Module F64.

Definition pow2 (e : Z) : Q := (2 # 1) ^ e.

(** [floor(log2 a)] for [a = n/d > 0]: [k = log2 n - log2 d] gives
    [2^(k-1) < a < 2^(k+1)]. *)
Definition flog2 (a : Q) : Z :=
  let k := (Z.log2 (Qnum a) - Z.log2 (Zpos (Qden a)))%Z in
  if Qlt_bool a (pow2 k) then (k - 1)%Z else k.

(** The rounding of a float operation: to nearest, ties to even, on a
    53-bit significand, with the binary64 exponent range below (gradual
    underflow under [2^-1022]).  The magnitudes that occur in the modelled
    code stay far from the largest double; overflow to infinity is not
    modelled. *)
Definition fl (q : Q) : Q :=
  if Qeq_bool q 0 then 0 else
  let a := Qabs q in
  let e := Z.max (flog2 a) (-1022) in
  let u := pow2 (e - 52) in
  let v := inject_Z (Dec.round_half_even (a / u)) * u in
  if Qlt_bool q 0 then - v else v.

(** The rationals a Python float can hold. *)
Definition is_double (q : Q) : bool := Qeq_bool (fl q) q.

(** [floor(log10 a)] for [a > 0]. *)
Definition flog10 (a : Q) : Z :=
  let k := (Dec.log10 (Qnum a) - Dec.log10 (Zpos (Qden a)))%Z in
  if Qlt_bool a (Dec.pow10 k) then (k - 1)%Z else k.

(** The shortest decimal that reads back as the double [a > 0]: the
    [n]-digit neighbours of [a] are tried for [n = 1, 2, ...], the nearer
    one winning when both read back as [a] (ties to an even last digit). *)
Fixpoint repr_digits (a : Q) (e10 n : Z) (fuel : nat) : Q :=
  match fuel with
  | O => a
  | S fuel' =>
      let s := Dec.pow10 (n - 1 - e10) in
      let lo := Qfloor (a * s) in
      let c_lo := inject_Z lo / s in
      let c_hi := inject_Z (lo + 1) / s in
      let ok_lo := Qeq_bool (fl c_lo) a in
      let ok_hi := Qeq_bool (fl c_hi) a in
      if ok_lo && ok_hi then
        (if Qlt_bool (a - c_lo) (c_hi - a) then c_lo
         else if Qlt_bool (c_hi - a) (a - c_lo) then c_hi
         else if Z.even lo then c_lo else c_hi)
      else if ok_lo then c_lo
      else if ok_hi then c_hi
      else repr_digits a e10 (n + 1) fuel'
  end.

(** [Decimal(str(x))] for a double [x]: [str] is [repr], the shortest
    round-tripping decimal, which [Decimal] reads exactly. *)
Definition float_repr (x : Q) : Q :=
  if Qeq_bool x 0 then 0 else
  let a := Qabs x in
  let r := repr_digits a (flog10 a) 1 17 in
  if Qlt_bool x 0 then - r else r.

End F64.

(** ** src/risk/kelly.py *)
Module Kelly.

(** [fraction], [max_position_pct], [win_rate] and [win_loss_ratio] are
    floats: every arithmetic operation on them is rounded by [F64.fl]; the
    bankroll and the price are Decimals. *)
Record KellyCalculator := mkKelly {
  fraction : Q;
  max_position_pct : Q;
  bankroll : option Q
}.

Definition calculate (k : KellyCalculator) (win_rate win_loss_ratio : Q) : Q :=
  if Qle_bool win_rate 0 || Qle_bool 1 win_rate then 0
  else if Qle_bool win_loss_ratio 0 then 0
  else
    let p := win_rate in
    let q := F64.fl (1 - win_rate) in
    let b := win_loss_ratio in
    let full_kelly := F64.fl (F64.fl (F64.fl (p * b) - q) / b) in
    if Qle_bool full_kelly 0 then 0
    else
      let applied := F64.fl (full_kelly * fraction k) in
      py_min applied (max_position_pct k).

Definition get_position_size (k : KellyCalculator) (win_rate win_loss_ratio price : Q)
    : Z + Dec.DecError :=
  match bankroll k with
  | None => inr Dec.ValueError
  | Some br =>
      let kelly_pct := calculate k win_rate win_loss_ratio in
      if Qle_bool kelly_pct 0 then inl 0%Z
      else
        let dollar_amount := Dec.mul br (F64.float_repr kelly_pct) in
        match Dec.div dollar_amount price with
        | inr e => inr e
        | inl shares => Dec.quantize1 shares
        end
  end.

Definition MIN_TRADES_FOR_KELLY : Z := 20.

(** [sum(...)] over a list of float [pnl] values, added from left to
    right starting from the int 0 (CPython 3.12 and later compensate the
    rounding errors of a float sum; nothing proved below depends on how
    the sums are rounded). *)
Definition sumQ (l : list Q) : Q := fold_left (fun acc t => F64.fl (acc + t)) l 0.

(** A trade is represented by its float ["pnl"] entry; [min_trades or
    MIN_TRADES_FOR_KELLY] treats [None] and [0] alike; [len(...) / len(...)]
    is a correctly rounded true division. *)
Definition calculate_from_trades (k : KellyCalculator) (trades : list Q)
    (min_trades : option Z) : Q :=
  let min_trades := match min_trades with
                    | Some m => if Z.eqb m 0 then MIN_TRADES_FOR_KELLY else m
                    | None => MIN_TRADES_FOR_KELLY
                    end in
  if Z.ltb (Z.of_nat (length trades)) min_trades then 0 else
  let wins := List.filter (fun t => Qlt_bool 0 t) trades in
  let losses := List.filter (fun t => Qlt_bool t 0) trades in
  match wins, losses with
  | [], _ | _, [] => 0
  | _, _ =>
      let win_rate := F64.fl (inject_Z (Z.of_nat (length wins)) / inject_Z (Z.of_nat (length trades))) in
      let avg_win := F64.fl (sumQ wins / inject_Z (Z.of_nat (length wins))) in
      let avg_loss := Qabs (F64.fl (sumQ losses / inject_Z (Z.of_nat (length losses)))) in
      if Qeq_bool avg_loss 0 then 0 else
      let win_loss_ratio := F64.fl (avg_win / avg_loss) in
      calculate k win_rate win_loss_ratio
  end.

Record KellyResult := mkKellyResult {
  full_kelly : Q;
  applied_kelly : Q;
  fraction_used : Q;
  kr_win_rate : Q;
  kr_win_loss_ratio : Q;
  recommended_size : Z
}.

(** [get_result]; [self._bankroll and price] tests both for [None] and
    for zero. *)
Definition get_result (k : KellyCalculator) (win_rate win_loss_ratio : Q)
    (price : option Q) : KellyResult + Dec.DecError :=
  let p := win_rate in
  let q := F64.fl (1 - win_rate) in
  let b := win_loss_ratio in
  let full_kelly := if Qlt_bool 0 b then
                      (let x := F64.fl (F64.fl (F64.fl (p * b) - q) / b) in
                       if Qlt_bool 0 x then x else 0)
                    else 0 in
  let applied_kelly := py_min (F64.fl (full_kelly * fraction k)) (max_position_pct k) in
  let size :=
    match bankroll k, price with
    | Some br, Some pr =>
        if truthy (Some br) && truthy (Some pr) && Qlt_bool 0 applied_kelly then
          match Dec.div (Dec.mul br (F64.float_repr applied_kelly)) pr with
          | inr e => inr e
          | inl s => Dec.quantize1 s
          end
        else inl 0%Z
    | _, _ => inl 0%Z
    end in
  match size with
  | inr e => inr e
  | inl s => inl (mkKellyResult full_kelly applied_kelly (fraction k) win_rate win_loss_ratio s)
  end.

End Kelly.

(** ** src/risk/correlation.py *)
Module Correlation.

Record PortfolioRisk := mkPortfolioRisk {
  max_correlated_exposure : Q;
  correlation_threshold : Q;
  correlations : gmap (string * string) Q
}.

Definition corr_key (a b : string) : string * string :=
  if String.leb a b then (a, b) else (b, a).

Definition get_correlation (r : PortfolioRisk) (a b : string) : Q :=
  default 0 (correlations r !! corr_key a b).

Definition set_correlation (r : PortfolioRisk) (a b : string) (c : Q) : PortfolioRisk :=
  mkPortfolioRisk (max_correlated_exposure r) (correlation_threshold r)
    (<[corr_key a b := c]> (correlations r)).

(** [existing_positions.items()], in the dict's order. *)
Definition can_add_position (r : PortfolioRisk) (market : string) (size : Q)
    (existing_positions : list (string * Q)) : bool :=
  let correlated_exposure :=
    fold_left (fun acc '(other_market, other_size) =>
      if String.eqb other_market market then acc
      else if Qle_bool (correlation_threshold r) (get_correlation r market other_market)
      then acc + other_size else acc) existing_positions 0 in
  Qle_bool (correlated_exposure + size) (max_correlated_exposure r).

(** [positions[market]] on a dict given as its items in order. *)
Fixpoint dict_get (positions : list (string * Q)) (market : string) : Q :=
  match positions with
  | [] => 0
  | (m, p) :: rest => if String.eqb market m then p else dict_get rest market
  end.

(** [for market_b in markets[i + 1:]] *)
Fixpoint beta_inner (r : PortfolioRisk) (positions : list (string * Q)) (total_exposure : Q)
    (market_a : string) (ms : list string) (correlation_sum : Q) : Q :=
  match ms with
  | [] => correlation_sum
  | market_b :: rest =>
      let corr := get_correlation r market_a market_b in
      let weight_a := Qabs (dict_get positions market_a) / total_exposure in
      let weight_b := Qabs (dict_get positions market_b) / total_exposure in
      beta_inner r positions total_exposure market_a rest
        (correlation_sum + corr * weight_a * weight_b)
  end.

(** [for i, market_a in enumerate(markets)] *)
Fixpoint beta_outer (r : PortfolioRisk) (positions : list (string * Q)) (total_exposure : Q)
    (ms : list string) (correlation_sum : Q) : Q :=
  match ms with
  | [] => correlation_sum
  | market_a :: rest =>
      beta_outer r positions total_exposure rest
        (beta_inner r positions total_exposure market_a rest correlation_sum)
  end.

(** [calculate_portfolio_beta]; the Decimal quotient [abs(p) / total]
    and its [float] are taken as the exact quotient. *)
Definition calculate_portfolio_beta (r : PortfolioRisk) (positions : list (string * Q)) : Q :=
  if Nat.leb (length positions) 1 then 1 else
  let total_exposure := fold_left (fun acc '(_, p) => acc + Qabs p) positions 0 in
  if Qeq_bool total_exposure 0 then 1 else
  let markets := map fst positions in
  1 + beta_outer r positions total_exposure markets 0.

(** [CorrelationTracker]: the price history per market, a
    [defaultdict(list)]. *)
Module CorrelationTracker.

Definition MIN_SAMPLES : Z := 20.

Record Tracker := mkTracker {
  window_size : Z;
  prices : gmap string (list Q)
}.

(** [l[-n:]] *)
Definition py_suffix {A} (n : Z) (l : list A) : list A :=
  let start := (- n)%Z in
  if Z.ltb start 0 then skipn (Z.to_nat (Z.max 0 (Z.of_nat (length l) + start))) l
  else skipn (Z.to_nat start) l.

Definition record_price (t : Tracker) (market : string) (price : Q) : Tracker :=
  let l := default [] (prices t !! market) ++ [price] in
  let l := if Z.ltb (window_size t) (Z.of_nat (length l)) then py_suffix (window_size t) l else l in
  mkTracker (window_size t) (<[market := l]> (prices t)).

(** [np.corrcoef(a, b)[0, 1]] is a parameter: [None] stands for a NaN
    result or an exception. *)
Definition get_correlation (corrcoef : list Q -> list Q -> option Q) (t : Tracker)
    (market_a market_b : string) : Q :=
  let prices_a := default [] (prices t !! market_a) in
  let prices_b := default [] (prices t !! market_b) in
  if Z.ltb (Z.of_nat (length prices_a)) MIN_SAMPLES || Z.ltb (Z.of_nat (length prices_b)) MIN_SAMPLES
  then 0
  else
    let min_len := Z.min (Z.of_nat (length prices_a)) (Z.of_nat (length prices_b)) in
    let prices_a := py_suffix min_len prices_a in
    let prices_b := py_suffix min_len prices_b in
    default 0 (corrcoef prices_a prices_b).

Fixpoint record_prices (t : Tracker) (obs : list (string * Q)) : Tracker :=
  match obs with
  | [] => t
  | (m, p) :: rest => record_prices (record_price t m p) rest
  end.

End CorrelationTracker.

End Correlation.

(** ** src/risk/manager.py

    The fields of [RiskManager] that [check()] reads or writes.  The
    trade list, the entry prices and the Phase 3 helpers are not touched
    by [check()].  Reasons (the f-strings) and the [details] dicts are
    represented by a [Reason] carrying the values they print. *)
Module Risk.

Inductive RiskStatus := OK | WARN | STOP.

Definition RiskStatus_eqb (a b : RiskStatus) : bool :=
  match a, b with
  | OK, OK | WARN, WARN | STOP, STOP => true
  | _, _ => false
  end.

Inductive KillReason :=
  | KEmpty                    (* "" *)
  | KManual (r : string)      (* kill_switch(reason) *)
  | KDailyLoss (pnl : Q).     (* f"Daily loss limit exceeded: {pnl}" *)

Inductive Reason :=
  | RNone
  | RKillSwitch (k : KillReason)
  | RCooldown (remaining : Z)
  | RTooManyErrors (recent_errors : Z)
  | RDailyLossExceeded (pnl : Q)
  | RApproachingDailyLoss (pnl : Q)
  | RPositionLimit (token_id : string) (position limit : Q) (vol_adjusted : bool)
  | RTotalExposure (total limit : Q).

Record RiskCheck := mkCheck { status : RiskStatus; reason : Reason }.

Record RiskEvent := mkEvent {
  ev_timestamp : Q;
  ev_status : RiskStatus;
  ev_reason : Reason;
  ev_enforced : bool
}.

Record RiskManager := mkRM {
  max_daily_loss : Q;
  max_position : Q;
  max_total_exposure : Q;
  error_cooldown : Z;
  max_errors_per_minute : Z;
  enforce : bool;
  killed : bool;
  kill_reason : KillReason;
  errors : list (Q * string);
  cooldown_until : Q;
  daily_pnl : Q;
  risk_events : list RiskEvent;
  volatility_multiplier : Q;
  vol_adjusted_position : Q
}.

(** What [check()] reads from outside the object: the clock and
    [src.orders.get_position]. *)
Record Env := mkEnv { now : Q; get_position : string -> Q }.

Definition set_cooldown (st : RiskManager) (t : Q) : RiskManager :=
  mkRM (max_daily_loss st) (max_position st) (max_total_exposure st)
    (error_cooldown st) (max_errors_per_minute st) (enforce st) (killed st)
    (kill_reason st) (errors st) t (daily_pnl st) (risk_events st)
    (volatility_multiplier st) (vol_adjusted_position st).

Definition set_killed (st : RiskManager) (r : KillReason) : RiskManager :=
  mkRM (max_daily_loss st) (max_position st) (max_total_exposure st)
    (error_cooldown st) (max_errors_per_minute st) (enforce st) true
    r (errors st) (cooldown_until st) (daily_pnl st) (risk_events st)
    (volatility_multiplier st) (vol_adjusted_position st).

Definition set_events (st : RiskManager) (evs : list RiskEvent) : RiskManager :=
  mkRM (max_daily_loss st) (max_position st) (max_total_exposure st)
    (error_cooldown st) (max_errors_per_minute st) (enforce st) (killed st)
    (kill_reason st) (errors st) (cooldown_until st) (daily_pnl st) evs
    (volatility_multiplier st) (vol_adjusted_position st).

Definition recent_errors (st : RiskManager) (now : Q) : Z :=
  let minute_ago := now - 60 in
  Z.of_nat (length (List.filter (fun '(ts, _) => Qlt_bool minute_ago ts) (errors st))).

Definition check_error_rate (env : Env) (st : RiskManager) : RiskCheck * RiskManager :=
  let n := recent_errors st (now env) in
  if Z.leb (max_errors_per_minute st) n then
    (mkCheck STOP (RTooManyErrors n),
     set_cooldown st (now env + inject_Z (error_cooldown st)))
  else (mkCheck OK RNone, st).

Definition check_daily_pnl (st : RiskManager) : RiskCheck * RiskManager :=
  if Qlt_bool (daily_pnl st) (- max_daily_loss st) then
    let st' := if enforce st then set_killed st (KDailyLoss (daily_pnl st)) else st in
    (mkCheck STOP (RDailyLossExceeded (daily_pnl st)), st')
  else
    let warn_threshold := - max_daily_loss st * (8 # 10) in
    if Qlt_bool (daily_pnl st) warn_threshold then
      (mkCheck WARN (RApproachingDailyLoss (daily_pnl st)), st)
    else (mkCheck OK RNone, st).

(** The [for token_id in token_ids] loop of [_check_positions]. *)
Fixpoint check_positions_loop (env : Env) (st : RiskManager) (effective_limit : Q)
    (ts : list string) (total_exposure : Q) : RiskCheck :=
  match ts with
  | [] =>
      if Qlt_bool (max_total_exposure st) total_exposure then
        mkCheck WARN (RTotalExposure total_exposure (max_total_exposure st))
      else mkCheck OK RNone
  | t :: rest =>
      let position := get_position env t in
      let abs_position := Qabs position in
      if Qlt_bool effective_limit abs_position then
        mkCheck WARN (RPositionLimit t position effective_limit
                        (Qlt_bool (volatility_multiplier st) 1))
      else check_positions_loop env st effective_limit rest (total_exposure + abs_position)
  end.

Definition check_positions (env : Env) (st : RiskManager) (token_ids : list string)
    : RiskCheck :=
  let effective_limit := vol_adjusted_position st in
  check_positions_loop env st effective_limit token_ids 0.

(** [if token_ids:] on a list. *)
Definition list_truthy {A} (l : list A) : bool :=
  match l with [] => false | _ :: _ => true end.

Definition run_checks (env : Env) (st : RiskManager) (token_ids : option (list string))
    : RiskCheck * RiskManager :=
  if Qlt_bool (now env) (cooldown_until st) then
    (mkCheck STOP (RCooldown (py_int (cooldown_until st - now env))), st)
  else
    let '(c, st1) := check_error_rate env st in
    if RiskStatus_eqb (status c) STOP then (c, st1)
    else
      let '(pnl_check, st2) := check_daily_pnl st1 in
      if RiskStatus_eqb (status pnl_check) STOP then (pnl_check, st2)
      else
        let pos_check :=
          match token_ids with
          | Some ts => if list_truthy ts then check_positions env st2 ts else mkCheck OK RNone
          | None => mkCheck OK RNone
          end in
        if RiskStatus_eqb (status pos_check) STOP then (pos_check, st2)
        else if RiskStatus_eqb (status pnl_check) WARN
                || RiskStatus_eqb (status pos_check) WARN then
          (if RiskStatus_eqb (status pnl_check) WARN then (pnl_check, st2)
           else (pos_check, st2))
        else (mkCheck OK RNone, st2).

Definition log_risk_event (env : Env) (st : RiskManager) (c : RiskCheck)
    (enforced : bool) : RiskManager :=
  set_events st (risk_events st ++ [mkEvent (now env) (status c) (reason c) enforced]).

Definition check (env : Env) (st : RiskManager) (token_ids : option (list string))
    : RiskCheck * RiskManager :=
  if killed st then (mkCheck STOP (RKillSwitch (kill_reason st)), st)
  else
    let '(c, st1) := run_checks env st token_ids in
    if negb (RiskStatus_eqb (status c) OK) && negb (enforce st1) then
      (mkCheck OK RNone, log_risk_event env st1 c false)
    else if negb (RiskStatus_eqb (status c) OK) then
      (c, log_risk_event env st1 c true)
    else (c, st1).

(** [deque(maxlen=100).append]: the oldest items drop out. *)
Definition deque_append {A} (maxlen : nat) (l : list A) (x : A) : list A :=
  let l' := l ++ [x] in skipn (length l' - maxlen) l'.

Definition record_error (env : Env) (st : RiskManager) (error : string) : RiskManager :=
  mkRM (max_daily_loss st) (max_position st) (max_total_exposure st)
    (error_cooldown st) (max_errors_per_minute st) (enforce st) (killed st)
    (kill_reason st) (deque_append 100 (errors st) (now env, error)) (cooldown_until st)
    (daily_pnl st) (risk_events st) (volatility_multiplier st) (vol_adjusted_position st).

Definition kill_switch (st : RiskManager) (reason : string) : RiskManager :=
  set_killed st (KManual reason).

Definition reset_kill_switch (st : RiskManager) : RiskManager :=
  mkRM (max_daily_loss st) (max_position st) (max_total_exposure st)
    (error_cooldown st) (max_errors_per_minute st) (enforce st) false
    KEmpty (errors st) (cooldown_until st) (daily_pnl st) (risk_events st)
    (volatility_multiplier st) (vol_adjusted_position st).

Definition set_daily_pnl (st : RiskManager) (pnl : Q) : RiskManager :=
  mkRM (max_daily_loss st) (max_position st) (max_total_exposure st)
    (error_cooldown st) (max_errors_per_minute st) (enforce st) (killed st)
    (kill_reason st) (errors st) (cooldown_until st) pnl (risk_events st)
    (volatility_multiplier st) (vol_adjusted_position st).

(** The [_daily_pnl] part of [record_trade] (the trade log and the feeds
    to the adverse-selection and dynamic-limit components are not part of
    this state). *)
Definition record_trade (st : RiskManager) (realized_pnl : option Q) (fee : Q) : RiskManager :=
  match realized_pnl with
  | Some r => set_daily_pnl st (daily_pnl st + (r - fee))
  | None => if Qlt_bool 0 fee then set_daily_pnl st (daily_pnl st - fee) else st
  end.

Definition reset_daily_pnl (st : RiskManager) : RiskManager := set_daily_pnl st 0.


Inductive EventSummary :=
  | SEmpty                                                  (* {"total_events": 0} *)
  | SFull (total stop warn enforced non_enforced : Z).

Definition count_events (p : RiskEvent -> bool) (evs : list RiskEvent) : Z :=
  Z.of_nat (length (List.filter p evs)).

Definition get_risk_event_summary (st : RiskManager) : EventSummary :=
  match risk_events st with
  | [] => SEmpty
  | evs =>
      let total := Z.of_nat (length evs) in
      let enforced := count_events ev_enforced evs in
      SFull total (count_events (fun e => RiskStatus_eqb (ev_status e) STOP) evs)
        (count_events (fun e => RiskStatus_eqb (ev_status e) WARN) evs)
        enforced (total - enforced)
  end.

(** The manager's [_entry_prices] and [_unrealized_pnl]. *)
Record Unrealized := mkUnrealized {
  entry_prices : gmap string Q;
  unrealized_pnl : Q
}.

Definition update_unrealized_pnl (u : Unrealized) (token_id : string)
    (position current_price : Q) (entry_price : option Q) : Unrealized :=
  let eps := match entry_price with
             | Some e => <[token_id := e]> (entry_prices u)
             | None => entry_prices u
             end in
  match eps !! token_id with
  | None => mkUnrealized eps 0
  | Some stored_entry =>
      if Qeq_bool position 0 then mkUnrealized eps 0
      else mkUnrealized eps (position * (current_price - stored_entry))
  end.

Definition total_pnl (st : RiskManager) (u : Unrealized) : Q := daily_pnl st + unrealized_pnl u.

End Risk.

(** ** src/strategy/volatility.py, over the reals ([math.log] is [ln],
    [math.sqrt] is [sqrt]).  The clock [time.time()] is an argument of
    [update]. *)

Module Volatility.
Local Open Scope R_scope.

Definition VOL_LOW : R := 5 / 100.
Definition VOL_NORMAL : R := 15 / 100.
Definition VOL_HIGH : R := 30 / 100.

Record VolatilityTracker := mkVT {
  token_id : string;
  sample_interval : R;
  window_seconds : R;
  min_samples : nat;
  mult_min : R;
  mult_max : R;
  max_samples : nat;                (* the deque's [maxlen] *)
  samples : list (R * R);           (* (time, price) *)
  last_sample_time : R;
  last_price : option R;
  realized_vol : R
}.

(** [int(x)] on a float. *)
Definition py_int_R (x : R) : Z :=
  if Rle_dec 0 x then Int_part x else (- Int_part (- x))%Z.

Definition init (tok : string) (sample_interval window_seconds : R)
    (min_samples : nat) (mult_min mult_max : R) : VolatilityTracker :=
  mkVT tok sample_interval window_seconds min_samples mult_min mult_max
    (Z.to_nat (py_int_R (window_seconds / sample_interval) + 10))
    [] 0 None 0.

(** [deque.append] on a deque with [maxlen]: the oldest items drop out. *)
Definition deque_append {A} (maxlen : nat) (l : list A) (x : A) : list A :=
  let l' := l ++ [x] in skipn (length l' - maxlen) l'.

(** [while self._samples and self._samples[0][0] < cutoff: popleft()] *)
Fixpoint prune (cutoff : R) (l : list (R * R)) : list (R * R) :=
  match l with
  | [] => []
  | (t, p) :: rest => if Rlt_dec t cutoff then prune cutoff rest else l
  end.

Fixpoint log_returns (l : list (R * R)) : list R :=
  match l with
  | (_, prev) :: (((_, curr) :: _) as rest) =>
      if Rlt_dec 0 prev then
        if Rlt_dec 0 curr then ln (curr / prev) :: log_returns rest
        else log_returns rest
      else log_returns rest
  | _ => []
  end.

Definition sumR (l : list R) : R := fold_left Rplus l 0.

Definition calculate_volatility (vt : VolatilityTracker) : R :=
  if (length (samples vt) <? 2)%nat then 0 else
  let returns := log_returns (samples vt) in
  if (length returns <? 2)%nat then 0 else
  let n := INR (length returns) in
  let mean := sumR returns / n in
  let variance := sumR (map (fun r => (r - mean) ^ 2) returns) / (n - 1) in
  let std_dev := sqrt variance in
  let periods_per_year := 365 * 24 * 3600 / sample_interval vt in
  std_dev * sqrt periods_per_year.

Definition with_samples (vt : VolatilityTracker) (s : list (R * R)) (t : R)
    (p : option R) (v : R) : VolatilityTracker :=
  mkVT (token_id vt) (sample_interval vt) (window_seconds vt) (min_samples vt)
    (mult_min vt) (mult_max vt) (max_samples vt) s t p v.

Definition update (vt : VolatilityTracker) (now price : R) : bool * VolatilityTracker :=
  if Rle_dec price 0 then (false, vt)
  else if Rlt_dec (now - last_sample_time vt) (sample_interval vt) then (false, vt)
  else
    let s1 := deque_append (max_samples vt) (samples vt) (now, price) in
    let cutoff := now - window_seconds vt in
    let s2 := prune cutoff s1 in
    let vt1 := with_samples vt s2 now (Some price) (realized_vol vt) in
    if (min_samples vt <=? length s2)%nat then
      (true, with_samples vt s2 now (Some price) (calculate_volatility vt1))
    else (true, vt1).

(** A run of [update] calls, each at a clock reading with a price. *)
Fixpoint run (vt : VolatilityTracker) (calls : list (R * R)) : VolatilityTracker :=
  match calls with
  | [] => vt
  | (now, price) :: rest => run (snd (update vt now price)) rest
  end.

Definition py_min_R (a b : R) : R := if Rlt_dec b a then b else a.

Definition get_multiplier (vt : VolatilityTracker) : R :=
  if (length (samples vt) <? min_samples vt)%nat then 1 else
  let vol := realized_vol vt in
  if Rlt_dec vol VOL_LOW then mult_min vt
  else if Rlt_dec vol VOL_NORMAL then
    let ratio := (vol - VOL_LOW) / (VOL_NORMAL - VOL_LOW) in
    mult_min vt + ratio * (1 - mult_min vt)
  else if Rlt_dec vol VOL_HIGH then
    let ratio := (vol - VOL_NORMAL) / (VOL_HIGH - VOL_NORMAL) in
    1 + ratio * (5 / 10)
  else
    let ratio := py_min_R 1 ((vol - VOL_HIGH) / (20 / 100)) in
    15 / 10 + ratio * (mult_max vt - 15 / 10).

Definition get_level (vt : VolatilityTracker) : string :=
  if (length (samples vt) <? min_samples vt)%nat then "UNKNOWN"%string else
  let vol := realized_vol vt in
  if Rlt_dec vol VOL_LOW then "LOW"%string
  else if Rlt_dec vol VOL_NORMAL then "NORMAL"%string
  else if Rlt_dec vol VOL_HIGH then "HIGH"%string
  else "EXTREME"%string.

(** [reset()]: the deque keeps its [maxlen]. *)
Definition reset (vt : VolatilityTracker) : VolatilityTracker :=
  with_samples vt [] 0 None 0.

End Volatility.

(** [MultiTokenVolatilityTracker]; [**kwargs] are the constructor's
    arguments after [token_id]. *)
Module MultiTokenVolatilityTracker.
Import Volatility.

Record MultiTracker := mkMulti {
  kw_sample_interval : R;
  kw_window_seconds : R;
  kw_min_samples : nat;
  kw_mult_min : R;
  kw_mult_max : R;
  trackers : gmap string VolatilityTracker
}.

Definition new_tracker (m : MultiTracker) (token_id : string) : VolatilityTracker :=
  init token_id (kw_sample_interval m) (kw_window_seconds m) (kw_min_samples m)
    (kw_mult_min m) (kw_mult_max m).

Definition set_trackers (m : MultiTracker) (t : gmap string VolatilityTracker) : MultiTracker :=
  mkMulti (kw_sample_interval m) (kw_window_seconds m) (kw_min_samples m)
    (kw_mult_min m) (kw_mult_max m) t.

Definition update (m : MultiTracker) (token_id : string) (now price : R) : bool * MultiTracker :=
  let tr := match trackers m !! token_id with
            | Some t => t
            | None => new_tracker m token_id
            end in
  let '(b, tr') := Volatility.update tr now price in
  (b, set_trackers m (<[token_id := tr']> (trackers m))).

Definition get_multiplier (m : MultiTracker) (token_id : string) : R :=
  match trackers m !! token_id with
  | None => 1%R
  | Some t => Volatility.get_multiplier t
  end.

(** A sequence of [update(token_id, now, price)] calls, return values
    discarded. *)
Fixpoint run (m : MultiTracker) (calls : list (string * R * R)) : MultiTracker :=
  match calls with
  | [] => m
  | (token_id, now, price) :: rest => run (snd (update m token_id now price)) rest
  end.

(** The [(now, price)] calls of [run] addressed to one token, in order. *)
Definition calls_of (token_id : string) (calls : list (string * R * R)) : list (R * R) :=
  List.map (fun c => (snd (fst c), snd c))
    (List.filter (fun c => String.eqb (fst (fst c)) token_id) calls).

End MultiTokenVolatilityTracker.

(** * Concrete inputs used by the witnesses and counterexamples *)
Module Samples.
Import Risk.

Definition env0 : Env := mkEnv 1000 (fun _ => 0).

(** A fresh manager with [max_daily_loss = 50] and the given mode and
    daily P&L. *)
Definition rm_with (enf : bool) (pnl : Q) : RiskManager :=
  mkRM 50 100 500 60 5 enf false KEmpty [] 0 pnl [] 1 100.

(** A manager that recorded five errors at time 1000. *)
Definition rm_err5 : RiskManager :=
  fold_left (record_error env0) ["e1"; "e2"; "e3"; "e4"; "e5"]%string (rm_with true 0).

(** The default quarter Kelly capped at the double nearest 0.10, with a
    bankroll of 10000. *)
(** A manager allowing 101 errors per minute that already keeps 100
    errors, recorded at time 1000. *)
Definition rm_err100 : RiskManager :=
  mkRM 50 100 500 60 101 true false KEmpty (List.repeat (1000, "e"%string) 100) 0 0 [] 1 100.

(** A simulator holding one LIVE order ["sim_aaa"] of token ["tokA"]. *)
Definition sim_one : Simulator.Sim :=
  snd (Simulator.create_order (Simulator.mkSim [] [] empty 0) "aaa" "tokA" Models.BUY
         (1 # 2) 10 "t0").

Definition k_sample : Kelly.KellyCalculator :=
  Kelly.mkKelly (1 # 4) (F64.fl (1 # 10)) (Some 10000).

(** 22 float P&Ls: 14 wins of 1.5 and 8 losses of 1. *)
Definition trades_sample : list Q := List.repeat (3 # 2) 14 ++ List.repeat (-1) 8.

(** Exposure limit 500, threshold 0.5, and [corr(a, b) = 0.9]. *)
Definition pr_sample : Correlation.PortfolioRisk :=
  Correlation.set_correlation (Correlation.mkPortfolioRisk 500 (1 # 2) empty)
    "a" "b" (9 # 10).

Definition pair_sample : Arbitrage.TokenPair :=
  Arbitrage.mkTokenPair "cond" "yes" "no" "market".

(** Four registered pairs; [arb_prices] quotes them at sums 1.02, 1.06,
    (no YES price) and 1.00.  Before the scan, the last pair and an
    unregistered id ["zzz"] hold an old signal. *)
Definition arb_old : Arbitrage.ArbitrageSignal :=
  Arbitrage.check_pair (Arbitrage.mkDetector (1 # 1000) 20) (52 # 100) (1 # 2) pair_sample.

Definition arb_state : Arbitrage.DetectorState :=
  fold_left Arbitrage.register_pair
    [pair_sample; Arbitrage.mkTokenPair "cond2" "y2" "n2" "m2";
     Arbitrage.mkTokenPair "cond3" "y3" "n3" "m3"; Arbitrage.mkTokenPair "cond4" "y4" "n4" "m4"]
    (Arbitrage.mkDetectorState [] (<["cond4" := arb_old]> (<["zzz" := arb_old]> empty))).

Definition arb_prices (t : string) : option Q :=
  if String.eqb t "yes" then Some (52 # 100)
  else if String.eqb t "y2" then Some (56 # 100)
  else if String.eqb t "y3" then None
  else Some (1 # 2).

(** Three samples 5 s apart whose two log-returns are [ln 1.00005] and
    its opposite. *)
Definition vol_calls : list (R * R) :=
  [(5, 1 / 2); (10, 20001 / 40000); (15, 1 / 2)]%R.

(** A tracker sampling every 5 s over 30 min, needing 3 samples. *)
Definition vt_sample (a b : R) : Volatility.VolatilityTracker :=
  Volatility.init "tok" 5 1800 3 a b.

End Samples.

(** * The correlated-exposure rule as the specification states it
    (absolute sizes), to be compared with [Correlation.can_add_position]. *)
Module CorrelationSpec.
Import Correlation.

Definition can_add_position_abs (r : PortfolioRisk) (market : string) (size : Q)
    (existing_positions : list (string * Q)) : bool :=
  let correlated_exposure :=
    fold_left (fun acc '(other_market, other_size) =>
      if String.eqb other_market market then acc
      else if Qle_bool (correlation_threshold r) (get_correlation r market other_market)
      then acc + Qabs other_size else acc) existing_positions 0 in
  Qle_bool (correlated_exposure + size) (max_correlated_exposure r).

(** The weights [abs(p) / total] of [calculate_portfolio_beta], their sum,
    and the sum of [weight_a * weight_b] over the pairs [a] before [b]. *)
Definition weight (T v : Q) : Q := Qabs v / T.

Definition sum_weights (T : Q) (l : list (string * Q)) : Q :=
  fold_right (fun e s => weight T (snd e) + s) 0 l.

Fixpoint pair_weights (T : Q) (l : list (string * Q)) : Q :=
  match l with
  | [] => 0
  | (_, v) :: rest => weight T v * sum_weights T rest + pair_weights T rest
  end.

End CorrelationSpec.

(** * Views of the state used by the statements below *)
Module BookView.
Import Models.

(** A book whose best prices are not both present and non-zero. *)
Definition book_dead (b : OrderBook) : Prop :=
  ob_bids b = [] \/ ob_asks b = [] \/
  (exists l r, ob_bids b = l :: r /\ pl_price l == 0) \/
  (exists l r, ob_asks b = l :: r /\ pl_price l == 0).

End BookView.

Module SimulatorView.
Import Models.

(** The fill rule as the specification states it: a LIVE order on the token fills
    when a BUY is priced at or above the ask, or a SELL at or below the
    bid. *)
Definition fills (token_id : string) (bid ask : Q) (o : Order) : bool :=
  is_live o && String.eqb (o_token_id o) token_id &&
  match o_side o with
  | BUY => Qle_bool ask (o_price o)
  | SELL => Qle_bool (o_price o) bid
  end.

Definition filled_order (o : Order) : Order :=
  set_status (set_filled o (o_size o)) MATCHED.

(** A trade without its generated id. *)
Definition trade_view (tr : Trade) :=
  (t_order_id tr, t_token_id tr, t_side tr, t_price tr, t_size tr, t_fee tr,
   t_is_simulated tr).

Definition expected_trade (fee_rate : Q) (o : Order) :=
  (o_id o, o_token_id o, o_side o, o_price o, o_size o,
   o_price o * o_size o * fee_rate, true).

Definition signed_size (o : Order) : Q :=
  match o_side o with BUY => o_size o | SELL => - o_size o end.

Definition sumQ (l : list Q) : Q := fold_right Qplus 0 l.

End SimulatorView.

(** ** The invariant of [VolatilityTracker.update] *)
Module VolatilityView.
Import Volatility.
Local Open Scope R_scope.

(** The state [update] maintains: samples in time order, positive, inside
    the window ending at the last sample time, at most [maxlen] of them,
    a non-negative realized volatility, and the newest sample being
    [(last_sample_time, last_price)]. *)
Definition vt_inv (vt : VolatilityTracker) : Prop :=
  StronglySorted (fun a b => fst a < fst b) (samples vt) /\
  Forall (fun s => 0 < snd s /\ last_sample_time vt - window_seconds vt <= fst s <= last_sample_time vt)
    (samples vt) /\
  (length (samples vt) <= max_samples vt)%nat /\
  0 <= realized_vol vt /\
  (samples vt = [] \/
   exists p, last_price vt = Some p /\ List.last (samples vt) (0, 0) = (last_sample_time vt, p)).

End VolatilityView.

(** * Properties *)

Module BookProofs.
Import Models DataStore BookView.

Lemma truthy_best_bid (b : OrderBook) :
  truthy (best_bid b) = false <->
  ob_bids b = [] \/ exists l r, ob_bids b = l :: r /\ pl_price l == 0.
Proof.
  unfold truthy, best_bid. destruct (ob_bids b) as [|l r]; simpl.
  - tauto.
  - split.
    + intros H. right. exists l, r. split; [reflexivity|].
      apply Qeq_bool_iff. now destruct (Qeq_bool (pl_price l) 0).
    + intros [H|(l' & r' & H & Hz)]; [discriminate|].
      injection H as -> ->. apply Qeq_bool_iff in Hz. now rewrite Hz.
Qed.

Lemma truthy_best_ask (b : OrderBook) :
  truthy (best_ask b) = false <->
  ob_asks b = [] \/ exists l r, ob_asks b = l :: r /\ pl_price l == 0.
Proof.
  unfold truthy, best_ask. destruct (ob_asks b) as [|l r]; simpl.
  - tauto.
  - split.
    + intros H. right. exists l, r. split; [reflexivity|].
      apply Qeq_bool_iff. now destruct (Qeq_bool (pl_price l) 0).
    + intros [H|(l' & r' & H & Hz)]; [discriminate|].
      injection H as -> ->. apply Qeq_bool_iff in Hz. now rewrite Hz.
Qed.

Lemma book_dead_truthy (b : OrderBook) :
  book_dead b <-> truthy (best_bid b) && truthy (best_ask b) = false.
Proof.
  unfold book_dead. rewrite andb_false_iff, truthy_best_bid, truthy_best_ask.
  tauto.
Qed.

Lemma truthy_some (o : option Q) : truthy o = true -> exists p, o = Some p.
Proof. destruct o; simpl; [eauto | discriminate]. Qed.

(** C10: [midpoint] and [spread] always return (they are total functions
    of the book) and return [None] exactly when a side is empty or its best
    price is 0; [DataStore.get_midpoint] and [get_spread] return [None]
    for an unknown token or a token without a book, and otherwise the
    book's values. *)
Theorem midpoint_spread_none_iff (b : OrderBook) :
  (midpoint b = None <-> book_dead b) /\
  (spread b = None <-> book_dead b) /\
  (forall (s : DataStore) (k : string),
     get_midpoint s k =
       match data s !! k with
       | Some d => match td_order_book d with Some b' => midpoint b' | None => None end
       | None => None
       end /\
     get_spread s k =
       match data s !! k with
       | Some d => match td_order_book d with Some b' => spread b' | None => None end
       | None => None
       end).
Proof.
  rewrite book_dead_truthy. unfold midpoint, spread.
  destruct (truthy (best_bid b) && truthy (best_ask b)) eqn:E.
  - apply andb_true_iff in E as [E1 E2].
    destruct (truthy_some _ E1) as [bb ->]. destruct (truthy_some _ E2) as [ba ->].
    split; [|split]; [split; discriminate | split; discriminate |].
    intros s k. split; reflexivity.
  - split; [|split]; [tauto | tauto |]. intros s k. split; reflexivity.
Qed.

End BookProofs.

Module DataStoreProofs.
Import DataStore.

(** C7: [check_sequence] with no sequence number changes nothing and
    accepts.  With [seq], it always adopts [seq] as the token's last
    sequence; it rejects exactly when the stored last sequence is not the
    sentinel [-1] (a missing entry reads as [-1]) and [seq <> last + 1];
    the token's gap counter is incremented exactly on a rejection. *)
Theorem check_sequence_spec (s : DataStore) (k : string) (seq : option Z) :
  let '(ok, s') := check_sequence s k seq in
  match seq with
  | None => ok = true /\ s' = s
  | Some q =>
      let last := default (-1)%Z (sequence s !! k) in
      (ok = false <-> last <> (-1)%Z /\ q <> (last + 1)%Z) /\
      sequence s' = <[k := q]> (sequence s) /\
      gap_count s' =
        (if ok then gap_count s
         else <[k := (default 0%Z (gap_count s !! k) + 1)%Z]> (gap_count s)) /\
      data s' = data s /\ stale_threshold s' = stale_threshold s
  end.
Proof.
  unfold check_sequence. destruct seq as [q|]; [|auto].
  destruct (Z.eqb_spec (default (-1)%Z (sequence s !! k)) (-1)) as [Hl|Hl].
  - simpl. repeat split; try reflexivity; try discriminate. intros [H _]. contradiction.
  - destruct (Z.eqb_spec q (default (-1)%Z (sequence s !! k) + 1)) as [Hq|Hq];
      simpl; repeat split; try reflexivity; try discriminate; tauto.
Qed.

End DataStoreProofs.

Module SimulatorProofs.
Import Models Simulator SimulatorView.

Lemma orders_get_update_eq (os : list (string * Order)) (k : string) f o :
  orders_get os k = Some o -> orders_get (orders_update os k f) k = Some (f o).
Proof.
  induction os as [|[k' o'] rest IH]; simpl; [discriminate|].
  destruct (String.eqb_spec k' k) as [->|Hne]; simpl.
  - rewrite String.eqb_refl. congruence.
  - intros H. destruct (String.eqb_spec k' k); [contradiction|]. auto.
Qed.

Lemma orders_get_update_ne (os : list (string * Order)) (k j : string) f :
  j <> k -> orders_get (orders_update os k f) j = orders_get os j.
Proof.
  intros Hjk. induction os as [|[k' o'] rest IH]; simpl; [reflexivity|].
  destruct (String.eqb_spec k' k) as [->|Hne]; simpl.
  - destruct (String.eqb_spec k j) as [->|]; [contradiction|reflexivity].
  - destruct (String.eqb k' j); [reflexivity | exact IH].
Qed.

Lemma orders_update_keys (os : list (string * Order)) (k : string) f :
  map fst (orders_update os k f) = map fst os.
Proof.
  induction os as [|[k' o'] rest IH]; simpl; [reflexivity|].
  destruct (String.eqb k' k); simpl; congruence.
Qed.

(** C9: cancelling an unknown or non-LIVE order returns [false] and leaves
    the simulator as it was; cancelling a LIVE order returns [true], sets
    that order's status to CANCELLED (every other field, including
    [filled], is kept), leaves every other order, the trades and the
    positions unchanged. *)
Theorem cancel_order_spec (s : Sim) (order_id : string) :
  let '(r, s') := cancel_order s order_id in
  match orders_get (orders s) order_id with
  | Some o =>
      if is_live o then
        r = true /\
        orders_get (orders s') order_id = Some (set_status o CANCELLED) /\
        o_filled (set_status o CANCELLED) = o_filled o /\
        (forall j, j <> order_id -> orders_get (orders s') j = orders_get (orders s) j) /\
        map fst (orders s') = map fst (orders s) /\
        trades s' = trades s /\ positions s' = positions s
      else r = false /\ s' = s
  | None => r = false /\ s' = s
  end.
Proof.
  unfold cancel_order. destruct (orders_get (orders s) order_id) as [o|] eqn:E;
    [|auto].
  destruct (is_live o) eqn:L; simpl; [|auto].
  repeat split; simpl.
  - exact (orders_get_update_eq _ _ (fun o => set_status o CANCELLED) o E).
  - intros j Hj. now apply orders_get_update_ne.
  - apply orders_update_keys.
Qed.

Lemma update_position_same (ps : gmap string Q) t side sz :
  default 0 (update_position ps t side sz !! t) =
  default 0 (ps !! t) + match side with BUY => sz | SELL => - sz end.
Proof.
  unfold update_position. destruct side; rewrite lookup_insert_eq; reflexivity.
Qed.

Lemma update_position_other (ps : gmap string Q) t side sz k :
  k <> t -> update_position ps t side sz !! k = ps !! k.
Proof.
  intros Hk. unfold update_position. destruct side; now rewrite lookup_insert_ne.
Qed.

Lemma fills_eq (t : string) (bid ask : Q) (o : Order) :
  fills t bid ask o = is_live o && String.eqb (o_token_id o) t && should_fill bid ask o.
Proof. unfold fills, should_fill. destruct (o_side o); reflexivity. Qed.

Lemma check_fills_loop_spec (fee_rate : Q) (t : string) (bid ask : Q) :
  forall (os : list (string * Order)) (acc : FillAcc),
  let '(os', acc') := check_fills_loop fee_rate t bid ask os acc in
  let fl := List.filter (fun ko => fills t bid ask (snd ko)) os in
  (os' = map (fun ko => (fst ko, if fills t bid ask (snd ko)
                                 then filled_order (snd ko) else snd ko)) os) /\
  (map trade_view (fa_trades acc') =
     map trade_view (fa_trades acc) ++ map (fun ko => expected_trade fee_rate (snd ko)) fl) /\
  (forall k, k <> t -> fa_positions acc' !! k = fa_positions acc !! k) /\
  (default 0 (fa_positions acc' !! t) ==
     default 0 (fa_positions acc !! t) + sumQ (map (fun ko => signed_size (snd ko)) fl)) /\
  (fa_count acc' = (fa_count acc + Z.of_nat (length fl))%Z).
Proof.
  induction os as [|[k o] rest IH]; intros acc.
  - simpl. rewrite app_nil_r. split; [reflexivity|split; [reflexivity|split; [auto|split; [unfold sumQ; simpl; rewrite Qplus_0_r; reflexivity|simpl; lia]]]].
  - destruct (fills t bid ask o) eqn:Fo0; pose proof Fo0 as Fo; rewrite fills_eq in Fo;
      cbn [check_fills_loop List.filter map fst snd length]; rewrite Fo0.
    + apply andb_true_iff in Fo as [Fo F]. apply andb_true_iff in Fo as [L T].
      rewrite L, T, F. cbn [negb orb].
      set (acc1 := mkFillAcc _ _ _ _).
      specialize (IH acc1). destruct (check_fills_loop fee_rate t bid ask rest acc1)
        as [os' acc'] eqn:E.
      destruct IH as (H1 & H2 & H3 & H4 & H5).
      split; [|split; [|split; [|split]]].
      * rewrite H1. reflexivity.
      * rewrite H2. unfold acc1. simpl. rewrite map_app, <- app_assoc. reflexivity.
      * intros j Hj. rewrite H3 by exact Hj. unfold acc1. simpl.
        now apply update_position_other.
      * rewrite H4. unfold acc1. cbn [fa_positions]. rewrite update_position_same.
        unfold sumQ at 2. cbn [map fold_right snd]. fold (sumQ (map (fun ko => signed_size (snd ko))
          (List.filter (fun ko => fills t bid ask (snd ko)) rest))).
        unfold signed_size at 2. destruct (o_side o); ring.
      * rewrite H5. unfold acc1. simpl. lia.
    + assert (Hskip : forall A (x y : A),
                (if negb (is_live o) || negb (String.eqb (o_token_id o) t) then x
                 else if should_fill bid ask o then y else x) = x).
      { intros A x y. destruct (is_live o), (String.eqb (o_token_id o) t),
          (should_fill bid ask o); simpl in Fo |- *; congruence. }
      rewrite Hskip.
      specialize (IH acc). destruct (check_fills_loop fee_rate t bid ask rest acc)
        as [os' acc'] eqn:E.
      destruct IH as (H1 & H2 & H3 & H4 & H5).
      split; [|split; [|split; [|split]]]; try assumption.
      rewrite H1. reflexivity.
Qed.

(** C3: one call of [check_fills token_id bid ask] fills exactly the LIVE
    orders on [token_id] with (BUY and price >= ask) or (SELL and price <=
    bid); each such order becomes MATCHED with [filled = size], one trade
    at the order's own price and full size with fee [price * size *
    fee_rate] is appended per fill (in the dict's order), the token's
    cached position moves by [+size] per BUY fill and [-size] per SELL
    fill, other tokens' positions are untouched, and the returned count is
    the number of fills. *)
Theorem check_fills_spec (fee_rate : Q) (t : string) (bid ask : Q) (s : Sim) :
  let '(n, s') := check_fills fee_rate t bid ask s in
  let fl := List.filter (fun ko => fills t bid ask (snd ko)) (orders s) in
  (orders s' = map (fun ko => (fst ko, if fills t bid ask (snd ko)
                                       then filled_order (snd ko) else snd ko)) (orders s)) /\
  (map trade_view (trades s') =
     map trade_view (trades s) ++ map (fun ko => expected_trade fee_rate (snd ko)) fl) /\
  (forall k, k <> t -> positions s' !! k = positions s !! k) /\
  (default 0 (positions s' !! t) ==
     default 0 (positions s !! t) + sumQ (map (fun ko => signed_size (snd ko)) fl)) /\
  (n = Z.of_nat (length fl)).
Proof.
  unfold check_fills.
  pose proof (check_fills_loop_spec fee_rate t bid ask (orders s)
                (mkFillAcc (trades s) (positions s) (trade_seq s) 0%Z)) as H.
  destruct (check_fills_loop fee_rate t bid ask (orders s) _) as [os' acc'].
  simpl in H |- *. destruct H as (H1 & H2 & H3 & H4 & H5).
  repeat split; auto.
Qed.

End SimulatorProofs.

Module RiskProofs.
Import Risk.

Lemma Qlt_bool_iff (a b : Q) : Qlt_bool a b = true <-> a < b.
Proof.
  unfold Qlt_bool. rewrite negb_true_iff. split.
  - intros H. apply Qnot_le_lt. intros Hle. apply Qle_bool_iff in Hle. congruence.
  - intros H. destruct (Qle_bool b a) eqn:E; [|reflexivity].
    apply Qle_bool_iff in E. exfalso. apply (Qlt_not_le a b); assumption.
Qed.

Lemma Qlt_bool_false (a b : Q) : Qlt_bool a b = false <-> b <= a.
Proof.
  unfold Qlt_bool. rewrite negb_false_iff. apply Qle_bool_iff.
Qed.

Lemma check_error_rate_events env st :
  risk_events (snd (check_error_rate env st)) = risk_events st /\
  enforce (snd (check_error_rate env st)) = enforce st /\
  killed (snd (check_error_rate env st)) = killed st.
Proof.
  unfold check_error_rate. destruct (Z.leb _ _); simpl; auto.
Qed.

Lemma check_daily_pnl_events st :
  risk_events (snd (check_daily_pnl st)) = risk_events st /\
  enforce (snd (check_daily_pnl st)) = enforce st /\
  (enforce st = false -> killed (snd (check_daily_pnl st)) = killed st).
Proof.
  unfold check_daily_pnl. destruct (Qlt_bool _ _).
  - destruct (enforce st) eqn:E; simpl; intuition congruence.
  - destruct (Qlt_bool _ _); simpl; auto.
Qed.

(** [run_checks] never touches the event log nor the mode. *)
Lemma run_checks_events env st toks :
  risk_events (snd (run_checks env st toks)) = risk_events st /\
  enforce (snd (run_checks env st toks)) = enforce st.
Proof.
  unfold run_checks. destruct (Qlt_bool _ _); [simpl; auto|].
  pose proof (check_error_rate_events env st) as (A1 & A2 & _).
  destruct (check_error_rate env st) as [c st1]. simpl in A1, A2.
  destruct (RiskStatus_eqb (status c) STOP); [simpl; auto|].
  pose proof (check_daily_pnl_events st1) as (B1 & B2 & _).
  destruct (check_daily_pnl st1) as [p st2]. simpl in B1, B2.
  destruct (RiskStatus_eqb (status p) STOP); [simpl; split; congruence|].
  destruct (RiskStatus_eqb (status _) STOP); [simpl; split; congruence|].
  destruct (_ || _); [destruct (RiskStatus_eqb _ _)|]; simpl; split; congruence.
Qed.

Lemma check_positions_not_stop env st ts :
  status (check_positions env st ts) <> STOP.
Proof.
  unfold check_positions. generalize (0 : Q) as tot.
  induction ts as [|t rest IH]; intros tot; simpl.
  - destruct (Qlt_bool _ _); discriminate.
  - destruct (Qlt_bool _ _); [discriminate | apply IH].
Qed.

(** C1 (amended): in enforce mode, with the kill switch clear, no active
    cooldown and fewer recent errors than the limit, a daily P&L strictly
    below [-max_daily_loss] makes [check()] return STOP and sets the kill
    switch; at exactly [-max_daily_loss] (with a positive limit) the result
    is WARN and the kill switch stays clear. *)
Theorem check_daily_loss_limit (env : Env) (st : RiskManager)
    (toks : option (list string))
    (Henf : enforce st = true) (Hk : killed st = false)
    (Hcool : cooldown_until st <= now env)
    (Herr : (recent_errors st (now env) < max_errors_per_minute st)%Z) :
  (daily_pnl st < - max_daily_loss st ->
     status (fst (check env st toks)) = STOP /\ killed (snd (check env st toks)) = true) /\
  (daily_pnl st == - max_daily_loss st -> 0 < max_daily_loss st ->
     status (fst (check env st toks)) = WARN /\ killed (snd (check env st toks)) = false).
Proof.
  assert (Hc : Qlt_bool (now env) (cooldown_until st) = false)
    by (apply Qlt_bool_false; exact Hcool).
  assert (He : Z.leb (max_errors_per_minute st) (recent_errors st (now env)) = false)
    by (apply Z.leb_gt; exact Herr).
  unfold check. rewrite Hk. unfold run_checks. rewrite Hc.
  unfold check_error_rate. rewrite He. cbn [status RiskStatus_eqb negb].
  unfold check_daily_pnl. split.
  - intros Hlt. apply Qlt_bool_iff in Hlt. rewrite Hlt, Henf. simpl. rewrite Henf.
    simpl. split; reflexivity.
  - intros Heq Hpos.
    assert (H1 : Qlt_bool (daily_pnl st) (- max_daily_loss st) = false)
      by (apply Qlt_bool_false; lra).
    assert (H2 : Qlt_bool (daily_pnl st) (- max_daily_loss st * (8 # 10)) = true)
      by (apply Qlt_bool_iff; lra).
    rewrite H1, H2. cbn [status RiskStatus_eqb orb].
    destruct toks as [ts|].
    + pose proof (check_positions_not_stop env st ts) as Hns.
      cbv beta iota. destruct (list_truthy ts).
      * destruct (check_positions env st ts) as [[| |] r]; [| |contradiction];
          simpl; rewrite ?Henf; simpl; split; [reflexivity | exact Hk | reflexivity | exact Hk].
      * simpl. rewrite ?Henf. simpl. split; [reflexivity | exact Hk].
    + simpl. rewrite ?Henf. simpl. split; [reflexivity | exact Hk].
Qed.

(** C2: in data-gather mode with the kill switch clear, a non-OK result of
    the underlying checks is logged as exactly one event carrying its status
    with [enforced = false], and [check()] returns OK; an OK result is
    returned as is and logs nothing. *)
Theorem check_data_gather_mode (env : Env) (st : RiskManager)
    (toks : option (list string))
    (Hn : enforce st = false) (Hk : killed st = false) :
  let '(u, st1) := run_checks env st toks in
  (status u <> OK ->
     fst (check env st toks) = mkCheck OK RNone /\
     risk_events (snd (check env st toks)) =
       risk_events st ++ [mkEvent (now env) (status u) (reason u) false]) /\
  (status u = OK ->
     fst (check env st toks) = u /\ risk_events (snd (check env st toks)) = risk_events st).
Proof.
  pose proof (run_checks_events env st toks) as [E1 E2].
  unfold check. rewrite Hk.
  destruct (run_checks env st toks) as [u st1]. simpl in E1, E2.
  rewrite E2, Hn. split.
  - intros Hu. destruct (status u) eqn:S; [contradiction| |]; simpl;
      unfold log_risk_event; simpl; rewrite E1, S; split; reflexivity.
  - intros Hu. rewrite Hu. simpl. split; [reflexivity | exact E1].
Qed.

Import Samples.

Lemma check_daily_loss_limit_witness :
  status (fst (check env0 (rm_with true (-60)) None)) = STOP /\
  killed (snd (check env0 (rm_with true (-60)) None)) = true.
Proof.
  refine (proj1 (check_daily_loss_limit env0 (rm_with true (-60)) None
                   eq_refl eq_refl _ _) _).
  - apply Qle_bool_iff. reflexivity.
  - reflexivity.
  - reflexivity.
Defined.

(** C1 counterexample: at a daily P&L of exactly [-max_daily_loss]
    ([-50] against a limit of 50, enforce mode, nothing else pending)
    [check()] returns WARN, not STOP, and the kill switch stays clear. *)
Lemma check_daily_loss_at_limit_warns :
  status (fst (check env0 (rm_with true (-50)) None)) = WARN /\
  status (fst (check env0 (rm_with true (-50)) None)) <> STOP /\
  killed (snd (check env0 (rm_with true (-50)) None)) = false.
Proof. vm_compute. split; [reflexivity | split; [discriminate | reflexivity]]. Qed.

Lemma check_data_gather_mode_witness :
  fst (check env0 (rm_with false (-60)) None) = mkCheck OK RNone /\
  risk_events (snd (check env0 (rm_with false (-60)) None)) =
    risk_events (rm_with false (-60)) ++
      [mkEvent (now env0) STOP (RDailyLossExceeded (-60)) false].
Proof.
  pose proof (check_data_gather_mode env0 (rm_with false (-60)) None eq_refl eq_refl) as H.
  change (run_checks env0 (rm_with false (-60)) None)
    with (mkCheck STOP (RDailyLossExceeded (-60)), rm_with false (-60)) in H.
  destruct H as [H _]. exact (H ltac:(discriminate)).
Defined.

End RiskProofs.

Module ArbitrageProofs.
Import Arbitrage.

Lemma py_int_nonneg (q : Q) : 0 <= q -> py_int q = Qfloor q.
Proof.
  intros H. unfold py_int. apply Qle_bool_iff in H. now rewrite H.
Qed.

Lemma py_min_Qmin (a b : Q) : py_min a b = Qmin a b.
Proof.
  unfold py_min, Qmin, GenericMinMax.gmin, Qlt_bool.
  destruct (Qle_bool a b) eqn:E; simpl.
  - apply Qle_bool_iff in E. destruct (Qcompare a b) eqn:C; try reflexivity.
    exfalso. apply Qle_not_lt in E. apply E. now apply Qgt_alt.
  - destruct (Qcompare a b) eqn:C; try reflexivity.
    + exfalso. apply Qeq_alt in C. assert (a <= b) by (rewrite C; apply Qle_refl).
      apply Qle_bool_iff in H. congruence.
    + exfalso. apply Qlt_alt in C. apply Qlt_le_weak in C.
      apply Qle_bool_iff in C. congruence.
Qed.

(** C4 (amended): with [deviation = yes + no - 1],
    [deviation_bps = floor(|deviation| * 10000)] and
    [net = deviation_bps - int(fee_rate * 2 * 10000)] (the fee cost is
    truncated to whole basis points), [check_pair] returns SELL_BOTH exactly
    when [deviation > 0] and [net >= min_profit_bps], with profit [net]
    and confidence [min(1, net/100)]; BUY_BOTH exactly when [deviation < 0]
    and [net >= min_profit_bps], likewise; otherwise SKEW_QUOTES with the
    gross [deviation_bps] and confidence 0.5 when [deviation_bps >= 10],
    else NONE with profit 0 and confidence 0.  At [yes = 0.505],
    [no = 0.500], fee rate 0.001 and [min_profit_bps = 20] the result is
    SELL_BOTH with profit 30 and confidence 0.3. *)
Theorem check_pair_classification (d : ArbitrageDetector) (yes no : Q) (pair : TokenPair) :
  (let sg := check_pair d yes no pair in
   let dev := yes + no - 1 in
   let dev_bps := Qfloor (Qabs dev * 10000) in
   let net := (dev_bps - py_int (fee_rate d * 2 * 10000))%Z in
   let sell := 0 < dev /\ (min_profit_bps d <= net)%Z in
   let buy := dev < 0 /\ (min_profit_bps d <= net)%Z in
   match sig_type sg with
   | SELL_BOTH => sell /\ sig_profit_bps sg = net /\
                  sig_confidence sg = Qmin 1 (inject_Z net / 100)
   | BUY_BOTH => ~ sell /\ buy /\ sig_profit_bps sg = net /\
                 sig_confidence sg = Qmin 1 (inject_Z net / 100)
   | SKEW_QUOTES => ~ sell /\ ~ buy /\ (10 <= dev_bps)%Z /\
                    sig_profit_bps sg = dev_bps /\ sig_confidence sg = 1 # 2
   | NONE => ~ sell /\ ~ buy /\ (dev_bps < 10)%Z /\
             sig_profit_bps sg = 0%Z /\ sig_confidence sg = 0
   end) /\
  (let sg := check_pair (mkDetector (1 # 1000) 20) (505 # 1000) (500 # 1000) pair in
   sig_type sg = SELL_BOTH /\ sig_profit_bps sg = 30%Z /\ sig_confidence sg == 3 # 10).
Proof.
  split; [|vm_compute; split; [reflexivity | split; reflexivity]].
  cbv zeta. unfold check_pair.
  rewrite (py_int_nonneg (Qabs _ * 10000)) by
    (apply Qmult_le_0_compat; [apply Qabs_nonneg | discriminate]).
  set (dev := yes + no - 1).
  set (db := Qfloor (Qabs dev * 10000)).
  set (net := (db - py_int (fee_rate d * 2 * 10000))%Z).
  destruct (Qlt_bool 0 dev) eqn:Hp; [apply RiskProofs.Qlt_bool_iff in Hp
                                     | apply RiskProofs.Qlt_bool_false in Hp];
  destruct (Z.leb (min_profit_bps d) net) eqn:Hm;
    [apply Z.leb_le in Hm | apply Z.leb_gt in Hm | apply Z.leb_le in Hm | apply Z.leb_gt in Hm];
  cbn [andb].
  - simpl. rewrite py_min_Qmin. repeat split; auto.
  - destruct (Qlt_bool dev 0) eqn:Hn; [apply RiskProofs.Qlt_bool_iff in Hn; exfalso; lra|].
    cbn [andb]. apply RiskProofs.Qlt_bool_false in Hn.
    destruct (Z.leb SKEW_THRESHOLD_BPS (Z.abs db)) eqn:Hs; simpl;
      [apply Z.leb_le in Hs | apply Z.leb_gt in Hs];
      (assert (0 <= db)%Z by (apply Z.le_trans with (Qfloor 0); [reflexivity|];
         apply Qfloor_resp_le; apply Qmult_le_0_compat; [apply Qabs_nonneg | discriminate]));
      rewrite Z.abs_eq in Hs by assumption; rewrite ?Z.abs_eq by assumption;
      unfold SKEW_THRESHOLD_BPS in Hs;
      repeat split; try lia; try reflexivity; intros [? ?]; try lia; lra.
  - destruct (Qlt_bool dev 0) eqn:Hn; cbn [andb].
    + apply RiskProofs.Qlt_bool_iff in Hn. simpl. rewrite py_min_Qmin.
      repeat split; auto; intros [? ?]; lra.
    + apply RiskProofs.Qlt_bool_false in Hn.
      destruct (Z.leb SKEW_THRESHOLD_BPS (Z.abs db)) eqn:Hs; simpl;
        [apply Z.leb_le in Hs | apply Z.leb_gt in Hs];
        (assert (0 <= db)%Z by (apply Z.le_trans with (Qfloor 0); [reflexivity|];
           apply Qfloor_resp_le; apply Qmult_le_0_compat; [apply Qabs_nonneg | discriminate]));
        rewrite Z.abs_eq in Hs by assumption; rewrite ?Z.abs_eq by assumption;
        unfold SKEW_THRESHOLD_BPS in Hs;
        repeat split; try lia; try reflexivity; intros [? ?]; lra.
  - destruct (Qlt_bool dev 0) eqn:Hn; cbn [andb].
    + apply RiskProofs.Qlt_bool_iff in Hn.
      destruct (Z.leb SKEW_THRESHOLD_BPS (Z.abs db)) eqn:Hs; simpl;
        [apply Z.leb_le in Hs | apply Z.leb_gt in Hs];
        (assert (0 <= db)%Z by (apply Z.le_trans with (Qfloor 0); [reflexivity|];
           apply Qfloor_resp_le; apply Qmult_le_0_compat; [apply Qabs_nonneg | discriminate]));
        rewrite Z.abs_eq in Hs by assumption; rewrite ?Z.abs_eq by assumption;
        unfold SKEW_THRESHOLD_BPS in Hs;
        repeat split; try lia; try reflexivity; intros [? ?]; lia.
    + apply RiskProofs.Qlt_bool_false in Hn.
      destruct (Z.leb SKEW_THRESHOLD_BPS (Z.abs db)) eqn:Hs; simpl;
        [apply Z.leb_le in Hs | apply Z.leb_gt in Hs];
        (assert (0 <= db)%Z by (apply Z.le_trans with (Qfloor 0); [reflexivity|];
           apply Qfloor_resp_le; apply Qmult_le_0_compat; [apply Qabs_nonneg | discriminate]));
        rewrite Z.abs_eq in Hs by assumption; rewrite ?Z.abs_eq by assumption;
        unfold SKEW_THRESHOLD_BPS in Hs;
        repeat split; try lia; try reflexivity; intros [? ?]; try lia; lra.
Qed.

(** C4 counterexample: at fee rate 0.00012, [min_profit_bps = 20],
    [yes = 0.5025] and [no = 0.5], the specified
    [net_bps = 25 - 2 * 0.00012 * 10000 = 22.6], but [check_pair] reports
    SELL_BOTH with profit 23 and confidence 0.23, because the fee cost is
    truncated to 2 basis points. *)
Lemma check_pair_fee_truncated :
  let sg := check_pair (mkDetector (12 # 100000) 20) (5025 # 10000) (1 # 2)
              Samples.pair_sample in
  sig_type sg = SELL_BOTH /\ sig_profit_bps sg = 23%Z /\
  sig_confidence sg == 23 # 100 /\
  ~ (inject_Z (sig_profit_bps sg) == 25 - 2 * (12 # 100000) * 10000).
Proof.
  vm_compute. split; [reflexivity | split; [reflexivity | split; [reflexivity | discriminate]]].
Qed.

End ArbitrageProofs.

Module KellyProofs.
Import Kelly Samples.

Lemma round_half_even_spec (q : Q) :
  Qabs (inject_Z (Dec.round_half_even q) - q) <= 1 # 2 /\
  (Qabs (inject_Z (Dec.round_half_even q) - q) == 1 # 2 ->
   Z.even (Dec.round_half_even q) = true).
Proof.
  unfold Dec.round_half_even.
  pose proof (Qfloor_le q) as L. pose proof (Qlt_floor q) as U.
  rewrite inject_Z_plus in U.
  set (f := Qfloor q) in *.
  destruct (Qlt_bool (q - inject_Z f) (1 # 2)) eqn:H1;
    [apply RiskProofs.Qlt_bool_iff in H1 | apply RiskProofs.Qlt_bool_false in H1].
  - rewrite Qabs_neg by lra. split; [lra | intros E; exfalso; lra].
  - destruct (Qlt_bool (1 # 2) (q - inject_Z f)) eqn:H2;
      [apply RiskProofs.Qlt_bool_iff in H2 | apply RiskProofs.Qlt_bool_false in H2].
    + rewrite inject_Z_plus. rewrite Qabs_pos by (change (inject_Z 1) with 1 in *; lra).
      split; [change (inject_Z 1) with 1 in *; lra | intros E; exfalso; change (inject_Z 1) with 1 in *; lra].
    + destruct (Z.even f) eqn:Ev.
      * rewrite Qabs_neg by lra. split; [lra | intros _; exact Ev].
      * rewrite inject_Z_plus. rewrite Qabs_pos by (change (inject_Z 1) with 1 in *; lra).
        split; [change (inject_Z 1) with 1 in *; lra | intros _].
        rewrite Z.even_add, Ev. reflexivity.
Qed.

Lemma Qlt_bool_comp (a a' b b' : Q) : a == a' -> b == b' -> Qlt_bool a b = Qlt_bool a' b'.
Proof.
  intros Ha Hb. destruct (Qlt_bool a b) eqn:E; symmetry.
  - apply RiskProofs.Qlt_bool_iff in E. apply RiskProofs.Qlt_bool_iff.
    rewrite <- Ha, <- Hb. exact E.
  - apply RiskProofs.Qlt_bool_false in E. apply RiskProofs.Qlt_bool_false.
    rewrite <- Ha, <- Hb. exact E.
Qed.

Lemma rhe_comp (a b : Q) : a == b -> Dec.round_half_even a = Dec.round_half_even b.
Proof.
  intros H. unfold Dec.round_half_even. rewrite (Qfloor_comp a b H).
  rewrite (Qlt_bool_comp (a - inject_Z (Qfloor b)) (b - inject_Z (Qfloor b)) (1 # 2) (1 # 2))
    by (try rewrite H; reflexivity).
  rewrite (Qlt_bool_comp (1 # 2) (1 # 2) (a - inject_Z (Qfloor b)) (b - inject_Z (Qfloor b)))
    by (try rewrite H; reflexivity).
  reflexivity.
Qed.

(** ** Facts about the binary64 rounding [F64.fl] *)

Lemma pow2_pos (e : Z) : 0 < F64.pow2 e.
Proof. apply Qpower_0_lt. reflexivity. Qed.

Lemma pow2_add (x y : Z) : F64.pow2 (x + y) == F64.pow2 x * F64.pow2 y.
Proof. unfold F64.pow2. apply Qpower_plus. discriminate. Qed.

Lemma pow2_lt (x y : Z) : (x < y)%Z -> F64.pow2 x < F64.pow2 y.
Proof. intros H. apply Qpower_lt_compat_l; [exact H | reflexivity]. Qed.

Lemma pow2_lt_inv (x y : Z) : F64.pow2 x < F64.pow2 y -> (x < y)%Z.
Proof. intros H. apply (Qpower_lt_compat_l_inv (2 # 1)); [exact H | reflexivity]. Qed.

Lemma pow2_Z (z : Z) : (0 <= z)%Z -> inject_Z (2 ^ z) == F64.pow2 z.
Proof. intros H. unfold F64.pow2. apply Zpower_Qpower, H. Qed.

Lemma rhe_ge (n : Z) (x : Q) : inject_Z n <= x -> (n <= Dec.round_half_even x)%Z.
Proof.
  intros H. destruct (round_half_even_spec x) as [A _].
  apply Qabs_Qle_condition in A. destruct A as [A1 A2].
  assert (B : inject_Z (n - 1) < inject_Z (Dec.round_half_even x)).
  { assert (inject_Z (n - 1) == inject_Z n - 1) by (unfold Qeq; simpl; lia). lra. }
  rewrite <- Zlt_Qlt in B. lia.
Qed.

Lemma flog2_spec (a : Q) : 0 < a -> F64.pow2 (F64.flog2 a) <= a < F64.pow2 (F64.flog2 a + 1).
Proof.
  intros Ha. destruct a as [n d].
  assert (Hn : (0 < n)%Z) by (unfold Qlt in Ha; simpl in Ha; lia).
  unfold F64.flog2. cbn [Qnum Qden].
  destruct (Z.log2_spec n Hn) as [N1 N2].
  destruct (Z.log2_spec (Zpos d) eq_refl) as [D1 D2].
  pose proof (Z.log2_nonneg n) as Ln. pose proof (Z.log2_nonneg (Zpos d)) as Ld.
  set (ln := Z.log2 n) in *. set (ld := Z.log2 (Zpos d)) in *.
  rewrite <- Z.add_1_r in N2, D2.
  rewrite Zle_Qle in N1, D1. rewrite Zlt_Qlt in N2, D2.
  rewrite !pow2_Z in N1, N2, D1, D2 by lia.
  set (k := (ln - ld)%Z).
  assert (E1 : F64.pow2 ln == F64.pow2 k * F64.pow2 ld)
    by (rewrite <- pow2_add; unfold k; f_equiv; lia).
  assert (E2 : F64.pow2 (ln + 1) == F64.pow2 (k + 1) * F64.pow2 ld)
    by (rewrite <- pow2_add; f_equiv; unfold k; lia).
  assert (E3 : F64.pow2 (ld + 1) == 2 * F64.pow2 ld)
    by (rewrite pow2_add; change (F64.pow2 1) with (2 # 1); ring).
  assert (E4 : F64.pow2 k == 2 * F64.pow2 (k - 1))
    by (replace k with ((k - 1) + 1)%Z at 1 by lia; rewrite pow2_add;
        change (F64.pow2 1) with (2 # 1); ring).
  assert (E5 : F64.pow2 (k + 1) == 2 * F64.pow2 k)
    by (rewrite pow2_add; change (F64.pow2 1) with (2 # 1); ring).
  pose proof (pow2_pos ld). pose proof (pow2_pos (k - 1)).
  pose proof (Qmake_Qdiv n d) as Eq.
  set (A := inject_Z n) in *. set (D := inject_Z (Zpos d)) in *.
  assert (HD : 0 < D) by (unfold D, Qlt; simpl; lia).
  assert (L : F64.pow2 (k - 1) < A / D).
  { apply Qlt_shift_div_l; [exact HD|]. nra. }
  assert (U : A / D < F64.pow2 (k + 1)).
  { apply Qlt_shift_div_r; [exact HD|]. nra. }
  destruct (Qlt_bool (n # d) (F64.pow2 k)) eqn:C;
    [apply RiskProofs.Qlt_bool_iff in C | apply RiskProofs.Qlt_bool_false in C]; rewrite Eq in *.
  - replace (k - 1 + 1)%Z with k by lia. split; lra.
  - split; lra.
Qed.

Lemma flog2_le (a b : Q) : 0 < a -> a <= b -> (F64.flog2 a <= F64.flog2 b)%Z.
Proof.
  intros Ha Hab. destruct (flog2_spec a Ha) as [A1 _].
  destruct (flog2_spec b ltac:(lra)) as [_ B2].
  assert (F64.pow2 (F64.flog2 a) < F64.pow2 (F64.flog2 b + 1)) as H by lra.
  apply pow2_lt_inv in H. lia.
Qed.

Lemma flog2_comp (a b : Q) : 0 < a -> a == b -> F64.flog2 a = F64.flog2 b.
Proof.
  intros Ha H. assert (Hb : 0 < b) by (rewrite <- H; exact Ha).
  apply Z.le_antisymm; apply flog2_le; lra.
Qed.

Lemma fl_zero (q : Q) : q == 0 -> F64.fl q = 0.
Proof. intros H. unfold F64.fl. rewrite (proj2 (Qeq_bool_iff q 0) H). reflexivity. Qed.

Lemma Qabs_pos_lt (q : Q) : ~ q == 0 -> 0 < Qabs q.
Proof.
  intros H. destruct (Qlt_le_dec 0 q) as [P|P].
  - rewrite Qabs_pos by lra. exact P.
  - rewrite Qabs_neg by exact P. destruct (Qle_lt_or_eq _ _ P) as [N|N]; [lra|contradiction].
Qed.

(** [F64.fl] depends only on the value of its argument. *)
Lemma fl_comp (a b : Q) : a == b -> F64.fl a = F64.fl b.
Proof.
  intros H. unfold F64.fl.
  destruct (Qeq_bool a 0) eqn:E.
  - apply Qeq_bool_iff in E.
    rewrite (proj2 (Qeq_bool_iff b 0)) by (rewrite <- H; exact E). reflexivity.
  - assert (E' : Qeq_bool b 0 = false).
    { apply Bool.not_true_iff_false. intros E'. apply Qeq_bool_iff in E'.
      rewrite <- H in E'. apply Qeq_bool_iff in E'. congruence. }
    rewrite E'. apply Qeq_bool_neq in E.
    assert (HA : Qabs a == Qabs b) by (rewrite H; reflexivity).
    rewrite (flog2_comp (Qabs a) (Qabs b) (Qabs_pos_lt a E) HA).
    set (u := F64.pow2 (Z.max (F64.flog2 (Qabs b)) (-1022) - 52)).
    rewrite (rhe_comp (Qabs a / u) (Qabs b / u)) by (rewrite HA; reflexivity).
    rewrite (Qlt_bool_comp a b 0 0 H (Qeq_refl 0)). reflexivity.
Qed.

Lemma Qabs_pos_eq (q : Q) : 0 < q -> Qabs q = q.
Proof.
  destruct q as [n d]. intros H. unfold Qlt in H; simpl in H.
  unfold Qabs. rewrite Z.abs_eq by lia. reflexivity.
Qed.

Lemma fl_pos (q : Q) : 0 < q ->
  F64.fl q = inject_Z (Dec.round_half_even (q / F64.pow2 (Z.max (F64.flog2 q) (-1022) - 52)))
             * F64.pow2 (Z.max (F64.flog2 q) (-1022) - 52).
Proof.
  intros H. unfold F64.fl.
  destruct (Qeq_bool q 0) eqn:E; [apply Qeq_bool_iff in E; lra|].
  rewrite (Qabs_pos_eq q H).
  destruct (Qlt_bool q 0) eqn:C; [apply RiskProofs.Qlt_bool_iff in C; lra|]. reflexivity.
Qed.

Lemma fl_neg (q : Q) : q < 0 ->
  F64.fl q =
  - (inject_Z (Dec.round_half_even (Qabs q / F64.pow2 (Z.max (F64.flog2 (Qabs q)) (-1022) - 52)))
     * F64.pow2 (Z.max (F64.flog2 (Qabs q)) (-1022) - 52)).
Proof.
  intros H. unfold F64.fl.
  destruct (Qeq_bool q 0) eqn:E; [apply Qeq_bool_iff in E; lra|].
  destruct (Qlt_bool q 0) eqn:C; [reflexivity | apply RiskProofs.Qlt_bool_false in C; lra].
Qed.

Lemma rhe_mult_nonneg (x u : Q) :
  0 <= x -> 0 < u -> 0 <= inject_Z (Dec.round_half_even (x / u)) * u.
Proof.
  intros Hx Hu. apply Qmult_le_0_compat; [|lra].
  assert (0 <= Dec.round_half_even (x / u))%Z as H.
  { apply rhe_ge. change (inject_Z 0) with 0. apply Qle_shift_div_l; lra. }
  change 0 with (inject_Z 0). rewrite <- Zle_Qle. exact H.
Qed.

(** Rounding keeps the sign. *)
Lemma fl_nonneg (q : Q) : 0 <= q -> 0 <= F64.fl q.
Proof.
  intros H. destruct (Qeq_bool q 0) eqn:E.
  - apply Qeq_bool_iff in E. rewrite fl_zero by exact E. lra.
  - assert (Hp : 0 < q).
    { apply Qle_lt_or_eq in H. destruct H as [H|H]; [exact H|].
      exfalso. apply Qeq_bool_neq in E. apply E. symmetry. exact H. }
    rewrite fl_pos by exact Hp. apply rhe_mult_nonneg; [lra | apply pow2_pos].
Qed.

Lemma fl_nonpos (q : Q) : q <= 0 -> F64.fl q <= 0.
Proof.
  intros H. destruct (Qeq_bool q 0) eqn:E.
  - apply Qeq_bool_iff in E. rewrite fl_zero by exact E. lra.
  - assert (Hp : q < 0).
    { apply Qle_lt_or_eq in H. destruct H as [H|H]; [exact H|].
      exfalso. apply Qeq_bool_neq in E. apply E. exact H. }
    rewrite fl_neg by exact Hp.
    assert (H0 : 0 <= Qabs q) by apply Qabs_nonneg.
    pose proof (rhe_mult_nonneg (Qabs q) (F64.pow2 (Z.max (F64.flog2 (Qabs q)) (-1022) - 52))
                  H0 (pow2_pos _)).
    lra.
Qed.

(** Rounding to nearest never goes below a positive double that is below
    its argument. *)
Lemma fl_ge (d a : Q) : F64.is_double d = true -> 0 < d -> d <= a -> d <= F64.fl a.
Proof.
  intros Hd Hd0 Hda. unfold F64.is_double in Hd. apply Qeq_bool_iff in Hd.
  rewrite fl_pos in Hd by exact Hd0. rewrite fl_pos by lra.
  assert (Hle : (F64.flog2 d <= F64.flog2 a)%Z) by (apply flog2_le; lra).
  set (ed := Z.max (F64.flog2 d) (-1022)) in *. set (ea := Z.max (F64.flog2 a) (-1022)).
  destruct (Z.eq_dec ea ed) as [Ee|Ne].
  - rewrite Ee. set (u := F64.pow2 (ed - 52)) in *. pose proof (pow2_pos (ed - 52)) as Hu.
    fold u in Hu.
    set (j := Dec.round_half_even (d / u)) in *.
    assert (J : inject_Z j <= a / u).
    { apply Qle_shift_div_l; [exact Hu|]. rewrite Hd. exact Hda. }
    apply rhe_ge in J. rewrite Zle_Qle in J.
    rewrite <- Hd. apply Qmult_le_r; [exact Hu | exact J].
  - assert (Hea : ea = F64.flog2 a) by (unfold ea, ed in *; lia).
    assert (Hlt : (F64.flog2 d < F64.flog2 a)%Z) by (unfold ea, ed in *; lia).
    destruct (flog2_spec a ltac:(lra)) as [A1 _].
    destruct (flog2_spec d Hd0) as [_ D2].
    assert (P : F64.pow2 (F64.flog2 d + 1) <= F64.pow2 (F64.flog2 a)).
    { destruct (Z.eq_dec (F64.flog2 d + 1)%Z (F64.flog2 a)) as [E|E]; [rewrite E; lra|].
      apply Qlt_le_weak, pow2_lt. lia. }
    rewrite Hea. set (u := F64.pow2 (F64.flog2 a - 52)).
    pose proof (pow2_pos (F64.flog2 a - 52)) as Hu. fold u in Hu.
    assert (Eu : F64.pow2 (F64.flog2 a) == inject_Z (2 ^ 52) * u).
    { unfold u. rewrite pow2_Z by lia. rewrite <- pow2_add. f_equiv. lia. }
    assert (J : inject_Z (2 ^ 52) <= a / u).
    { apply Qle_shift_div_l; [exact Hu|]. rewrite <- Eu. exact A1. }
    apply rhe_ge in J. rewrite Zle_Qle in J.
    assert (inject_Z (2 ^ 52) * u <= inject_Z (Dec.round_half_even (a / u)) * u)
      by (apply Qmult_le_r; [exact Hu | exact J]).
    lra.
Qed.

(** The result of [calculate] lies in [[0, max_position_pct]]. *)
Lemma calculate_range (k : KellyCalculator) (w b : Q) :
  0 <= fraction k -> 0 <= max_position_pct k ->
  0 <= calculate k w b <= max_position_pct k.
Proof.
  intros Hf Hm. unfold calculate.
  destruct (Qle_bool w 0 || Qle_bool 1 w); [lra|].
  destruct (Qle_bool b 0); [lra|].
  cbv zeta. set (fs := F64.fl (F64.fl (F64.fl (w * b) - F64.fl (1 - w)) / b)).
  destruct (Qle_bool fs 0) eqn:E; [lra|].
  assert (0 < fs) by (apply RiskProofs.Qlt_bool_iff; unfold Qlt_bool; rewrite E; reflexivity).
  unfold py_min. destruct (Qlt_bool (max_position_pct k) (F64.fl (fs * fraction k))) eqn:E2.
  - lra.
  - apply RiskProofs.Qlt_bool_false in E2. split; [|exact E2].
    apply fl_nonneg, Qmult_le_0_compat; lra.
Qed.

(** C5 (amended): when the bankroll is set, [fraction >= 0],
    [max_position_pct >= 0] and [price > 0], the Kelly fraction lies in
    [[0, max_position_pct]]; for [0 < win_rate < 1] and
    [win_loss_ratio > 0] it is
    [applied = min(fl(max(0, f_star) * fraction), max_position_pct)] where
    [f_star = fl(fl(fl(p*b) - fl(1-p)) / b)] is the formula evaluated in
    binary64 floating point ([fl] rounds each operation to the nearest
    double), and outside that range it is 0; when [applied <= 0] the size
    is 0; otherwise the size is the integer NEAREST to the Decimal
    quotient [x = (bankroll * Decimal(str(applied))) / price] (each product
    and quotient rounded to 28 significant digits), ties going to the even
    integer, so it may exceed the quotient by up to one half; the only
    failure is [InvalidOperation] when that integer needs more than 28
    digits. *)
Theorem get_position_size_rounding (k : KellyCalculator) (w b price br : Q)
  (Hbr : bankroll k = Some br) (Hf : 0 <= fraction k) (Hm : 0 <= max_position_pct k)
  (Hp : 0 < price) :
  0 <= calculate k w b <= max_position_pct k /\
  ((0 < w /\ w < 1 /\ 0 < b) ->
   calculate k w b ==
   Qmin (F64.fl (Qmax 0 (F64.fl (F64.fl (F64.fl (w * b) - F64.fl (1 - w)) / b)) * fraction k))
        (max_position_pct k)) /\
  ((w <= 0 \/ 1 <= w \/ b <= 0) -> calculate k w b = 0) /\
  (calculate k w b <= 0 -> get_position_size k w b price = inl 0%Z) /\
  (0 < calculate k w b ->
   let x := Dec.round_ctx (Dec.mul br (F64.float_repr (calculate k w b)) / price) in
   match get_position_size k w b price with
   | inl n => Qabs (inject_Z n - x) <= 1 # 2 /\
              (Qabs (inject_Z n - x) == 1 # 2 -> Z.even n = true)
   | inr e => e = Dec.InvalidOperation /\ (10 ^ Dec.PREC <= Z.abs (Dec.round_half_even x))%Z
   end).
Proof.
  split; [|split; [|split; [|split]]].
  - apply calculate_range; assumption.
  - intros (H0 & H1 & H2). unfold calculate.
    destruct (Qle_bool w 0) eqn:E1; [apply Qle_bool_iff in E1; exfalso; lra|].
    destruct (Qle_bool 1 w) eqn:E2; [apply Qle_bool_iff in E2; exfalso; lra|].
    destruct (Qle_bool b 0) eqn:E3; [apply Qle_bool_iff in E3; exfalso; lra|].
    cbn [orb]. cbv zeta. set (fs := F64.fl (F64.fl (F64.fl (w * b) - F64.fl (1 - w)) / b)).
    destruct (Qle_bool fs 0) eqn:E4.
    + apply Qle_bool_iff in E4.
      rewrite (fl_zero (Qmax 0 fs * fraction k)) by (rewrite Q.max_l by exact E4; ring).
      rewrite Q.min_l by exact Hm. reflexivity.
    + assert (0 < fs) as Hfs.
      { apply Qnot_le_lt. intros C. apply Qle_bool_iff in C. congruence. }
      rewrite (fl_comp (Qmax 0 fs * fraction k) (fs * fraction k))
        by (rewrite Q.max_r by lra; reflexivity).
      rewrite ArbitrageProofs.py_min_Qmin. reflexivity.
  - intros H. unfold calculate.
    destruct H as [H|[H|H]].
    + apply Qle_bool_iff in H. now rewrite H.
    + apply Qle_bool_iff in H. rewrite H. now rewrite orb_true_r.
    + apply Qle_bool_iff in H. rewrite H. now destruct (_ || _).
  - intros H. unfold get_position_size. rewrite Hbr.
    apply Qle_bool_iff in H. now rewrite H.
  - intros H. cbv zeta. unfold get_position_size. rewrite Hbr.
    destruct (Qle_bool (calculate k w b) 0) eqn:E;
      [apply Qle_bool_iff in E; exfalso; lra|].
    unfold Dec.div.
    destruct (Qeq_bool price 0) eqn:E0; [apply Qeq_bool_iff in E0; exfalso; lra|].
    unfold Dec.quantize1.
    set (x := Dec.round_ctx (Dec.mul br (F64.float_repr (calculate k w b)) / price)).
    destruct (Z.leb (10 ^ Dec.PREC) (Z.abs (Dec.round_half_even x))) eqn:E5.
    + split; [reflexivity | now apply Z.leb_le].
    + apply round_half_even_spec.
Qed.

Lemma get_position_size_rounding_witness :
  bankroll k_sample = Some 10000 /\ 0 <= fraction k_sample /\ 0 <= max_position_pct k_sample /\
  0 < 7 # 10 /\ 0 < calculate k_sample (F64.fl (9 # 10)) 1 /\
  (let x := Dec.round_ctx (Dec.mul 10000 (F64.float_repr (calculate k_sample (F64.fl (9 # 10)) 1))
                             / (7 # 10)) in
   match get_position_size k_sample (F64.fl (9 # 10)) 1 (7 # 10) with
   | inl n => Qabs (inject_Z n - x) <= 1 # 2 /\
              (Qabs (inject_Z n - x) == 1 # 2 -> Z.even n = true)
   | inr e => e = Dec.InvalidOperation /\ (10 ^ Dec.PREC <= Z.abs (Dec.round_half_even x))%Z
   end).
Proof.
  assert (H1 : bankroll k_sample = Some 10000) by reflexivity.
  assert (H2 : 0 <= fraction k_sample) by (vm_compute; discriminate).
  assert (H3 : 0 <= max_position_pct k_sample) by (vm_compute; discriminate).
  assert (H4 : 0 < 7 # 10) by (vm_compute; reflexivity).
  assert (H : 0 < calculate k_sample (F64.fl (9 # 10)) 1) by (vm_compute; reflexivity).
  split; [exact H1|]. split; [exact H2|]. split; [exact H3|]. split; [exact H4|].
  split; [exact H|].
  exact (proj2 (proj2 (proj2 (proj2
    (get_position_size_rounding k_sample (F64.fl (9 # 10)) 1 (7 # 10) 10000 H1 H2 H3 H4)))) H).
Defined.

(** C5 counterexample: with [fraction = 0.25], [max_position_pct = 0.10],
    bankroll 10000, [win_rate = 0.9], [win_loss_ratio = 1] and
    [price = 0.7], the applied fraction of the formula is 0.10 (its
    double) and the exact quotient is [1000.00000000000005... / 0.7 =
    1428.57...], yet [get_position_size] returns 1429 contracts: the
    quotient is rounded half-even, not down, and the result exceeds the
    exact quotient. *)
Lemma get_position_size_rounds_up :
  get_position_size k_sample (F64.fl (9 # 10)) 1 (7 # 10) = inl 1429%Z /\
  10000 * Qmin (Qmax 0 ((F64.fl (9 # 10) * 1 - (1 - F64.fl (9 # 10))) / 1) * fraction k_sample)
               (max_position_pct k_sample) / (7 # 10) < inject_Z 1429.
Proof.
  split; vm_compute; reflexivity.
Qed.

End KellyProofs.

Module CorrelationProofs.
Import Correlation CorrelationSpec Samples.

(** C6 (code bug): [can_add_position] adds the SIGNED sizes of the
    correlated markets, not their absolute values, so a short position
    offsets the new exposure.  With limit 500, threshold 0.5,
    [corr(a, b) = 0.9] and an existing short of 600 in [b], adding 100 to
    [a] is allowed by the code (net exposure [-600 + 100 = -500 <= 500])
    while the rule with absolute sizes ([600 + 100 = 700 > 500]) refuses
    it. *)
Theorem can_add_position_nets_short_positions :
  get_correlation pr_sample "a" "b" = 9 # 10 /\
  can_add_position pr_sample "a" 100 [("b", -600)] = true /\
  can_add_position_abs pr_sample "a" 100 [("b", -600)] = false.
Proof.
  split; [|split]; vm_compute; reflexivity.
Qed.

End CorrelationProofs.

Module VolatilityProofs.
Import Volatility.
Local Open Scope R_scope.

Lemma update_config (vt : VolatilityTracker) (now price : R) :
  let vt' := snd (update vt now price) in
  mult_min vt' = mult_min vt /\ mult_max vt' = mult_max vt /\
  min_samples vt' = min_samples vt.
Proof.
  unfold update.
  destruct (Rle_dec price 0); [simpl; auto|].
  destruct (Rlt_dec _ _); [simpl; auto|].
  destruct (Nat.leb _ _); simpl; auto.
Qed.

Lemma run_config (calls : list (R * R)) : forall vt : VolatilityTracker,
  mult_min (run vt calls) = mult_min vt /\ mult_max (run vt calls) = mult_max vt /\
  min_samples (run vt calls) = min_samples vt.
Proof.
  induction calls as [|[now price] rest IH]; intros vt; simpl; [auto|].
  destruct (IH (snd (update vt now price))) as (E1 & E2 & E3).
  destruct (update_config vt now price) as (F1 & F2 & F3).
  rewrite E1, E2, E3, F1, F2, F3. auto.
Qed.

Lemma get_multiplier_bounds (vt : VolatilityTracker) :
  mult_min vt <= 1 -> 3 / 2 <= mult_max vt ->
  (min_samples vt <= length (samples vt))%nat ->
  mult_min vt <= get_multiplier vt <= mult_max vt.
Proof.
  intros Hmin Hmax Hn. unfold get_multiplier.
  destruct (Nat.ltb_spec (length (samples vt)) (min_samples vt)); [lia|].
  unfold VOL_LOW, VOL_NORMAL, VOL_HIGH.
  set (vol := realized_vol vt).
  destruct (Rlt_dec vol (5 / 100)); [lra|].
  destruct (Rlt_dec vol (15 / 100)).
  - replace ((vol - 5 / 100) / (15 / 100 - 5 / 100)) with ((vol - 5 / 100) * 10) by field.
    split; nra.
  - destruct (Rlt_dec vol (30 / 100)).
    + replace ((vol - 15 / 100) / (30 / 100 - 15 / 100)) with ((vol - 15 / 100) * (20 / 3))
        by field.
      split; nra.
    + unfold py_min_R.
      replace ((vol - 30 / 100) / (20 / 100)) with ((vol - 30 / 100) * 5) by field.
      destruct (Rlt_dec ((vol - 30 / 100) * 5) 1); split; nra.
Qed.

(** C8 (amended): for every tracker built by the constructor with
    [mult_min <= 1] and [mult_max >= 1.5] (the default 0.7 and 2.0
    satisfy this), and every sequence of [update] calls: if the number of
    retained samples is at least [min_samples] then [get_multiplier()]
    lies in [[mult_min, mult_max]]; otherwise it is exactly 1.0. *)
Theorem get_multiplier_in_range (tok : string) (si ws : R) (ms : nat) (mmin mmax : R)
  (calls : list (R * R)) (Hmin : mmin <= 1) (Hmax : 3 / 2 <= mmax) :
  let st := run (init tok si ws ms mmin mmax) calls in
  ((ms <= length (samples st))%nat -> mmin <= get_multiplier st <= mmax) /\
  ((length (samples st) < ms)%nat -> get_multiplier st = 1).
Proof.
  cbv zeta.
  destruct (run_config calls (init tok si ws ms mmin mmax)) as (E1 & E2 & E3).
  simpl in E1, E2, E3.
  remember (run (init tok si ws ms mmin mmax) calls) as st eqn:Hst. clear Hst.
  split.
  - intros H. rewrite <- E1, <- E2. apply get_multiplier_bounds; [lra | lra | lia].
  - intros H. unfold get_multiplier. rewrite E3.
    destruct (Nat.ltb_spec (length (samples st)) ms); [reflexivity | lia].
Qed.

Ltac decide_R := repeat match goal with
  | |- context [Rle_dec ?x ?y] =>
      destruct (Rle_dec x y); [try (exfalso; lra) | try (exfalso; lra)]
  | |- context [Rlt_dec ?x ?y] =>
      destruct (Rlt_dec x y); [try (exfalso; lra) | try (exfalso; lra)]
  end.

Lemma vt_sample_eq (a b : R) :
  Samples.vt_sample a b = mkVT "tok" 5 1800 3 a b 370 [] 0 None 0.
Proof.
  unfold Samples.vt_sample, init, py_int_R.
  destruct (Rle_dec 0 (1800 / 5)); [|lra].
  rewrite <- (Int_part_spec (1800 / 5) 360) by lra. reflexivity.
Qed.

Lemma ln_sample_bounds : 1 / 20001 < ln (20001 / 20000) < 1 / 20000.
Proof.
  split.
  - assert (H : ln (20000 / 20001) < - (1 / 20001)).
    { rewrite <- (ln_exp (- (1 / 20001))).
      apply ln_increasing; [lra|].
      replace (20000 / 20001) with (1 + - (1 / 20001)) by field.
      apply exp_ineq1. lra. }
    replace (20000 / 20001) with (/ (20001 / 20000)) in H by field.
    rewrite ln_Rinv in H by lra. lra.
  - rewrite <- (ln_exp (1 / 20000)).
    apply ln_increasing; [lra|].
    replace (20001 / 20000) with (1 + 1 / 20000) by field.
    apply exp_ineq1. lra.
Qed.

Lemma vol_sample_value (a b : R) :
  calculate_volatility (mkVT "tok" 5 1800 3 a b 370
     [(5, 1/2); (10, 20001/40000); (15, 1/2)] 15 (Some (1/2)) 0) =
  sqrt (12614400 * (ln (20001 / 20000) * ln (20001 / 20000))).
Proof.
  unfold calculate_volatility.
  cbn [samples sample_interval Datatypes.length Nat.ltb Nat.leb log_returns].
  decide_R. cbn [Datatypes.length Nat.ltb Nat.leb sumR map fold_left].
  replace (20001 / 40000 / (1 / 2)) with (20001 / 20000) by field.
  replace (1 / 2 / (20001 / 40000)) with (/ (20001 / 20000)) by field.
  rewrite ln_Rinv by lra.
  set (L := ln (20001 / 20000)).
  replace (INR 2) with 2 by (simpl; lra).
  replace (((0 + (L - (0 + L + - L) / 2) ^ 2 + (- L - (0 + L + - L) / 2) ^ 2)) / (2 - 1))
    with (2 * (L * L)) by field.
  rewrite <- sqrt_mult by nra.
  f_equal. field.
Qed.

#[local] Arguments calculate_volatility : simpl never.

Lemma run_sample (a b : R) :
  run (Samples.vt_sample a b) Samples.vol_calls =
  mkVT "tok" 5 1800 3 a b 370 [(5, 1/2); (10, 20001/40000); (15, 1/2)] 15 (Some (1/2))
    (calculate_volatility (mkVT "tok" 5 1800 3 a b 370
       [(5, 1/2); (10, 20001/40000); (15, 1/2)] 15 (Some (1/2)) 0)).
Proof.
  rewrite vt_sample_eq. unfold Samples.vol_calls. simpl run.
  unfold update at 3. simpl. decide_R. simpl.
  unfold update at 2. simpl. decide_R. simpl.
  unfold update. simpl. decide_R. simpl.
  reflexivity.
Qed.

Lemma vol_sample_bounds :
  33 / 200 < sqrt (12614400 * (ln (20001 / 20000) * ln (20001 / 20000))) < 21 / 100.
Proof.
  destruct ln_sample_bounds as [L1 L2].
  set (L := ln (20001 / 20000)) in *.
  assert (1 / 20001 * (1 / 20001) < L * L) by nra.
  assert (L * L < 1 / 20000 * (1 / 20000)) by nra.
  split.
  - rewrite <- (sqrt_square (33 / 200)) at 1 by lra.
    apply sqrt_lt_1; nra.
  - rewrite <- (sqrt_square (21 / 100)) by lra.
    apply sqrt_lt_1; nra.
Qed.

Lemma get_multiplier_in_range_witness :
  7 / 10 <= 1 /\ 3 / 2 <= 2 /\
  (3 <= length (samples (run (init "tok" 5 1800 3 (7 / 10) 2) Samples.vol_calls)))%nat /\
  7 / 10 <= get_multiplier (run (init "tok" 5 1800 3 (7 / 10) 2) Samples.vol_calls) <= 2.
Proof.
  assert (H1 : 7 / 10 <= 1) by lra. assert (H2 : 3 / 2 <= 2) by lra.
  assert (HL : (3 <= length (samples (run (init "tok" 5 1800 3 (7 / 10) 2) Samples.vol_calls)))%nat).
  { change (init "tok" 5 1800 3 (7 / 10) 2) with (Samples.vt_sample (7 / 10) 2).
    rewrite run_sample. simpl. lia. }
  split; [exact H1|]. split; [exact H2|]. split; [exact HL|].
  exact (proj1 (get_multiplier_in_range "tok" 5 1800 3 (7 / 10) 2 Samples.vol_calls H1 H2) HL).
Defined.

(** C8 counterexample: the bound fails for configurations outside
    [mult_min <= 1 <= 1.5 <= mult_max].  Sampling prices 0.5, 0.50005, 0.5
    every 5 s gives an annualised volatility of about 0.1775, in the
    15%-30% band, where [get_multiplier] is about 1.09 whatever the
    configuration: with [mult_min = 1.2, mult_max = 2.0] it is below
    [mult_min], and with [mult_min = 0.7, mult_max = 1.05] it is above
    [mult_max], although 3 >= [min_samples] samples are retained. *)
Lemma get_multiplier_out_of_range :
  let st1 := run (Samples.vt_sample (6 / 5) 2) Samples.vol_calls in
  let st2 := run (Samples.vt_sample (7 / 10) (21 / 20)) Samples.vol_calls in
  (min_samples st1 <= Datatypes.length (samples st1))%nat /\ get_multiplier st1 < mult_min st1 /\
  (min_samples st2 <= Datatypes.length (samples st2))%nat /\ mult_max st2 < get_multiplier st2.
Proof.
  cbv zeta. rewrite !run_sample. unfold get_multiplier.
  cbn [samples min_samples realized_vol mult_min mult_max Datatypes.length Nat.ltb Nat.leb].
  rewrite !vol_sample_value.
  pose proof vol_sample_bounds as HB.
  set (V := sqrt _) in *.
  unfold VOL_LOW, VOL_NORMAL, VOL_HIGH.
  decide_R.
  split; [lia | split; [lra | split; [lia | lra]]].
Qed.

End VolatilityProofs.

Module SimulatorExtra.
Import Models Simulator SimulatorView SimulatorProofs.

Lemma orders_get_set_eq (os : list (string * Order)) (k : string) (v : Order) :
  orders_get (orders_set os k v) k = Some v.
Proof.
  induction os as [|[k' o] rest IH]; simpl.
  - now rewrite String.eqb_refl.
  - destruct (String.eqb_spec k' k) as [->|Hne]; simpl.
    + now rewrite String.eqb_refl.
    + destruct (String.eqb_spec k' k); [contradiction|exact IH].
Qed.

Lemma orders_get_set_ne (os : list (string * Order)) (k j : string) (v : Order) :
  j <> k -> orders_get (orders_set os k v) j = orders_get os j.
Proof.
  intros Hjk. induction os as [|[k' o] rest IH]; simpl.
  - destruct (String.eqb_spec k j); [congruence|reflexivity].
  - destruct (String.eqb_spec k' k) as [->|Hne]; simpl.
    + destruct (String.eqb_spec k j); [congruence|reflexivity].
    + destruct (String.eqb k' j); [reflexivity|exact IH].
Qed.

Lemma orders_set_fresh (os : list (string * Order)) (k : string) (v : Order) :
  orders_get os k = None -> orders_set os k v = os ++ [(k, v)].
Proof.
  induction os as [|[k' o] rest IH]; simpl; [reflexivity|].
  destruct (String.eqb k' k); [discriminate|]. intros H. now rewrite IH.
Qed.

(** Extra: [create_order] stores a LIVE, unfilled, simulated order under
    its generated id ["sim_" ++ hex]; [get_order] returns it, the other ids
    keep their orders, trades and positions are untouched, and when no
    order has that id yet (the generated ids are fresh) the order is the
    last of [get_open_orders(token_id)]. *)
Theorem create_order_spec (s : Sim) (hex token_id : string) (side : OrderSide)
  (price size : Q) (created_at : string) :
  let '(o, s') := create_order s hex token_id side price size created_at in
  o_id o = ("sim_" ++ hex)%string /\
  get_order s' (o_id o) = Some o /\
  is_live o = true /\ is_filled o = false /\ remaining o == size /\
  (forall j, j <> o_id o -> get_order s' j = get_order s j) /\
  trades s' = trades s /\ positions s' = positions s /\
  (get_order s (o_id o) = None ->
   get_open_orders s' (Some token_id) = get_open_orders s (Some token_id) ++ [o]).
Proof.
  cbn [create_order]. unfold get_order. cbn [orders trades positions o_id].
  split; [reflexivity|]. split; [apply orders_get_set_eq|].
  split; [reflexivity|]. split; [reflexivity|].
  split; [unfold remaining; simpl; ring|].
  split; [intros j Hj; now apply orders_get_set_ne|].
  split; [reflexivity|]. split; [reflexivity|].
  intros Hfresh. rewrite orders_set_fresh by exact Hfresh.
  unfold get_open_orders. cbn [orders]. unfold token_filter.
  rewrite map_app, List.filter_app. simpl.
  destruct (String.eqb token_id ""); [reflexivity|].
  rewrite List.filter_app. simpl. now rewrite String.eqb_refl.
Qed.

Lemma create_order_spec_witness :
  get_order Samples.sim_one "sim_bbb" = None /\
  get_open_orders Samples.sim_one (Some "tokA"%string) <> [] /\
  (let '(o, s') := create_order Samples.sim_one "bbb" "tokA" SELL (3 # 5) 4 "t1" in
   o_id o = ("sim_" ++ "bbb")%string /\
   get_order s' (o_id o) = Some o /\
   is_live o = true /\ is_filled o = false /\ remaining o == 4 /\
   (forall j, j <> o_id o -> get_order s' j = get_order Samples.sim_one j) /\
   trades s' = trades Samples.sim_one /\ positions s' = positions Samples.sim_one /\
   (get_order Samples.sim_one (o_id o) = None ->
    get_open_orders s' (Some "tokA"%string) =
    get_open_orders Samples.sim_one (Some "tokA"%string) ++ [o])).
Proof.
  split; [reflexivity|]. split; [discriminate|].
  exact (create_order_spec Samples.sim_one "bbb" "tokA" SELL (3 # 5) 4 "t1").
Defined.

Lemma cancel_all_loop_spec (t : option string) (os : list (string * Order)) :
  let sel := fun o => is_live o && match token_filter t with
                                   | Some x => String.eqb (o_token_id o) x
                                   | None => true
                                   end in
  cancel_all_loop t os =
    (map (fun ko => (fst ko, if sel (snd ko) then set_status (snd ko) CANCELLED else snd ko)) os,
     Z.of_nat (length (List.filter sel (map snd os)))).
Proof.
  cbv zeta. induction os as [|[k o] rest IH]; [reflexivity|].
  cbn [cancel_all_loop map fst snd List.filter]. rewrite IH.
  destruct (is_live o); cbn [negb andb]; [|reflexivity].
  destruct (token_filter t) as [x|].
  - destruct (String.eqb (o_token_id o) x); cbn [negb length]; [|reflexivity].
    f_equal. lia.
  - cbn [length]. f_equal. lia.
Qed.

Lemma get_open_orders_filter (s : Sim) (t : option string) :
  get_open_orders s t =
  List.filter (fun o => is_live o && match token_filter t with
                                     | Some x => String.eqb (o_token_id o) x
                                     | None => true
                                     end) (map snd (orders s)).
Proof.
  unfold get_open_orders. induction (map snd (orders s)) as [|o l IH]; [destruct (token_filter t); reflexivity|].
  destruct (token_filter t) as [x|]; simpl.
  - destruct (is_live o); simpl; [destruct (String.eqb (o_token_id o) x); simpl|]; now rewrite IH.
  - destruct (is_live o); simpl; now rewrite IH.
Qed.

(** Extra: [cancel_all(token_id)] cancels exactly the LIVE orders of the
    token ([None] or the empty string select every token), returns how many
    it cancelled, which is the number of [get_open_orders(token_id)] before
    the call, and leaves no open order for that selection; the ids keep
    their order, the other orders, the trades and the positions are
    unchanged. *)
Theorem cancel_all_spec (s : Sim) (t : option string) :
  let sel := fun o => is_live o && match token_filter t with
                                   | Some x => String.eqb (o_token_id o) x
                                   | None => true
                                   end in
  let '(n, s') := cancel_all s t in
  n = Z.of_nat (length (get_open_orders s t)) /\
  get_open_orders s' t = [] /\
  orders s' = map (fun ko => (fst ko, if sel (snd ko) then set_status (snd ko) CANCELLED
                                      else snd ko)) (orders s) /\
  trades s' = trades s /\ positions s' = positions s.
Proof.
  cbv zeta. unfold cancel_all. rewrite cancel_all_loop_spec.
  cbn [orders trades positions]. rewrite get_open_orders_filter.
  split; [reflexivity|]. split; [|auto].
  rewrite get_open_orders_filter. cbn [orders].
  induction (orders s) as [|[k o] rest IH]; [reflexivity|].
  cbn [map fst snd List.filter].
  destruct (is_live o && _) eqn:E; cbn [is_live set_status o_status OrderStatus_eqb andb];
    [exact IH|]. rewrite E. exact IH.
Qed.

Lemma check_fills_loop_nofill (fee_rate : Q) (t : string) (bid ask : Q) :
  forall (os : list (string * Order)) (acc : FillAcc),
  (forall ko, In ko os -> fills t bid ask (snd ko) = false) ->
  check_fills_loop fee_rate t bid ask os acc = (os, acc).
Proof.
  induction os as [|[k o] rest IH]; intros acc H; [reflexivity|].
  cbn [check_fills_loop].
  assert (Fo : fills t bid ask o = false) by (apply (H (k, o)); left; reflexivity).
  rewrite fills_eq in Fo.
  rewrite IH by (intros ko Hin; apply H; right; exact Hin).
  destruct (is_live o), (String.eqb (o_token_id o) t), (should_fill bid ask o);
    simpl in Fo |- *; congruence.
Qed.

(** Extra: after [check_fills(token_id, bid, ask)] no LIVE order on the
    token still crosses the prices; every order it matched now has nothing
    remaining and reports [is_filled]; and calling [check_fills] again
    with the same prices fills nothing and changes nothing. *)
Theorem check_fills_settles (fee_rate : Q) (t : string) (bid ask : Q) (s : Sim) :
  let '(n, s') := check_fills fee_rate t bid ask s in
  (forall k o, In (k, o) (orders s') -> is_live o = true -> o_token_id o = t ->
     should_fill bid ask o = false) /\
  (forall k o, In (k, o) (orders s) -> fills t bid ask o = true ->
     In (k, filled_order o) (orders s') /\ remaining (filled_order o) == 0 /\
     is_filled (filled_order o) = true) /\
  check_fills fee_rate t bid ask s' = (0%Z, s').
Proof.
  pose proof (check_fills_spec fee_rate t bid ask s) as H.
  destruct (check_fills fee_rate t bid ask s) as [n s'] eqn:E. cbv zeta in H.
  destruct H as (H1 & _).
  assert (Hnf : forall ko, In ko (orders s') -> fills t bid ask (snd ko) = false).
  { intros ko Hin. rewrite H1 in Hin. apply in_map_iff in Hin as [[k o] [<- _]].
    cbn [fst snd]. destruct (fills t bid ask o) eqn:F.
    - unfold filled_order. rewrite fills_eq. reflexivity.
    - exact F. }
  split; [|split].
  - intros k o Hin L T. specialize (Hnf (k, o) Hin). rewrite fills_eq in Hnf.
    cbn [snd] in Hnf. rewrite L, T, String.eqb_refl in Hnf. exact Hnf.
  - intros k o Hin F. split; [|split].
    + rewrite H1. apply in_map_iff. exists (k, o). cbn [fst snd]. rewrite F. auto.
    + unfold remaining, filled_order. simpl. ring.
    + reflexivity.
  - unfold check_fills. destruct s' as [os tr ps sq]. cbn [orders trades positions trade_seq] in *.
    rewrite check_fills_loop_nofill by exact Hnf. reflexivity.
Qed.

End SimulatorExtra.

Module DataStoreExtra.
Import Models DataStore.

Lemma ensure_registered_data (s : DataStore) (tok : string) :
  data (ensure_registered s tok) !! tok =
    Some (default (new_token_data tok) (data s !! tok)) /\
  (forall j, j <> tok -> data (ensure_registered s tok) !! j = data s !! j) /\
  stale_threshold (ensure_registered s tok) = stale_threshold s.
Proof.
  unfold ensure_registered, register_token.
  destruct (data s !! tok) eqn:E; simpl.
  - rewrite ?E. auto.
  - rewrite ?E. simpl. rewrite lookup_insert_eq. split; [reflexivity|].
    split; [|reflexivity]. intros j Hj. now rewrite lookup_insert_ne.
Qed.

Lemma ensure_registered_counters (s : DataStore) (tok : string) :
  (sequence (ensure_registered s tok), gap_count (ensure_registered s tok)) =
  match data s !! tok with
  | Some _ => (sequence s, gap_count s)
  | None => (<[tok := (-1)%Z]> (sequence s), <[tok := 0%Z]> (gap_count s))
  end.
Proof.
  unfold ensure_registered, register_token. destruct (data s !! tok) eqn:E; simpl; rewrite ?E; reflexivity.
Qed.

Lemma has_gaps_iff (s : DataStore) :
  has_gaps s = true <-> exists k c, gap_count s !! k = Some c /\ (0 < c)%Z.
Proof.
  unfold has_gaps. rewrite existsb_exists. split.
  - intros [[k c] [Hin Hc]]. apply list_elem_of_In, elem_of_map_to_list in Hin.
    exists k, c. split; [exact Hin|]. apply Z.ltb_lt. exact Hc.
  - intros (k & c & Hk & Hc). exists (k, c). split.
    + apply list_elem_of_In, elem_of_map_to_list. exact Hk.
    + apply Z.ltb_lt. exact Hc.
Qed.

Section Sorting.
Context {A : Type}.
Variable before : A -> A -> bool.
Variable R : A -> A -> Prop.
Hypothesis R_before : forall a b, before a b = true -> R a b.
Hypothesis R_not_before : forall a b, before a b = false -> R b a.
Hypothesis R_trans : forall a b c, R a b -> R b c -> R a c.

Lemma insert_by_perm (x : A) (l : list A) : Permutation (insert_by before x l) (x :: l).
Proof.
  induction l as [|y rest IH]; simpl; [reflexivity|].
  destruct (before x y); [reflexivity|].
  rewrite IH. apply perm_swap.
Qed.

Lemma sort_by_perm_acc (l acc : list A) :
  Permutation (fold_left (fun acc x => insert_by before x acc) l acc) (acc ++ l).
Proof.
  revert acc. induction l as [|x l IH]; intros acc; simpl.
  - rewrite app_nil_r. reflexivity.
  - rewrite IH, insert_by_perm. simpl. apply Permutation_middle.
Qed.

Lemma sort_by_perm (l : list A) : Permutation (sort_by before l) l.
Proof. unfold sort_by. apply sort_by_perm_acc. Qed.

Lemma insert_by_sorted (x : A) (l : list A) :
  StronglySorted R l -> StronglySorted R (insert_by before x l).
Proof.
  induction l as [|y rest IH]; intros H; simpl.
  - repeat constructor.
  - apply StronglySorted_inv in H as [Hr Hy].
    destruct (before x y) eqn:B.
    + constructor; [constructor; assumption|]. constructor.
      * apply R_before. exact B.
      * eapply Forall_impl; [exact Hy|]. intros z Hz. eapply R_trans; [apply R_before; exact B|exact Hz].
    + constructor; [apply IH; exact Hr|].
      eapply Permutation_Forall; [symmetry; apply insert_by_perm|].
      constructor; [apply R_not_before; exact B|exact Hy].
Qed.

Lemma sort_by_sorted (l : list A) : StronglySorted R (sort_by before l).
Proof.
  unfold sort_by.
  assert (G : forall acc, StronglySorted R acc ->
    StronglySorted R (fold_left (fun acc x => insert_by before x acc) l acc)).
  { induction l as [|x l IH]; intros acc Ha; simpl; [exact Ha|].
    apply IH, insert_by_sorted, Ha. }
  apply G. constructor.
Qed.

Lemma sort_by_head (l : list A) :
  match sort_by before l with
  | [] => l = []
  | h :: _ => In h l /\ forall z, In z l -> z = h \/ R h z
  end.
Proof.
  pose proof (sort_by_perm l) as P. pose proof (sort_by_sorted l) as S.
  destruct (sort_by before l) as [|h t].
  - apply Permutation_nil. exact P.
  - split.
    + eapply Permutation_in; [exact P|left; reflexivity].
    + intros z Hz. apply (Permutation_in _ (Permutation_sym P)) in Hz.
      destruct Hz as [<-|Hz]; [left; reflexivity|].
      right. apply StronglySorted_inv in S as [_ F]. rewrite Forall_forall in F.
      apply F, list_elem_of_In, Hz.
Qed.

End Sorting.

Lemma sort_desc_spec (l : list PriceLevel) :
  Permutation (sort_desc l) l /\
  StronglySorted (fun a b => pl_price b <= pl_price a) (sort_desc l) /\
  match sort_desc l with
  | [] => l = []
  | h :: _ => In (pl_price h) (map pl_price l) /\
              forall p, In p (map pl_price l) -> p <= pl_price h
  end.
Proof.
  set (R := fun a b : PriceLevel => pl_price b <= pl_price a).
  assert (B1 : forall a b, Qlt_bool (pl_price b) (pl_price a) = true -> R a b).
  { intros a b H. apply RiskProofs.Qlt_bool_iff in H. unfold R. lra. }
  assert (B2 : forall a b, Qlt_bool (pl_price b) (pl_price a) = false -> R b a).
  { intros a b H. apply RiskProofs.Qlt_bool_false in H. unfold R. lra. }
  assert (B3 : forall a b c, R a b -> R b c -> R a c) by (unfold R; intros; lra).
  unfold sort_desc. split; [apply sort_by_perm|]. split; [apply (sort_by_sorted _ R B1 B2 B3)|].
  pose proof (sort_by_head _ R B1 B2 B3 l) as H.
  destruct (sort_by _ l) as [|h t]; [exact H|].
  destruct H as [H1 H2]. split; [apply in_map, H1|].
  intros p Hp. apply in_map_iff in Hp as [z [<- Hz]].
  destruct (H2 z Hz) as [->|Hr]; [apply Qle_refl|exact Hr].
Qed.

Lemma sort_asc_spec (l : list PriceLevel) :
  Permutation (sort_asc l) l /\
  StronglySorted (fun a b => pl_price a <= pl_price b) (sort_asc l) /\
  match sort_asc l with
  | [] => l = []
  | h :: _ => In (pl_price h) (map pl_price l) /\
              forall p, In p (map pl_price l) -> pl_price h <= p
  end.
Proof.
  set (R := fun a b : PriceLevel => pl_price a <= pl_price b).
  assert (B1 : forall a b, Qlt_bool (pl_price a) (pl_price b) = true -> R a b).
  { intros a b H. apply RiskProofs.Qlt_bool_iff in H. unfold R. lra. }
  assert (B2 : forall a b, Qlt_bool (pl_price a) (pl_price b) = false -> R b a).
  { intros a b H. apply RiskProofs.Qlt_bool_false in H. unfold R. lra. }
  assert (B3 : forall a b c, R a b -> R b c -> R a c) by (unfold R; intros; lra).
  unfold sort_asc. split; [apply sort_by_perm|]. split; [apply (sort_by_sorted _ R B1 B2 B3)|].
  pose proof (sort_by_head _ R B1 B2 B3 l) as H.
  destruct (sort_by _ l) as [|h t]; [exact H|].
  destruct H as [H1 H2]. split; [apply in_map, H1|].
  intros p Hp. apply in_map_iff in Hp as [z [<- Hz]].
  destruct (H2 z Hz) as [->|Hr]; [apply Qle_refl|exact Hr].
Qed.

Lemma set_after_ensure (s : DataStore) (tok : string) (g : TokenData -> TokenData) (s' : DataStore) :
  s' = match data (ensure_registered s tok) !! tok with
       | None => ensure_registered s tok
       | Some d => set_token_data (ensure_registered s tok) tok (g d)
       end ->
  data s' !! tok = Some (g (default (new_token_data tok) (data s !! tok))) /\
  (forall j, j <> tok -> data s' !! j = data s !! j) /\
  stale_threshold s' = stale_threshold s /\
  (sequence s', gap_count s') =
    match data s !! tok with
    | Some _ => (sequence s, gap_count s)
    | None => (<[tok := (-1)%Z]> (sequence s), <[tok := 0%Z]> (gap_count s))
    end.
Proof.
  intros ->. destruct (ensure_registered_data s tok) as (E1 & E2 & E3).
  pose proof (ensure_registered_counters s tok) as E4.
  rewrite E1. unfold set_token_data; cbn [data sequence gap_count stale_threshold].
  rewrite lookup_insert_eq. split; [reflexivity|]. split.
  - intros j Hj. rewrite lookup_insert_ne by congruence. apply E2, Hj.
  - split; [exact E3|exact E4].
Qed.

Lemma update_book_data (s : DataStore) tok bids asks ts now :
  let s' := update_book s tok bids asks ts now in
  let d := default (new_token_data tok) (data s !! tok) in
  data s' !! tok =
    Some (mkTokenData (td_token_id d)
            (Some (mkOrderBook tok (sort_desc (parse_levels bids)) (sort_asc (parse_levels asks)) ts))
            (td_last_price d) (td_last_trade_price d) (td_last_trade_side d) (td_last_trade_size d) now) /\
  (forall j, j <> tok -> data s' !! j = data s !! j) /\
  stale_threshold s' = stale_threshold s /\
  (sequence s', gap_count s') =
    match data s !! tok with
    | Some _ => (sequence s, gap_count s)
    | None => (<[tok := (-1)%Z]> (sequence s), <[tok := 0%Z]> (gap_count s))
    end.
Proof.
  apply (set_after_ensure s tok (fun d => mkTokenData (td_token_id d)
    (Some (mkOrderBook tok (sort_desc (parse_levels bids)) (sort_asc (parse_levels asks)) ts))
    (td_last_price d) (td_last_trade_price d) (td_last_trade_side d) (td_last_trade_size d) now)).
  reflexivity.
Qed.

Lemma update_price_data (s : DataStore) tok p now :
  let s' := update_price s tok p now in
  let d := default (new_token_data tok) (data s !! tok) in
  data s' !! tok =
    Some (mkTokenData (td_token_id d) (td_order_book d) (Some p) (td_last_trade_price d)
            (td_last_trade_side d) (td_last_trade_size d) now) /\
  (forall j, j <> tok -> data s' !! j = data s !! j) /\
  stale_threshold s' = stale_threshold s /\
  (sequence s', gap_count s') =
    match data s !! tok with
    | Some _ => (sequence s, gap_count s)
    | None => (<[tok := (-1)%Z]> (sequence s), <[tok := 0%Z]> (gap_count s))
    end.
Proof.
  apply (set_after_ensure s tok (fun d => mkTokenData (td_token_id d) (td_order_book d) (Some p)
    (td_last_trade_price d) (td_last_trade_side d) (td_last_trade_size d) now)).
  reflexivity.
Qed.

Lemma update_trade_data (s : DataStore) tok p sz sd now :
  let s' := update_trade s tok p sz sd now in
  let d := default (new_token_data tok) (data s !! tok) in
  data s' !! tok =
    Some (mkTokenData (td_token_id d) (td_order_book d) (td_last_price d) (Some p) sd sz now) /\
  (forall j, j <> tok -> data s' !! j = data s !! j) /\
  stale_threshold s' = stale_threshold s /\
  (sequence s', gap_count s') =
    match data s !! tok with
    | Some _ => (sequence s, gap_count s)
    | None => (<[tok := (-1)%Z]> (sequence s), <[tok := 0%Z]> (gap_count s))
    end.
Proof.
  apply (set_after_ensure s tok (fun d => mkTokenData (td_token_id d) (td_order_book d)
    (td_last_price d) (Some p) sd sz now)).
  reflexivity.
Qed.

(** Extra: registering a token that is already tracked changes nothing.
    Registering a new token tracks it with an empty [TokenData] (no book,
    [last_update = 0], hence never fresh) and leaves the other tokens alone;
    after that the next [check_sequence] accepts any sequence number.
    [unregister_token] forgets the token in all three maps: its data, its
    last sequence number and its gap count (so it is not fresh and its
    next [check_sequence] is accepted as a first message)
    and leaves every other token's data, sequence and gap count alone. *)
Theorem register_unregister_spec (s : DataStore) (tok : string) (q : Z) (now : Q) :
  (forall d, data s !! tok = Some d -> register_token s tok = s) /\
  (data s !! tok = None ->
     let s' := register_token s tok in
     get s' tok = Some (new_token_data tok) /\ get_order_book s' tok = None /\
     is_fresh s' now tok = false /\ fst (check_sequence s' tok (Some q)) = true /\
     (forall j, j <> tok -> get s' j = get s j)) /\
  (let s' := unregister_token s tok in
   get s' tok = None /\ sequence s' !! tok = None /\ gap_count s' !! tok = None /\
   is_fresh s' now tok = false /\
   fst (check_sequence s' tok (Some q)) = true /\
   (forall j, j <> tok -> get s' j = get s j /\ sequence s' !! j = sequence s !! j /\
                          gap_count s' !! j = gap_count s !! j)).
Proof.
  split; [|split].
  - intros d Hd. unfold register_token. rewrite Hd. reflexivity.
  - intros Hn. cbv zeta. unfold register_token, get, get_order_book, is_fresh, check_sequence.
    rewrite Hn. cbn [data sequence stale_threshold]. rewrite !lookup_insert_eq.
    unfold seconds_since_update. cbn. repeat split.
    intros j Hj. rewrite lookup_insert_ne by congruence. reflexivity.
  - cbv zeta. unfold unregister_token, get, is_fresh, check_sequence.
    cbn [data sequence gap_count]. rewrite !lookup_delete_eq. cbn. repeat split;
      intros; rewrite lookup_delete_ne by congruence; reflexivity.
Qed.

(** Extra: gap counts are never negative: if no count is negative before
    [check_sequence], none is after it.  When [check_sequence] reports a
    gap, [has_gaps] is true afterwards; when it accepts, [has_gaps] is
    unchanged.  After [clear_gaps(token)], [has_gaps] is true exactly when
    some other token has a positive gap count. *)
Theorem gaps_spec (s : DataStore) (tok : string) (q : Z)
    (Hnn : forall k c, gap_count s !! k = Some c -> (0 <= c)%Z) :
  let '(ok, s') := check_sequence s tok (Some q) in
  (forall k c, gap_count s' !! k = Some c -> (0 <= c)%Z) /\
  (ok = false -> has_gaps s' = true) /\
  (ok = true -> has_gaps s' = has_gaps s) /\
  (has_gaps (clear_gaps s tok) = true <->
     exists k c, k <> tok /\ gap_count s !! k = Some c /\ (0 < c)%Z).
Proof.
  assert (Hgn : forall c, gap_count s !! tok = Some c -> (0 <= c)%Z) by (intros c; apply Hnn).
  assert (Hclear : has_gaps (clear_gaps s tok) = true <->
     exists k c, k <> tok /\ gap_count s !! k = Some c /\ (0 < c)%Z).
  { rewrite has_gaps_iff. unfold clear_gaps. cbn [gap_count]. split.
    - intros (k & c & Hk & Hc). destruct (String.eqb_spec k tok) as [->|Hne].
      + rewrite lookup_insert_eq in Hk. injection Hk as <-. lia.
      + rewrite lookup_insert_ne in Hk by congruence. exists k, c. auto.
    - intros (k & c & Hne & Hk & Hc). exists k, c. rewrite lookup_insert_ne by congruence. auto. }
  pose proof (DataStoreProofs.check_sequence_spec s tok (Some q)) as H.
  destruct (check_sequence s tok (Some q)) as [ok s'] eqn:E. cbv zeta in H.
  destruct H as (_ & _ & Hg & _).
  split; [|split; [|split]]; [| | |exact Hclear].
  - intros k c Hk. rewrite Hg in Hk. destruct ok; [exact (Hnn k c Hk)|].
    destruct (String.eqb_spec k tok) as [->|Hne].
    + rewrite lookup_insert_eq in Hk. injection Hk as <-.
      destruct (gap_count s !! tok) as [c0|] eqn:G; cbn; [specialize (Hgn c0 eq_refl)|]; lia.
    + rewrite lookup_insert_ne in Hk by congruence. exact (Hnn k c Hk).
  - intros ->. apply has_gaps_iff. rewrite Hg. exists tok, (default 0%Z (gap_count s !! tok) + 1)%Z.
    rewrite lookup_insert_eq. split; [reflexivity|].
    destruct (gap_count s !! tok) as [c0|] eqn:G; cbn; [specialize (Hgn c0 eq_refl)|]; lia.
  - intros ->. unfold has_gaps. rewrite Hg. reflexivity.
Qed.

Lemma gaps_spec_witness :
  (forall k c, gap_count (mkDataStore empty 30 (<["a" := 3%Z]> empty) (<["a" := 0%Z]> empty)) !! k = Some c -> (0 <= c)%Z) /\
  let '(ok, s') := check_sequence (mkDataStore empty 30 (<["a" := 3%Z]> empty) (<["a" := 0%Z]> empty)) "a" (Some 7%Z) in
  (forall k c, gap_count s' !! k = Some c -> (0 <= c)%Z) /\
  (ok = false -> has_gaps s' = true) /\
  (ok = true -> has_gaps s' = has_gaps (mkDataStore empty 30 (<["a" := 3%Z]> empty) (<["a" := 0%Z]> empty))) /\
  (has_gaps (clear_gaps (mkDataStore empty 30 (<["a" := 3%Z]> empty) (<["a" := 0%Z]> empty)) "a") = true <->
     exists k c, k <> "a" /\ gap_count (mkDataStore empty 30 (<["a" := 3%Z]> empty) (<["a" := 0%Z]> empty)) !! k = Some c /\ (0 < c)%Z).
Proof.
  assert (H : forall k c, gap_count (mkDataStore empty 30 (<["a" := 3%Z]> empty) (<["a" := 0%Z]> empty)) !! k = Some c -> (0 <= c)%Z).
  { intros k c. cbn [gap_count]. destruct (String.eqb_spec k "a") as [->|Hne].
    - rewrite lookup_insert_eq. intros Hc. injection Hc as <-. lia.
    - rewrite lookup_insert_ne by congruence. rewrite lookup_empty. discriminate. }
  split; [exact H|]. exact (gaps_spec _ "a" 7%Z H).
Defined.

(** Extra: [update_book] stores, under the token, a book whose bids are
    the dict entries of the message sorted by price from high to low and
    whose asks are sorted from low to high (each a permutation of the
    parsed entries, non-dict entries dropped).  Hence [get_best_bid] is
    the highest bid price of the message ([None] exactly when it has no
    dict bid) and [get_best_ask] the lowest ask price. *)
Theorem update_book_sorted (s : DataStore) (tok : string) (bids asks : list RawLevel)
    (ts : option string) (now : Q) :
  let s' := update_book s tok bids asks ts now in
  get_order_book s' tok =
    Some (mkOrderBook tok (sort_desc (parse_levels bids)) (sort_asc (parse_levels asks)) ts) /\
  Permutation (sort_desc (parse_levels bids)) (parse_levels bids) /\
  StronglySorted (fun a b => pl_price b <= pl_price a) (sort_desc (parse_levels bids)) /\
  Permutation (sort_asc (parse_levels asks)) (parse_levels asks) /\
  StronglySorted (fun a b => pl_price a <= pl_price b) (sort_asc (parse_levels asks)) /\
  match get_best_bid s' tok with
  | None => parse_levels bids = []
  | Some b => In b (map pl_price (parse_levels bids)) /\
              forall p, In p (map pl_price (parse_levels bids)) -> p <= b
  end /\
  match get_best_ask s' tok with
  | None => parse_levels asks = []
  | Some a => In a (map pl_price (parse_levels asks)) /\
              forall p, In p (map pl_price (parse_levels asks)) -> a <= p
  end.
Proof.
  cbv zeta. destruct (update_book_data s tok bids asks ts now) as (E & _).
  unfold get_order_book, get_best_bid, get_best_ask. rewrite E. cbn [td_order_book].
  destruct (sort_desc_spec (parse_levels bids)) as (P1 & S1 & H1).
  destruct (sort_asc_spec (parse_levels asks)) as (P2 & S2 & H2).
  repeat split; try assumption.
  - unfold best_bid. cbn [ob_bids]. destruct (sort_desc (parse_levels bids)); exact H1.
  - unfold best_ask. cbn [ob_asks]. destruct (sort_asc (parse_levels asks)); exact H2.
Qed.

(** Extra: [update_book], [update_price] and [update_trade] leave every
    other token's data and the stale threshold unchanged; on a tracked
    token they keep its sequence number and gap count, and on a new token
    they register it first (sequence [-1], gap count 0).  [update_price]
    and [update_trade] keep the token's order book, so its best bid, best
    ask, midpoint and spread are unchanged. *)
Theorem updates_frame (s : DataStore) (tok : string) (bids asks : list RawLevel)
    (ts : option string) (p : Q) (sz : option Q) (sd : option string) (now : Q) :
  Forall (fun s' =>
    (forall j, j <> tok -> get s' j = get s j) /\
    stale_threshold s' = stale_threshold s /\
    (sequence s', gap_count s') =
      match data s !! tok with
      | Some _ => (sequence s, gap_count s)
      | None => (<[tok := (-1)%Z]> (sequence s), <[tok := 0%Z]> (gap_count s))
      end)
    [update_book s tok bids asks ts now; update_price s tok p now;
     update_trade s tok p sz sd now] /\
  Forall (fun s' =>
    get_order_book s' tok = get_order_book s tok /\
    get_best_bid s' tok = get_best_bid s tok /\ get_best_ask s' tok = get_best_ask s tok /\
    get_midpoint s' tok = get_midpoint s tok /\ get_spread s' tok = get_spread s tok)
    [update_price s tok p now; update_trade s tok p sz sd now].
Proof.
  destruct (update_book_data s tok bids asks ts now) as (_ & B2 & B3 & B4).
  destruct (update_price_data s tok p now) as (P1 & P2 & P3 & P4).
  destruct (update_trade_data s tok p sz sd now) as (T1 & T2 & T3 & T4).
  unfold get. split.
  - repeat constructor; assumption.
  - unfold get_order_book, get_best_bid, get_best_ask, get_midpoint, get_spread.
    constructor; [|constructor; [|constructor]]; [rewrite P1|rewrite T1]; cbn [td_order_book];
      destruct (data s !! tok); cbn; repeat split.
Qed.

(** Extra: a token updated by [update_book], [update_price] or
    [update_trade] at a clock reading [t <> 0] is fresh at time [now]
    exactly when [now - t] is below the stale threshold; a registered token
    that was never updated is never fresh.  [all_fresh] is false on an
    empty store (for instance after [clear]) and otherwise true exactly
    when every tracked token is fresh. *)
Theorem freshness_spec (s : DataStore) (tok : string) (bids asks : list RawLevel)
    (ts : option string) (p : Q) (sz : option Q) (sd : option string) (t now : Q)
    (Ht : ~ t == 0) :
  Forall (fun s' => is_fresh s' now tok = Qlt_bool (now - t) (stale_threshold s))
    [update_book s tok bids asks ts t; update_price s tok p t; update_trade s tok p sz sd t] /\
  (data s !! tok = None -> is_fresh (register_token s tok) now tok = false) /\
  all_fresh (clear s) now = false /\
  (all_fresh s now = true <->
     data s <> empty /\ forall k d, data s !! k = Some d -> is_fresh s now k = true).
Proof.
  assert (Hq : Qeq_bool t 0 = false).
  { destruct (Qeq_bool t 0) eqn:E; [|reflexivity]. apply Qeq_bool_iff in E. contradiction. }
  split; [|split; [|split]].
  - destruct (update_book_data s tok bids asks ts t) as (B1 & _ & B3 & _).
    destruct (update_price_data s tok p t) as (P1 & _ & P3 & _).
    destruct (update_trade_data s tok p sz sd t) as (T1 & _ & T3 & _).
    unfold is_fresh, seconds_since_update.
    constructor; [|constructor; [|constructor; [|constructor]]];
      [rewrite B1, B3|rewrite P1, P3|rewrite T1, T3]; cbn [td_last_update]; rewrite Hq; reflexivity.
  - intros Hn. destruct (register_unregister_spec s tok 0%Z now) as (_ & H & _).
    apply (H Hn).
  - reflexivity.
  - unfold all_fresh. split.
    + destruct (map_to_list (data s)) as [|kv l] eqn:E; [discriminate|]. intros Hf.
      split.
      * intros He. rewrite He, map_to_list_empty in E. discriminate.
      * intros k d Hk. rewrite <- E in Hf. apply forallb_forall with (x := (k, d)) in Hf; [exact Hf|].
        apply list_elem_of_In, elem_of_map_to_list. exact Hk.
    + intros [Hne Hall]. destruct (map_to_list (data s)) as [|kv l] eqn:E.
      * apply map_to_list_empty_iff in E. contradiction.
      * rewrite <- E. apply forallb_forall. intros [k d] Hin.
        apply list_elem_of_In, elem_of_map_to_list in Hin. exact (Hall k d Hin).
Qed.

Lemma freshness_spec_witness :
  ~ 100 == 0 /\
  Forall (fun s' => is_fresh s' 110 "a" = Qlt_bool (110 - 100) 30)
    [update_book (mkDataStore empty 30 empty empty) "a" [RDict (1#2) 10; ROther] [RDict (3#5) 4] None 100;
     update_price (mkDataStore empty 30 empty empty) "a" (1#2) 100;
     update_trade (mkDataStore empty 30 empty empty) "a" (1#2) (Some 3) (Some "BUY") 100].
Proof.
  assert (H : ~ 100 == 0) by (intros E; discriminate E). split; [exact H|].
  exact (proj1 (freshness_spec (mkDataStore empty 30 empty empty) "a" [RDict (1#2) 10; ROther]
    [RDict (3#5) 4] None (1#2) (Some 3) (Some "BUY") 100 110 H)).
Defined.

End DataStoreExtra.

Module RiskExtra.
Import Risk RiskProofs.

(** Extra: the kill switch overrides everything: once [kill_switch(reason)]
    has been called, [check()] returns STOP with that reason in both modes
    and changes nothing (no event is logged), whatever the tokens, the
    clock, the P&L or the errors.  [reset_kill_switch] clears it and undoes
    the kill completely: resetting after a kill gives the same state as
    resetting without it. *)
Theorem kill_switch_spec (env : Env) (st : RiskManager) (r : string)
    (toks : option (list string)) :
  check env (kill_switch st r) toks = (mkCheck STOP (RKillSwitch (KManual r)), kill_switch st r) /\
  reset_kill_switch (kill_switch st r) = reset_kill_switch st /\
  killed (reset_kill_switch st) = false /\ kill_reason (reset_kill_switch st) = KEmpty.
Proof. repeat split. Qed.

Lemma check_positions_loop_spec (env : Env) (st : RiskManager) (lim : Q) :
  forall (ts : list string) (tot : Q),
  let c := check_positions_loop env st lim ts tot in
  let s := tot + SimulatorView.sumQ (map (fun t => Qabs (get_position env t)) ts) in
  (status c = OK <->
     (forall t, In t ts -> Qabs (get_position env t) <= lim) /\ s <= max_total_exposure st) /\
  match reason c with
  | RNone => status c = OK
  | RPositionLimit t p l _ =>
      status c = WARN /\
      (exists pre post, ts = pre ++ t :: post /\
                        forall u, In u pre -> Qabs (get_position env u) <= lim) /\
      p = get_position env t /\ l = lim /\ l < Qabs p
  | RTotalExposure total l =>
      status c = WARN /\ total == s /\ l = max_total_exposure st /\ l < total /\
      forall t, In t ts -> Qabs (get_position env t) <= lim
  | _ => False
  end.
Proof.
  induction ts as [|t rest IH]; intros tot; cbv zeta; cbn [check_positions_loop map].
  - change (SimulatorView.sumQ []) with 0.
    destruct (Qlt_bool (max_total_exposure st) tot) eqn:E; cbn [status reason].
    + apply Qlt_bool_iff in E. split.
      * split; [discriminate|]. intros [_ H]. lra.
      * repeat split; try reflexivity; try lra. intros t [].
    + apply Qlt_bool_false in E. split; [|reflexivity]. split; [intros _|reflexivity].
      split; [intros t []|lra].
  - change (SimulatorView.sumQ (?a :: ?l)) with (a + SimulatorView.sumQ l).
    destruct (Qlt_bool lim (Qabs (get_position env t))) eqn:E; cbn [status reason].
    + apply Qlt_bool_iff in E. split.
      * split; [discriminate|]. intros [H _]. specialize (H t (or_introl eq_refl)). lra.
      * split; [reflexivity|]. split; [exists [], rest; split; [reflexivity | intros u []]|].
        repeat split; auto.
    + apply Qlt_bool_false in E. specialize (IH (tot + Qabs (get_position env t))).
      cbv zeta in IH. destruct IH as [IH1 IH2].
      set (S := SimulatorView.sumQ (map (fun t0 => Qabs (get_position env t0)) rest)) in *.
      split.
      * rewrite IH1. split.
        -- intros [H1 H2]. split; [|lra]. intros u [<-|Hu]; [exact E|exact (H1 u Hu)].
        -- intros [H1 H2]. split; [|lra]. intros u Hu. apply H1. right. exact Hu.
      * destruct (reason _) as [| | | | | |u p l b|total l]; try exact IH2.
        -- destruct IH2 as (W & (pre & post & Hts & Hpre) & Hp & Hl & Hlt).
           split; [exact W|]. split; [|repeat split; auto].
           exists (t :: pre), post. split; [rewrite Hts; reflexivity|].
           intros v [<-|Hv]; [exact E | exact (Hpre v Hv)].
        -- destruct IH2 as (W & Ht & Hl & Hlt & Hall). repeat split; auto; [lra|].
           intros u [<-|Hu]; [exact E|exact (Hall u Hu)].
Qed.

(** Extra: [_check_positions] never returns STOP.  It returns OK exactly
    when every listed token's absolute position is within the
    volatility-adjusted limit and the sum of the absolute positions is
    within [max_total_exposure]; otherwise WARN, naming either the first
    listed token whose absolute position exceeds the limit (every token
    listed before it is within the limit), or, when every
    token is within it, the total exposure, which then exceeds the
    limit. *)
Theorem check_positions_spec (env : Env) (st : RiskManager) (ts : list string) :
  let c := check_positions env st ts in
  let total := SimulatorView.sumQ (map (fun t => Qabs (get_position env t)) ts) in
  status c <> STOP /\
  (status c = OK <->
     (forall t, In t ts -> Qabs (get_position env t) <= vol_adjusted_position st) /\
     total <= max_total_exposure st) /\
  match reason c with
  | RNone => status c = OK
  | RPositionLimit t p l _ =>
      status c = WARN /\
      (exists pre post, ts = pre ++ t :: post /\
         forall u, In u pre -> Qabs (get_position env u) <= vol_adjusted_position st) /\
      p = get_position env t /\ l = vol_adjusted_position st /\ l < Qabs p
  | RTotalExposure tot l =>
      status c = WARN /\ tot == total /\ l = max_total_exposure st /\ l < tot /\
      forall t, In t ts -> Qabs (get_position env t) <= vol_adjusted_position st
  | _ => False
  end.
Proof.
  cbv zeta. split; [apply check_positions_not_stop|].
  pose proof (check_positions_loop_spec env st (vol_adjusted_position st) ts 0) as H.
  cbv zeta in H. unfold check_positions. destruct H as [H1 H2]. split.
  - rewrite H1. split; intros [A B]; split; auto; lra.
  - destruct (reason _) as [| | | | | |u p l b|tot l]; try exact H2.
    destruct H2 as (W & Ht & Hl & Hlt & Hall). repeat split; auto. lra.
Qed.



Lemma deque_append_spec {A} (maxlen : nat) (l : list A) (x : A) :
  (0 < maxlen)%nat ->
  (length (deque_append maxlen l x) <= maxlen)%nat /\
  ((length l < maxlen)%nat -> deque_append maxlen l x = l ++ [x]) /\
  exists pre, pre ++ deque_append maxlen l x = l ++ [x].
Proof.
  intros Hm. unfold deque_append. split; [|split].
  - rewrite length_skipn. lia.
  - intros Hl. rewrite length_app. cbn [length].
    replace (length l + 1 - maxlen)%nat with 0%nat by lia. reflexivity.
  - exists (firstn (length (l ++ [x]) - maxlen) (l ++ [x])). apply firstn_skipn.
Qed.

(** Extra: [record_error] keeps at most the 100 latest errors (a
    [deque(maxlen=100)]), appending the new one at the end and dropping
    the oldest only when 100 are already kept.  So [_check_error_rate]
    counts at most 100 recent errors, and with [max_errors_per_minute]
    above 100 it never fires, however many errors are recorded. *)
Theorem record_error_bounded (env : Env) (st : RiskManager) (e : string)
    (Hlen : (length (errors st) <= 100)%nat) :
  let st' := record_error env st e in
  (length (errors st') <= 100)%nat /\
  ((length (errors st) < 100)%nat -> errors st' = errors st ++ [(now env, e)]) /\
  (exists pre, pre ++ errors st' = errors st ++ [(now env, e)]) /\
  (recent_errors st' (now env) <= 100)%Z /\
  forall env', (100 < max_errors_per_minute st')%Z -> check_error_rate env' st' = (mkCheck OK RNone, st').
Proof.
  cbv zeta. destruct (deque_append_spec 100 (errors st) (now env, e)) as (D1 & D2 & D3); [lia|].
  assert (Hr : forall env', (recent_errors (record_error env st e) (now env') <= 100)%Z).
  { intros env'. unfold recent_errors. cbn [errors record_error].
    pose proof (List.filter_length_le (fun '(ts, _) => Qlt_bool (now env' - 60) ts)
                  (deque_append 100 (errors st) (now env, e))). lia. }
  split; [exact D1|]. split; [exact D2|]. split; [exact D3|]. split; [apply (Hr env)|].
  intros env' Hmax. unfold check_error_rate.
  assert (Z.leb (max_errors_per_minute (record_error env st e))
            (recent_errors (record_error env st e) (now env')) = false) as ->.
  { apply Z.leb_gt. specialize (Hr env'). lia. }
  reflexivity.
Qed.

Lemma record_error_bounded_witness :
  (length (errors Samples.rm_err100) <= 100)%nat /\
  length (errors Samples.rm_err100) = 100%nat /\
  (100 < max_errors_per_minute (record_error Samples.env0 Samples.rm_err100 "timeout"))%Z /\
  errors (record_error Samples.env0 Samples.rm_err100 "timeout") =
    tl (errors Samples.rm_err100) ++ [(1000, "timeout"%string)] /\
  (let st' := record_error Samples.env0 Samples.rm_err100 "timeout" in
   (length (errors st') <= 100)%nat /\
   ((length (errors Samples.rm_err100) < 100)%nat ->
      errors st' = errors Samples.rm_err100 ++ [(now Samples.env0, "timeout"%string)]) /\
   (exists pre, pre ++ errors st' = errors Samples.rm_err100 ++ [(now Samples.env0, "timeout"%string)]) /\
   (recent_errors st' (now Samples.env0) <= 100)%Z /\
   forall env', (100 < max_errors_per_minute st')%Z ->
     check_error_rate env' st' = (mkCheck OK RNone, st')).
Proof.
  assert (H : (length (errors Samples.rm_err100) <= 100)%nat) by (vm_compute; lia).
  split; [exact H|]. split; [reflexivity|]. split; [reflexivity|]. split; [reflexivity|].
  exact (record_error_bounded Samples.env0 Samples.rm_err100 "timeout" H).
Defined.

(** Extra: when [_check_error_rate] fires at time [now], it sets the
    cooldown to [now + error_cooldown]; every later [_run_checks] at a
    clock reading before that moment returns STOP for the cooldown, with
    the remaining whole seconds, before looking at errors, P&L or
    positions, and changes nothing. *)
Theorem error_rate_cooldown (env : Env) (st : RiskManager) (toks : option (list string))
    (now' : Q)
    (Hstop : status (fst (check_error_rate env st)) = STOP)
    (Hbefore : now' < now env + inject_Z (error_cooldown st)) :
  let st1 := snd (check_error_rate env st) in
  cooldown_until st1 = now env + inject_Z (error_cooldown st) /\
  run_checks (mkEnv now' (get_position env)) st1 toks =
    (mkCheck STOP (RCooldown (py_int (now env + inject_Z (error_cooldown st) - now'))), st1).
Proof.
  cbv zeta. unfold check_error_rate in *.
  destruct (Z.leb _ _) eqn:E; cbn [fst snd status] in *; [|discriminate].
  split; [reflexivity|]. unfold run_checks. cbn [now cooldown_until set_cooldown].
  assert (B : Qlt_bool now' (now env + inject_Z (error_cooldown st)) = true)
    by (apply Qlt_bool_iff; exact Hbefore).
  rewrite B. reflexivity.
Qed.

Lemma error_rate_cooldown_witness :
  status (fst (check_error_rate Samples.env0 Samples.rm_err5)) = STOP /\
  1030 < now Samples.env0 + inject_Z (error_cooldown Samples.rm_err5) /\
  let st1 := snd (check_error_rate Samples.env0 Samples.rm_err5) in
  cooldown_until st1 = now Samples.env0 + inject_Z (error_cooldown Samples.rm_err5) /\
  run_checks (mkEnv 1030 (get_position Samples.env0)) st1 None =
    (mkCheck STOP (RCooldown (py_int (now Samples.env0 + inject_Z (error_cooldown Samples.rm_err5) - 1030))), st1).
Proof.
  assert (H1 : status (fst (check_error_rate Samples.env0 Samples.rm_err5)) = STOP)
    by (vm_compute; reflexivity).
  assert (H2 : 1030 < now Samples.env0 + inject_Z (error_cooldown Samples.rm_err5))
    by (vm_compute; reflexivity).
  split; [exact H1|]. split; [exact H2|].
  exact (error_rate_cooldown Samples.env0 Samples.rm_err5 None 1030 H1 H2).
Defined.

(** Extra: every event in the risk log comes from [check()] and therefore
    has status STOP or WARN and [enforced] equal to the manager's mode;
    [check()] keeps this, appending at most one event.  Consequently the
    event summary always has [stop_events + warn_events = total_events],
    [enforced_events] equal to the total in enforce mode and to 0 in
    data-gathering mode, and [non_enforced_events] the rest. *)
Theorem risk_event_log_invariant (env : Env) (st : RiskManager) (toks : option (list string))
    (Hinv : Forall (fun e => ev_status e <> OK /\ ev_enforced e = enforce st) (risk_events st)) :
  let st' := snd (check env st toks) in
  enforce st' = enforce st /\
  Forall (fun e => ev_status e <> OK /\ ev_enforced e = enforce st) (risk_events st') /\
  (exists l, risk_events st' = risk_events st ++ l /\ (length l <= 1)%nat) /\
  match get_risk_event_summary st' with
  | SEmpty => risk_events st' = []
  | SFull total stop warn enf non =>
      (stop + warn = total)%Z /\ enf = (if enforce st then total else 0%Z) /\
      non = (total - enf)%Z
  end.
Proof.
  assert (Step : enforce (snd (check env st toks)) = enforce st /\
    exists l, risk_events (snd (check env st toks)) = risk_events st ++ l /\ (length l <= 1)%nat /\
    Forall (fun e => ev_status e <> OK /\ ev_enforced e = enforce st) l).
  { unfold check. destruct (killed st).
    - split; [reflexivity|]. exists []. rewrite app_nil_r. auto.
    - pose proof (run_checks_events env st toks) as [E1 E2].
      destruct (run_checks env st toks) as [c st1]. cbn [snd] in E1, E2.
      destruct (RiskStatus_eqb (status c) OK) eqn:S; cbn [negb andb].
      + cbn [snd]. split; [exact E2|]. exists []. rewrite app_nil_r. auto.
      + assert (S' : status c <> OK) by (intros H; rewrite H in S; discriminate).
        destruct (enforce st1) eqn:En; cbn [negb snd]; unfold log_risk_event;
          cbn [risk_events enforce set_events]; rewrite En;
          (split; [exact E2|]);
          rewrite E1; eexists; (split; [reflexivity|]); split; auto;
          repeat constructor; cbn; auto; congruence. }
  destruct Step as [Enf (l & El & Ll & Fl)].
  assert (Hall : Forall (fun e => ev_status e <> OK /\ ev_enforced e = enforce st)
                   (risk_events (snd (check env st toks)))) by (rewrite El; apply Forall_app; auto).
  cbv zeta. split; [exact Enf|]. split; [exact Hall|]. split; [exists l; auto|].
  unfold get_risk_event_summary.
  destruct (risk_events (snd (check env st toks))) as [|e0 rest] eqn:Ev; [reflexivity|].
  rewrite <- Ev in Hall |- *. clear Ev.
  unfold count_events. split; [|split; [|reflexivity]].
  - induction Hall as [|e evs [Hs He] _ IH]; [reflexivity|].
    cbn [List.filter length]. destruct (ev_status e); [contradiction| |];
      cbn [RiskStatus_eqb]; cbn [length]; lia.
  - destruct (enforce st) eqn:En.
    + f_equal. induction Hall as [|e evs [Hs He] _ IH]; [reflexivity|].
      cbn [List.filter]. rewrite He. cbn [length]. congruence.
    + induction Hall as [|e evs [Hs He] _ IH]; [reflexivity|].
      cbn [List.filter]. rewrite He. exact IH.
Qed.

Lemma risk_event_log_invariant_witness :
  Forall (fun e => ev_status e <> OK /\ ev_enforced e = enforce (Samples.rm_with false (-60)))
    (risk_events (Samples.rm_with false (-60))) /\
  match get_risk_event_summary (snd (check Samples.env0 (Samples.rm_with false (-60)) None)) with
  | SEmpty => risk_events (snd (check Samples.env0 (Samples.rm_with false (-60)) None)) = []
  | SFull total stop warn enf non =>
      (stop + warn = total)%Z /\ enf = (if enforce (Samples.rm_with false (-60)) then total else 0%Z) /\
      non = (total - enf)%Z
  end.
Proof.
  assert (H : Forall (fun e => ev_status e <> OK /\ ev_enforced e = enforce (Samples.rm_with false (-60)))
                (risk_events (Samples.rm_with false (-60)))) by constructor.
  split; [exact H|].
  exact (proj2 (proj2 (proj2 (risk_event_log_invariant Samples.env0 (Samples.rm_with false (-60)) None H)))).
Defined.

(** Extra: [update_unrealized_pnl] with an entry price stores it for the
    token and sets the unrealized P&L to [position * (current - entry)]
    (0 for a zero position); a later call without an entry price reuses
    the stored one; with no entry price ever stored the unrealized P&L is
    0.  Other tokens' entry prices are unchanged. *)
Theorem update_unrealized_pnl_spec (u : Unrealized) (tok : string) (pos price e : Q)
    (pos2 price2 : Q) :
  let u1 := update_unrealized_pnl u tok pos price (Some e) in
  let u2 := update_unrealized_pnl u1 tok pos2 price2 None in
  entry_prices u1 !! tok = Some e /\
  unrealized_pnl u1 = (if Qeq_bool pos 0 then 0 else pos * (price - e)) /\
  entry_prices u2 = entry_prices u1 /\
  unrealized_pnl u2 = (if Qeq_bool pos2 0 then 0 else pos2 * (price2 - e)) /\
  (forall j, j <> tok -> entry_prices u1 !! j = entry_prices u !! j) /\
  (entry_prices u !! tok = None ->
     unrealized_pnl (update_unrealized_pnl u tok pos price None) = 0 /\
     entry_prices (update_unrealized_pnl u tok pos price None) = entry_prices u).
Proof.
  assert (E : update_unrealized_pnl u tok pos price (Some e) =
              mkUnrealized (<[tok := e]> (entry_prices u))
                (if Qeq_bool pos 0 then 0 else pos * (price - e))).
  { unfold update_unrealized_pnl. rewrite lookup_insert_eq. destruct (Qeq_bool pos 0); reflexivity. }
  assert (E2 : update_unrealized_pnl (mkUnrealized (<[tok := e]> (entry_prices u))
                  (if Qeq_bool pos 0 then 0 else pos * (price - e))) tok pos2 price2 None =
                mkUnrealized (<[tok := e]> (entry_prices u))
                  (if Qeq_bool pos2 0 then 0 else pos2 * (price2 - e))).
  { unfold update_unrealized_pnl. cbn [entry_prices]. rewrite lookup_insert_eq.
    destruct (Qeq_bool pos2 0); reflexivity. }
  cbv zeta. rewrite E, E2. cbn [entry_prices unrealized_pnl].
  rewrite lookup_insert_eq. split; [reflexivity|]. split; [reflexivity|].
  split; [destruct (Qeq_bool pos2 0); reflexivity|].
  split; [destruct (Qeq_bool pos2 0); reflexivity|].
  split.
  - intros j Hj. rewrite lookup_insert_ne by congruence. reflexivity.
  - intros Hn. unfold update_unrealized_pnl. rewrite Hn. split; reflexivity.
Qed.

End RiskExtra.

Module ArbitrageExtra.
Import Arbitrage.

Lemma Qfloor_nonneg (q : Q) : 0 <= q -> (0 <= Qfloor q)%Z.
Proof.
  intros H. pose proof (Qlt_floor q) as L.
  assert (0 < inject_Z (Qfloor q + 1)) as L' by lra.
  rewrite <- (Qmult_0_l 1) in L'. unfold Qlt in L'. simpl in L'. lia.
Qed.

(** Extra: for a detector whose [min_profit_bps] exceeds 10 and whose fee
    rate is not negative (the defaults are 20 and 0.001), a signal of
    [check_pair] is actionable exactly when the deviation of [yes + no]
    from 1.00 is more than 10 whole basis points: SELL_BOTH and BUY_BOTH
    signals are always actionable, SKEW_QUOTES ones exactly above 10 bps,
    NONE never. *)
Theorem check_pair_actionable (d : ArbitrageDetector) (yes_price no_price : Q) (pair : TokenPair)
    (Hmin : (10 < min_profit_bps d)%Z) (Hfee : 0 <= fee_rate d) :
  is_actionable (check_pair d yes_price no_price pair) =
    Z.ltb 10 (py_int (Qabs (yes_price + no_price - 1) * 10000)).
Proof.
  unfold check_pair.
  set (dev := yes_price + no_price - 1).
  set (dbps := py_int (Qabs dev * 10000)).
  set (fbps := py_int (fee_rate d * 2 * 10000)).
  assert (Hd : (0 <= dbps)%Z).
  { unfold dbps. rewrite ArbitrageProofs.py_int_nonneg by (pose proof (Qabs_nonneg dev); lra).
    apply Qfloor_nonneg. pose proof (Qabs_nonneg dev); lra. }
  assert (Hf : (0 <= fbps)%Z).
  { unfold fbps. rewrite ArbitrageProofs.py_int_nonneg by lra. apply Qfloor_nonneg. lra. }
  destruct (Qlt_bool 0 dev && Z.leb (min_profit_bps d) (dbps - fbps)) eqn:C1.
  - apply andb_true_iff in C1 as [_ C1]. apply Z.leb_le in C1.
    unfold is_actionable. cbn [sig_type sig_profit_bps ArbitrageType_eqb negb andb].
    assert (A : Z.ltb 10 (dbps - fbps) = true) by (apply Z.ltb_lt; lia).
    assert (B : Z.ltb 10 dbps = true) by (apply Z.ltb_lt; lia). congruence.
  - destruct (Qlt_bool dev 0 && Z.leb (min_profit_bps d) (dbps - fbps)) eqn:C2.
    + apply andb_true_iff in C2 as [_ C2]. apply Z.leb_le in C2.
      unfold is_actionable. cbn [sig_type sig_profit_bps ArbitrageType_eqb negb andb].
      assert (A : Z.ltb 10 (dbps - fbps) = true) by (apply Z.ltb_lt; lia).
      assert (B : Z.ltb 10 dbps = true) by (apply Z.ltb_lt; lia). congruence.
    + rewrite Z.abs_eq by exact Hd.
      destruct (Z.leb SKEW_THRESHOLD_BPS dbps) eqn:C3; unfold is_actionable;
        cbn [sig_type sig_profit_bps ArbitrageType_eqb negb andb]; [reflexivity|].
      unfold SKEW_THRESHOLD_BPS in C3. apply Z.leb_gt in C3.
      symmetry. apply Z.ltb_ge. lia.
Qed.

Lemma check_pair_actionable_witness :
  (10 < min_profit_bps (mkDetector (1 # 1000) 20))%Z /\ 0 <= fee_rate (mkDetector (1 # 1000) 20) /\
  is_actionable (check_pair (mkDetector (1 # 1000) 20) (51 # 100) (50 # 100) Samples.pair_sample) =
    Z.ltb 10 (py_int (Qabs ((51 # 100) + (50 # 100) - 1) * 10000)).
Proof.
  assert (H1 : (10 < min_profit_bps (mkDetector (1 # 1000) 20))%Z) by (vm_compute; reflexivity).
  assert (H2 : 0 <= fee_rate (mkDetector (1 # 1000) 20)) by (vm_compute; discriminate).
  split; [exact H1|]. split; [exact H2|].
  exact (check_pair_actionable _ _ _ _ H1 H2).
Defined.

Lemma scan_loop_signals (d : ArbitrageDetector) (pg : string -> option Q) :
  forall ps sigs last,
  fst (scan_loop d pg ps sigs last) =
    sigs ++ List.filter is_actionable
      (flat_map (fun kp => match pg (yes_token_id (snd kp)), pg (no_token_id (snd kp)) with
                           | Some y, Some n => [check_pair d y n (snd kp)]
                           | _, _ => []
                           end) ps).
Proof.
  induction ps as [|[cid tp] rest IH]; intros sigs last; cbn [scan_loop flat_map snd].
  - rewrite app_nil_r. reflexivity.
  - destruct (pg (yes_token_id tp)), (pg (no_token_id tp)); cbn [app List.filter];
      rewrite ?IH, ?app_nil_r; try reflexivity.
    destruct (is_actionable _); rewrite IH; [rewrite <- app_assoc|]; reflexivity.
Qed.

Lemma find_app {A} (f : A -> bool) (l1 l2 : list A) :
  List.find f (l1 ++ l2) = match List.find f l1 with Some x => Some x | None => List.find f l2 end.
Proof. induction l1 as [|x l1 IH]; simpl; [reflexivity|]. destruct (f x); [reflexivity|exact IH]. Qed.

Lemma scan_loop_last (d : ArbitrageDetector) (pg : string -> option Q) :
  forall ps sigs last cid,
  snd (scan_loop d pg ps sigs last) !! cid =
    match List.find (fun kp => String.eqb (fst kp) cid) (rev (List.filter (fun kp =>
            match pg (yes_token_id (snd kp)), pg (no_token_id (snd kp)) with
            | Some y, Some n => is_actionable (check_pair d y n (snd kp))
            | _, _ => false
            end) ps)) with
    | Some (_, tp) =>
        match pg (yes_token_id tp), pg (no_token_id tp) with
        | Some y, Some n => Some (check_pair d y n tp)
        | _, _ => last !! cid
        end
    | None => last !! cid
    end.
Proof.
  induction ps as [|[k tp] rest IH]; intros sigs last cid; cbn [scan_loop List.filter fst snd].
  - reflexivity.
  - destruct (pg (yes_token_id tp)) as [y|] eqn:Y, (pg (no_token_id tp)) as [n|] eqn:N;
      try apply IH.
    destruct (is_actionable (check_pair d y n tp)) eqn:A; [|apply IH].
    rewrite IH. cbn [rev]. rewrite find_app. cbn [List.find fst].
    destruct (List.find _ _) as [[k' tp']|] eqn:F.
    + apply List.find_some in F as [Fin _]. apply in_rev, filter_In in Fin as [_ Pf].
      cbn [snd] in Pf. destruct (pg (yes_token_id tp')), (pg (no_token_id tp')); try discriminate.
      reflexivity.
    + destruct (String.eqb_spec k cid) as [->|Hne].
      * rewrite Y, N. apply lookup_insert_eq.
      * apply lookup_insert_ne. exact Hne.
Qed.

Lemma nodup_key_unique {A B} (l : list (A * B)) (k : A) (v v' : B) :
  List.NoDup (map fst l) -> In (k, v) l -> In (k, v') l -> v = v'.
Proof.
  induction l as [|[k0 w] l IH]; intros Hnd H1 H2; [contradiction|].
  inversion Hnd as [|? ? Hk Hr]; subst.
  destruct H1 as [E1|H1], H2 as [E2|H2].
  - congruence.
  - injection E1 as -> ->. exfalso. apply Hk. apply in_map_iff. exists (k, v'). auto.
  - injection E2 as -> ->. exfalso. apply Hk. apply in_map_iff. exists (k, v). auto.
  - apply IH; assumption.
Qed.

(** Extra: [scan_all] returns, sorted by [profit_bps] from high to low,
    exactly the actionable [check_pair] signals of the registered pairs
    whose two prices are known (a permutation of them in registration
    order); pairs with a missing price are skipped.  It keeps the
    registered pairs and, for a pair with an actionable signal, stores that
    signal as the pair's last signal; other pairs' last signals are left
    as they were.  It never stores a signal that is not actionable. *)
Theorem scan_all_spec (d : ArbitrageDetector) (st : DetectorState) (pg : string -> option Q)
    (Hkeys : List.NoDup (map fst (pairs st))) :
  let found := List.filter is_actionable
      (flat_map (fun kp => match pg (yes_token_id (snd kp)), pg (no_token_id (snd kp)) with
                           | Some y, Some n => [check_pair d y n (snd kp)]
                           | _, _ => []
                           end) (pairs st)) in
  let '(sigs, st') := scan_all d st pg in
  Permutation sigs found /\
  StronglySorted (fun a b => (sig_profit_bps b <= sig_profit_bps a)%Z) sigs /\
  Forall (fun s => is_actionable s = true) sigs /\
  pairs st' = pairs st /\
  (forall cid tp, In (cid, tp) (pairs st) ->
     last_signals st' !! cid =
       match pg (yes_token_id tp), pg (no_token_id tp) with
       | Some y, Some n =>
           if is_actionable (check_pair d y n tp) then Some (check_pair d y n tp)
           else last_signals st !! cid
       | _, _ => last_signals st !! cid
       end) /\
  (forall cid, ~ In cid (map fst (pairs st)) -> last_signals st' !! cid = last_signals st !! cid).
Proof.
  cbv zeta. unfold scan_all.
  pose proof (scan_loop_signals d pg (pairs st) [] (last_signals st)) as HS.
  pose proof (scan_loop_last d pg (pairs st) [] (last_signals st)) as HL.
  destruct (scan_loop d pg (pairs st) [] (last_signals st)) as [sigs last] eqn:E.
  cbn [fst snd app] in HS, HL |- *. subst sigs.
  set (R := fun a b : ArbitrageSignal => (sig_profit_bps b <= sig_profit_bps a)%Z).
  assert (B1 : forall a b, Z.ltb (sig_profit_bps b) (sig_profit_bps a) = true -> R a b).
  { intros a b H. apply Z.ltb_lt in H. unfold R. lia. }
  assert (B2 : forall a b, Z.ltb (sig_profit_bps b) (sig_profit_bps a) = false -> R b a).
  { intros a b H. apply Z.ltb_ge in H. unfold R. lia. }
  assert (B3 : forall a b c, R a b -> R b c -> R a c) by (unfold R; intros; lia).
  split; [apply DataStoreExtra.sort_by_perm|].
  split; [apply (DataStoreExtra.sort_by_sorted _ R B1 B2 B3)|].
  split.
  { eapply Permutation_Forall; [symmetry; apply DataStoreExtra.sort_by_perm|].
    apply Forall_forall. intros x Hx. apply list_elem_of_In, filter_In in Hx. apply Hx. }
  split; [reflexivity|]. cbn [last_signals]. split.
  - intros cid tp Hin. rewrite HL.
    set (P := fun kp : string * TokenPair =>
            match pg (yes_token_id (snd kp)), pg (no_token_id (snd kp)) with
            | Some y, Some n => is_actionable (check_pair d y n (snd kp))
            | _, _ => false
            end).
    assert (Hnd : List.NoDup (map fst (rev (List.filter P (pairs st))))).
    { rewrite map_rev. apply List.NoDup_rev.
      clear -Hkeys. induction (pairs st) as [|[k v] rest IH]; [constructor|].
      inversion Hkeys as [|? ? Hk Hr]; subst. cbn [List.filter].
      destruct (P (k, v)); [|apply IH, Hr]. constructor; [|apply IH, Hr].
      intros Hin. apply Hk. apply in_map_iff in Hin as [[k' v'] [Ek Hin']].
      apply filter_In in Hin' as [Hin' _]. apply in_map_iff. exists (k', v'). auto. }
    destruct (P (cid, tp)) eqn:Pc.
    + assert (Hin' : In (cid, tp) (rev (List.filter P (pairs st))))
        by (apply in_rev; rewrite rev_involutive; apply filter_In; auto).
      destruct (List.find (fun kp => String.eqb (fst kp) cid) (rev (List.filter P (pairs st))))
        as [[k tp']|] eqn:F.
      * apply List.find_some in F as [Fin Fk]. cbn [fst] in Fk. apply String.eqb_eq in Fk. subst k.
        assert (tp' = tp).
        { exact (nodup_key_unique _ _ _ _ Hnd Fin Hin'). }
        subst tp'. unfold P in Pc. cbn [snd] in Pc.
        destruct (pg (yes_token_id tp)), (pg (no_token_id tp)); try discriminate. rewrite Pc. reflexivity.
      * exfalso. apply (List.find_none _ _ F) in Hin'. cbn [fst] in Hin'.
        rewrite String.eqb_refl in Hin'. discriminate.
    + assert (Hno : List.find (fun kp => String.eqb (fst kp) cid) (rev (List.filter P (pairs st))) = None).
      { destruct (List.find _ _) as [[k tp']|] eqn:F; [|reflexivity]. exfalso.
        apply List.find_some in F as [Fin Fk]. cbn [fst] in Fk. apply String.eqb_eq in Fk. subst k.
        apply in_rev in Fin. apply filter_In in Fin as [Fin Pt].
        assert (tp' = tp).
        { exact (nodup_key_unique _ _ _ _ Hkeys Fin Hin). }
        subst tp'. congruence. }
      rewrite Hno. unfold P in Pc. cbn [snd] in Pc.
      destruct (pg (yes_token_id tp)), (pg (no_token_id tp)); try reflexivity. rewrite Pc. reflexivity.
  - intros cid Hn. rewrite HL.
    destruct (List.find _ _) as [[k tp]|] eqn:F; [|reflexivity]. exfalso. apply Hn.
    apply List.find_some in F as [Fin Fk]. cbn [fst] in Fk. apply String.eqb_eq in Fk. subst k.
    apply in_rev in Fin. apply filter_In in Fin as [Fin _]. apply in_map_iff. exists (cid, tp). auto.
Qed.

Lemma scan_all_spec_witness :
  List.NoDup (map fst (pairs Samples.arb_state)) /\
  map sig_profit_bps (fst (scan_all (mkDetector (1 # 1000) 20) Samples.arb_state Samples.arb_prices))
    = [580; 180]%Z /\
  last_signals (snd (scan_all (mkDetector (1 # 1000) 20) Samples.arb_state Samples.arb_prices))
    !! "cond4" = Some Samples.arb_old /\
  (let found := List.filter is_actionable
      (flat_map (fun kp => match Samples.arb_prices (yes_token_id (snd kp)),
                                 Samples.arb_prices (no_token_id (snd kp)) with
                           | Some y, Some n => [check_pair (mkDetector (1 # 1000) 20) y n (snd kp)]
                           | _, _ => []
                           end) (pairs Samples.arb_state)) in
   let '(sigs, st') := scan_all (mkDetector (1 # 1000) 20) Samples.arb_state Samples.arb_prices in
   Permutation sigs found /\
   StronglySorted (fun a b => (sig_profit_bps b <= sig_profit_bps a)%Z) sigs /\
   Forall (fun s => is_actionable s = true) sigs /\
   pairs st' = pairs Samples.arb_state /\
   (forall cid tp, In (cid, tp) (pairs Samples.arb_state) ->
      last_signals st' !! cid =
        match Samples.arb_prices (yes_token_id tp), Samples.arb_prices (no_token_id tp) with
        | Some y, Some n =>
            if is_actionable (check_pair (mkDetector (1 # 1000) 20) y n tp)
            then Some (check_pair (mkDetector (1 # 1000) 20) y n tp)
            else last_signals Samples.arb_state !! cid
        | _, _ => last_signals Samples.arb_state !! cid
        end) /\
   (forall cid, ~ In cid (map fst (pairs Samples.arb_state)) ->
      last_signals st' !! cid = last_signals Samples.arb_state !! cid)).
Proof.
  assert (H : List.NoDup (map fst (pairs Samples.arb_state))).
  { vm_compute.
    constructor; [intros [E|[E|[E|[]]]]; discriminate E|].
    constructor; [intros [E|[E|[]]]; discriminate E|].
    constructor; [intros [E|[]]; discriminate E|].
    constructor; [intros []|constructor]. }
  split; [exact H|]. split; [vm_compute; reflexivity|]. split; [vm_compute; reflexivity|].
  exact (scan_all_spec (mkDetector (1 # 1000) 20) Samples.arb_state Samples.arb_prices H).
Defined.

Lemma quote_loop_cases (last : gmap string ArbitrageSignal) (tok : string) (bid ask : Q) :
  forall ps,
  let r := quote_loop last tok bid ask ps in
  (r = (bid, ask) \/ r = (bid - (5 # 1000), ask - (5 # 1000) * 2) \/
   r = (bid + (5 # 1000) * 2, ask + (5 # 1000))) /\
  ((forall cid tp sg, In (cid, tp) ps -> (tok = yes_token_id tp \/ tok = no_token_id tp) ->
      last !! cid = Some sg -> sig_type sg <> SKEW_QUOTES) -> r = (bid, ask)).
Proof.
  induction ps as [|[cid tp] rest IH]; cbv zeta in *; cbn [quote_loop].
  - auto.
  - destruct (String.eqb tok (yes_token_id tp) || String.eqb tok (no_token_id tp)) eqn:M;
      cbn [negb].
    + destruct (last !! cid) as [sg|] eqn:L.
      * destruct (sig_type sg) eqn:T; try (destruct IH as [IH1 IH2]; split; [exact IH1|];
          intros Hn; apply IH2; intros; eapply Hn; eauto using in_cons).
        split.
        -- destruct (Qlt_bool 1 (sig_sum_price sg)); auto.
        -- intros Hn. exfalso. apply (Hn cid tp sg); [left; reflexivity| |exact L|exact T].
           apply orb_true_iff in M as [M|M]; apply String.eqb_eq in M; auto.
      * destruct IH as [IH1 IH2]. split; [exact IH1|]. intros Hn. apply IH2.
        intros; eapply Hn; eauto using in_cons.
    + destruct IH as [IH1 IH2]. split; [exact IH1|]. intros Hn. apply IH2.
      intros; eapply Hn; eauto using in_cons.
Qed.

(** Extra: [get_quote_adjustment] either returns the base quotes, or moves
    both down (bid by 0.005, ask by 0.01) or both up (bid by 0.01, ask by
    0.005); in the last two cases the spread narrows by exactly 0.005.  It
    returns the base quotes whenever no registered pair containing the
    token has a stored SKEW_QUOTES signal (in particular for a token of no
    registered pair). *)
Theorem get_quote_adjustment_spec (st : DetectorState) (tok : string) (bid ask : Q) :
  let '(b', a') := get_quote_adjustment st tok bid ask in
  ((b', a') = (bid, ask) \/
   (b' == bid - (5 # 1000) /\ a' == ask - (1 # 100) /\ a' - b' == ask - bid - (5 # 1000)) \/
   (b' == bid + (1 # 100) /\ a' == ask + (5 # 1000) /\ a' - b' == ask - bid - (5 # 1000))) /\
  ((forall cid tp sg, In (cid, tp) (pairs st) -> (tok = yes_token_id tp \/ tok = no_token_id tp) ->
      last_signals st !! cid = Some sg -> sig_type sg <> SKEW_QUOTES) ->
   (b', a') = (bid, ask)).
Proof.
  unfold get_quote_adjustment.
  destruct (quote_loop_cases (last_signals st) tok bid ask (pairs st)) as [C1 C2].
  destruct (quote_loop _ _ _ _ _) as [b' a'].
  split; [|exact C2].
  destruct C1 as [E|[E|E]]; [left; exact E| right; left | right; right];
    injection E as -> ->; repeat split; ring.
Qed.

End ArbitrageExtra.

Module KellyExtra.
Import Kelly.

Lemma filter_nil_forall {A} (f : A -> bool) (l : list A) :
  (forall x, In x l -> f x = false) -> List.filter f l = [].
Proof.
  induction l as [|x l IH]; intros H; [reflexivity|]. cbn.
  rewrite (H x (or_introl eq_refl)). apply IH. intros y Hy. apply H. right. exact Hy.
Qed.

(** Extra: [calculate_from_trades] returns 0 when there are fewer trades
    than the default minimum (no [min_trades] given, or 0), when no trade
    lost, and when no trade won (break-even trades count as neither);
    with [fraction >= 0] and [max_position_pct >= 0] its result always lies
    in [[0, max_position_pct]]. *)
Theorem calculate_from_trades_spec (k : KellyCalculator) (trades : list Q) (m : option Z)
  (Hf : 0 <= fraction k) (Hm : 0 <= max_position_pct k) :
  0 <= calculate_from_trades k trades m <= max_position_pct k /\
  ((Z.of_nat (length trades) < MIN_TRADES_FOR_KELLY)%Z -> (m = None \/ m = Some 0%Z) ->
     calculate_from_trades k trades m = 0) /\
  ((forall t, In t trades -> 0 <= t) -> calculate_from_trades k trades m = 0) /\
  ((forall t, In t trades -> t <= 0) -> calculate_from_trades k trades m = 0).
Proof.
  split; [|split; [|split]].
  - unfold calculate_from_trades. cbv zeta.
    destruct (Z.ltb _ _); [lra|].
    destruct (List.filter _ trades) as [|w ws]; [lra|].
    destruct (List.filter _ trades) as [|l ls]; [lra|].
    destruct (Qeq_bool _ 0); [lra|].
    apply KellyProofs.calculate_range; assumption.
  - intros Hl Hmm. unfold calculate_from_trades. cbv zeta.
    destruct Hmm as [-> | ->]; cbn [Z.eqb]; apply Z.ltb_lt in Hl; rewrite Hl; reflexivity.
  - intros H. unfold calculate_from_trades. cbv zeta.
    destruct (Z.ltb _ _); [reflexivity|].
    rewrite (filter_nil_forall (fun t => Qlt_bool t 0)).
    + destruct (List.filter _ trades); reflexivity.
    + intros t Ht. apply Bool.not_true_iff_false. intros Hlt.
      apply RiskProofs.Qlt_bool_iff in Hlt. specialize (H t Ht). lra.
  - intros H. unfold calculate_from_trades. cbv zeta.
    destruct (Z.ltb _ _); [reflexivity|].
    rewrite (filter_nil_forall (fun t => Qlt_bool 0 t)); [reflexivity|].
    intros t Ht. apply Bool.not_true_iff_false. intros Hlt.
    apply RiskProofs.Qlt_bool_iff in Hlt. specialize (H t Ht). lra.
Qed.

Lemma calculate_from_trades_spec_witness :
  0 <= fraction Samples.k_sample /\ 0 <= max_position_pct Samples.k_sample /\
  0 < calculate_from_trades Samples.k_sample Samples.trades_sample None /\
  (0 <= calculate_from_trades Samples.k_sample Samples.trades_sample None <= max_position_pct Samples.k_sample /\
   ((Z.of_nat (length Samples.trades_sample) < MIN_TRADES_FOR_KELLY)%Z ->
      (@None Z = None \/ @None Z = Some 0%Z) ->
      calculate_from_trades Samples.k_sample Samples.trades_sample None = 0) /\
   ((forall t, In t Samples.trades_sample -> 0 <= t) ->
      calculate_from_trades Samples.k_sample Samples.trades_sample None = 0) /\
   ((forall t, In t Samples.trades_sample -> t <= 0) ->
      calculate_from_trades Samples.k_sample Samples.trades_sample None = 0)).
Proof.
  assert (Hf : 0 <= fraction Samples.k_sample) by (vm_compute; discriminate).
  assert (Hm : 0 <= max_position_pct Samples.k_sample) by (vm_compute; discriminate).
  split; [exact Hf|]. split; [exact Hm|]. split; [vm_compute; reflexivity|].
  exact (calculate_from_trades_spec Samples.k_sample Samples.trades_sample None Hf Hm).
Defined.

Lemma py_min_fl_zero (f m : Q) : 0 <= m -> py_min (F64.fl (0 * f)) m = 0.
Proof.
  intros Hm. rewrite (KellyProofs.fl_zero (0 * f)) by ring. unfold py_min.
  destruct (Qlt_bool m 0) eqn:E; [apply RiskProofs.Qlt_bool_iff in E; lra | reflexivity].
Qed.

Lemma Qlt_bool_neg_le (a b : Q) : Qlt_bool a b = negb (Qle_bool b a).
Proof. reflexivity. Qed.

(** Extra: for [0 < win_rate < 1], [max_position_pct >= 0], a set bankroll
    and a non-zero price, [get_result] agrees with the other entry points:
    its [applied_kelly] equals [calculate], its [full_kelly] is
    [max(0, f_star)] when [win_loss_ratio > 0], with [f_star] evaluated in
    floating point as [calculate] does, and it fails exactly when
    [get_position_size] fails, with the same error, and otherwise
    recommends the same number of shares. *)
Theorem get_result_agrees (k : KellyCalculator) (w b pr br : Q)
  (Hbr : bankroll k = Some br) (Hw : 0 < w < 1) (Hm : 0 <= max_position_pct k)
  (Hp : ~ pr == 0) :
  match get_result k w b (Some pr), get_position_size k w b pr with
  | inl r, inl n =>
      applied_kelly r == calculate k w b /\ recommended_size r = n /\
      (0 < b -> full_kelly r == Qmax 0 (F64.fl (F64.fl (F64.fl (w * b) - F64.fl (1 - w)) / b)))
  | inr e1, inr e2 => e1 = e2
  | _, _ => False
  end.
Proof.
  assert (Hdiv0 : forall x, x == 0 -> Dec.div x pr = inl 0).
  { intros x Hx. unfold Dec.div.
    destruct (Qeq_bool pr 0) eqn:E; [apply Qeq_bool_iff in E; contradiction|].
    unfold Dec.round_ctx. rewrite (proj2 (Qeq_bool_iff (x / pr) 0)); [reflexivity|].
    rewrite Hx. unfold Qdiv. apply Qmult_0_l. }
  assert (Hmul0 : forall a, br == 0 -> Dec.mul br a == 0).
  { intros a Ha. unfold Dec.mul, Dec.round_ctx.
    rewrite (proj2 (Qeq_bool_iff (br * a) 0)); [reflexivity|]. rewrite Ha. apply Qmult_0_l. }
  unfold get_result, get_position_size, calculate. rewrite Hbr. cbv zeta.
  destruct (Qle_bool w 0) eqn:E1; [apply Qle_bool_iff in E1; exfalso; lra|].
  destruct (Qle_bool 1 w) eqn:E2; [apply Qle_bool_iff in E2; exfalso; lra|].
  cbn [orb].
  destruct (Qle_bool b 0) eqn:E3.
  - (* non-positive ratio *)
    apply Qle_bool_iff in E3.
    assert (Eb : Qlt_bool 0 b = false)
      by (rewrite Qlt_bool_neg_le, (proj2 (Qle_bool_iff b 0) E3); reflexivity).
    rewrite Eb, (py_min_fl_zero (fraction k) _ Hm).
    change (Qlt_bool 0 0) with false. rewrite andb_false_r. cbn.
    split; [reflexivity | split; [reflexivity | intros; exfalso; lra]].
  - assert (Eb : Qlt_bool 0 b = true) by (rewrite Qlt_bool_neg_le, E3; reflexivity).
    assert (Hb : 0 < b) by (apply RiskProofs.Qlt_bool_iff; exact Eb).
    rewrite Eb. set (fs := F64.fl (F64.fl (F64.fl (w * b) - F64.fl (1 - w)) / b)).
    change (Qlt_bool 0 fs) with (negb (Qle_bool fs 0)).
    destruct (Qle_bool fs 0) eqn:E4; cbn [negb].
    + (* no edge *)
      apply Qle_bool_iff in E4.
      rewrite (py_min_fl_zero (fraction k) _ Hm).
      change (Qlt_bool 0 0) with false. rewrite andb_false_r. cbn.
      split; [reflexivity | split; [reflexivity|]].
      intros _. rewrite Q.max_l by exact E4. reflexivity.
    + assert (Hfs : 0 < fs)
        by (apply RiskProofs.Qlt_bool_iff; unfold Qlt_bool; rewrite E4; reflexivity).
      set (a := py_min (F64.fl (fs * fraction k)) (max_position_pct k)).
      destruct (Qle_bool a 0) eqn:E5.
      * (* edge, but a non-positive applied fraction *)
        rewrite Qlt_bool_neg_le, E5, andb_false_r. cbn.
        split; [reflexivity | split; [reflexivity|]].
        intros _. rewrite Q.max_r by lra. reflexivity.
      * rewrite Qlt_bool_neg_le, E5, andb_true_r.
        destruct (truthy (Some br)) eqn:Tb; cbn [andb].
        -- destruct (truthy (Some pr)) eqn:Tp.
           ++ destruct (Dec.div (Dec.mul br (F64.float_repr a)) pr) as [sh|e]; [|reflexivity].
              destruct (Dec.quantize1 sh) as [n|e]; [|reflexivity].
              split; [reflexivity | split; [reflexivity|]].
              intros _. rewrite Q.max_r by lra. reflexivity.
           ++ exfalso. unfold truthy in Tp. apply Bool.negb_false_iff, Qeq_bool_iff in Tp.
              contradiction.
        -- unfold truthy in Tb. apply Bool.negb_false_iff, Qeq_bool_iff in Tb.
           assert (Hd : Dec.div (Dec.mul br (F64.float_repr a)) pr = inl 0)
             by (apply Hdiv0, Hmul0, Tb).
           rewrite Hd. cbn.
           split; [reflexivity | split; [reflexivity|]].
           intros _. rewrite Q.max_r by lra. reflexivity.
Qed.

Lemma get_result_agrees_witness :
  Kelly.bankroll Samples.k_sample = Some 10000 /\ 0 < F64.fl (55 # 100) < 1 /\
  0 <= max_position_pct Samples.k_sample /\ ~ 1 # 2 == 0 /\
  match get_result Samples.k_sample (F64.fl (55 # 100)) (F64.fl (12 # 10)) (Some (1 # 2)),
        get_position_size Samples.k_sample (F64.fl (55 # 100)) (F64.fl (12 # 10)) (1 # 2) with
  | inl r, inl n =>
      applied_kelly r == calculate Samples.k_sample (F64.fl (55 # 100)) (F64.fl (12 # 10)) /\
      recommended_size r = n /\
      (0 < F64.fl (12 # 10) ->
       full_kelly r == Qmax 0 (F64.fl (F64.fl (F64.fl (F64.fl (55 # 100) * F64.fl (12 # 10))
                                               - F64.fl (1 - F64.fl (55 # 100))) / F64.fl (12 # 10))))
  | inr e1, inr e2 => e1 = e2
  | _, _ => False
  end.
Proof.
  assert (H1 : Kelly.bankroll Samples.k_sample = Some 10000) by reflexivity.
  assert (H2 : 0 < F64.fl (55 # 100) < 1) by (split; vm_compute; reflexivity).
  assert (H3 : 0 <= max_position_pct Samples.k_sample) by (vm_compute; discriminate).
  assert (H4 : ~ 1 # 2 == 0) by (vm_compute; discriminate).
  split; [exact H1|]. split; [exact H2|]. split; [exact H3|]. split; [exact H4|].
  exact (get_result_agrees Samples.k_sample (F64.fl (55 # 100)) (F64.fl (12 # 10)) (1 # 2) 10000
           H1 H2 H3 H4).
Defined.

(** Extra: [get_result] never raises for a missing bankroll or a missing
    or zero price: it then recommends 0 shares, where [get_position_size]
    raises [ValueError] (no bankroll) or one of Decimal's division errors,
    [DivisionByZero] or [InvalidOperation], at price 0 with a positive
    Kelly fraction. *)
Theorem get_result_missing_inputs (k : KellyCalculator) (w b : Q) (price : option Q) :
  (bankroll k = None \/ price = None \/ price = Some 0) ->
  (exists r, get_result k w b price = inl r /\ recommended_size r = 0%Z) /\
  (bankroll k = None -> forall pr, get_position_size k w b pr = inr Dec.ValueError) /\
  (forall br, bankroll k = Some br -> 0 < calculate k w b ->
     exists e, get_position_size k w b 0 = inr e /\
               (e = Dec.DivisionByZero \/ e = Dec.InvalidOperation)).
Proof.
  intros H. split; [|split].
  - unfold get_result. cbv zeta.
    destruct (bankroll k) as [br|]; [|eexists; split; reflexivity].
    destruct price as [pr|]; [|eexists; split; reflexivity].
    destruct H as [H|[H|H]]; try discriminate. injection H as Hp. subst pr.
    simpl. rewrite andb_false_r. cbn [andb]. eexists; split; reflexivity.
  - intros Hn pr. unfold get_position_size. rewrite Hn. reflexivity.
  - intros br Hbr Hpos. unfold get_position_size. rewrite Hbr. cbv zeta.
    destruct (Qle_bool (calculate k w b) 0) eqn:E; [apply Qle_bool_iff in E; lra|].
    unfold Dec.div. replace (Qeq_bool 0 0) with true by reflexivity.
    destruct (Qeq_bool (Dec.mul br (F64.float_repr (calculate k w b))) 0).
    + eexists. split; [reflexivity | right; reflexivity].
    + eexists. split; [reflexivity | left; reflexivity].
Qed.

Lemma get_result_missing_inputs_witness :
  (Kelly.bankroll Samples.k_sample = None \/ Some (0 : Q) = None \/ Some (0 : Q) = Some 0) /\
  Kelly.bankroll Samples.k_sample = Some 10000 /\
  0 < calculate Samples.k_sample (F64.fl (55 # 100)) (F64.fl (12 # 10)) /\
  ((exists r, get_result Samples.k_sample (F64.fl (55 # 100)) (F64.fl (12 # 10)) (Some 0) = inl r /\
              recommended_size r = 0%Z) /\
   (Kelly.bankroll Samples.k_sample = None ->
      forall pr, get_position_size Samples.k_sample (F64.fl (55 # 100)) (F64.fl (12 # 10)) pr
                 = inr Dec.ValueError) /\
   (forall br, Kelly.bankroll Samples.k_sample = Some br ->
      0 < calculate Samples.k_sample (F64.fl (55 # 100)) (F64.fl (12 # 10)) ->
      exists e, get_position_size Samples.k_sample (F64.fl (55 # 100)) (F64.fl (12 # 10)) 0 = inr e /\
                (e = Dec.DivisionByZero \/ e = Dec.InvalidOperation))).
Proof.
  assert (H : Kelly.bankroll Samples.k_sample = None \/ Some (0 : Q) = None \/
              Some (0 : Q) = Some 0) by (right; right; reflexivity).
  split; [exact H|]. split; [reflexivity|]. split; [vm_compute; reflexivity|].
  exact (get_result_missing_inputs Samples.k_sample (F64.fl (55 # 100)) (F64.fl (12 # 10)) (Some 0) H).
Defined.

(** Extra: unlike [calculate], [get_result] does not reject
    [win_rate >= 1]: with a positive float [win_loss_ratio] and positive
    [fraction] (a double) and [max_position_pct] it reports a positive
    [applied_kelly] there, while [calculate] (and so [get_position_size])
    gives 0. *)
Theorem get_result_win_rate_one (k : KellyCalculator) (w b : Q)
  (Hw : 1 <= w) (Hb : 0 < b) (Hbd : F64.is_double b = true)
  (Hf : 0 < fraction k) (Hfd : F64.is_double (fraction k) = true)
  (Hm : 0 < max_position_pct k) :
  calculate k w b = 0 /\
  exists r, get_result k w b None = inl r /\ 0 < applied_kelly r.
Proof.
  split.
  - unfold calculate. rewrite (proj2 (Qle_bool_iff 1 w) Hw), orb_true_r. reflexivity.
  - unfold get_result. cbv zeta.
    assert (P1 : b <= F64.fl (w * b)).
    { apply KellyProofs.fl_ge; [exact Hbd | exact Hb|].
      rewrite <- (Qmult_1_l b) at 1. apply Qmult_le_compat_r; lra. }
    assert (Q1 : F64.fl (1 - w) <= 0) by (apply KellyProofs.fl_nonpos; lra).
    assert (P2 : b <= F64.fl (F64.fl (w * b) - F64.fl (1 - w)))
      by (apply KellyProofs.fl_ge; [exact Hbd | exact Hb | lra]).
    set (y := F64.fl (F64.fl (w * b) - F64.fl (1 - w))) in *.
    assert (P3 : 1 <= F64.fl (y / b)).
    { apply KellyProofs.fl_ge; [reflexivity | reflexivity|].
      apply Qle_shift_div_l; [exact Hb | lra]. }
    set (x := F64.fl (y / b)) in *.
    assert (P4 : fraction k <= F64.fl (x * fraction k)).
    { apply KellyProofs.fl_ge; [exact Hfd | exact Hf|].
      rewrite <- (Qmult_1_l (fraction k)) at 1. apply Qmult_le_compat_r; lra. }
    rewrite (proj2 (RiskProofs.Qlt_bool_iff 0 b) Hb), (proj2 (RiskProofs.Qlt_bool_iff 0 x) ltac:(lra)).
    destruct (bankroll k) eqn:Hbr; eexists; (split; [reflexivity|]); cbn [applied_kelly];
      unfold py_min; destruct (Qlt_bool _ _); lra.
Qed.

Lemma get_result_win_rate_one_witness :
  1 <= 1 /\ 0 < F64.fl (12 # 10) /\ F64.is_double (F64.fl (12 # 10)) = true /\
  0 < fraction Samples.k_sample /\ F64.is_double (fraction Samples.k_sample) = true /\
  0 < max_position_pct Samples.k_sample /\
  (calculate Samples.k_sample 1 (F64.fl (12 # 10)) = 0 /\
   exists r, get_result Samples.k_sample 1 (F64.fl (12 # 10)) None = inl r /\ 0 < applied_kelly r).
Proof.
  assert (H1 : 1 <= 1) by lra.
  assert (H2 : 0 < F64.fl (12 # 10)) by (vm_compute; reflexivity).
  assert (H3 : F64.is_double (F64.fl (12 # 10)) = true) by (vm_compute; reflexivity).
  assert (H4 : 0 < fraction Samples.k_sample) by (vm_compute; reflexivity).
  assert (H5 : F64.is_double (fraction Samples.k_sample) = true) by (vm_compute; reflexivity).
  assert (H6 : 0 < max_position_pct Samples.k_sample) by (vm_compute; reflexivity).
  split; [exact H1|]. split; [exact H2|]. split; [exact H3|].
  split; [exact H4|]. split; [exact H5|]. split; [exact H6|].
  exact (get_result_win_rate_one Samples.k_sample 1 (F64.fl (12 # 10)) H1 H2 H3 H4 H5 H6).
Defined.

End KellyExtra.

Module CorrelationExtra.
Import Correlation CorrelationSpec.

Lemma corr_key_comm (a b : string) : corr_key a b = corr_key b a.
Proof.
  unfold corr_key.
  destruct (String.leb a b) eqn:E1, (String.leb b a) eqn:E2; try reflexivity.
  - rewrite (String.leb_antisym a b E1 E2). reflexivity.
  - destruct (String.leb_total a b); congruence.
Qed.

Lemma corr_key_cases (a b : string) : corr_key a b = (a, b) \/ corr_key a b = (b, a).
Proof. unfold corr_key. destruct (String.leb a b); auto. Qed.

Lemma corr_key_eq (a b x y : string) :
  corr_key x y = corr_key a b <-> (x = a /\ y = b) \/ (x = b /\ y = a).
Proof.
  split.
  - intros E. unfold corr_key in E.
    destruct (String.leb x y) eqn:E1, (String.leb a b) eqn:E2; injection E as <- <-; auto.
  - intros [[-> ->]|[-> ->]]; [reflexivity | apply corr_key_comm].
Qed.

(** Extra: [PortfolioRisk.get_correlation] is symmetric in its two
    markets, and after [set_correlation(a, b, c)] it returns [c] for the
    pair [{a, b}] in either order and the previous value for every other
    pair. *)
Theorem correlation_set_get (r : PortfolioRisk) (a b x y : string) (c : Q) :
  get_correlation r x y = get_correlation r y x /\
  get_correlation (set_correlation r a b c) x y =
    if (String.eqb x a && String.eqb y b) || (String.eqb x b && String.eqb y a)
    then c else get_correlation r x y.
Proof.
  split.
  - unfold get_correlation. rewrite corr_key_comm. reflexivity.
  - unfold get_correlation, set_correlation. cbn [correlations].
    destruct ((String.eqb x a && String.eqb y b) || (String.eqb x b && String.eqb y a)) eqn:E.
    + assert (K : corr_key x y = corr_key a b).
      { apply corr_key_eq. apply orb_true_iff in E as [E|E]; apply andb_true_iff in E as [E1 E2];
          apply String.eqb_eq in E1, E2; auto. }
      rewrite K, lookup_insert_eq. reflexivity.
    + rewrite lookup_insert_ne; [reflexivity|].
      intros K. symmetry in K. apply corr_key_eq in K.
      destruct K as [[-> ->]|[-> ->]]; rewrite !String.eqb_refl in E;
        [discriminate | rewrite orb_true_r in E; discriminate].
Qed.

Section Beta.
Variable r : PortfolioRisk.
Hypothesis Hc : forall k v, correlations r !! k = Some v -> -1 <= v <= 1.
Variable P : list (string * Q).
Variable T : Q.
Hypothesis HT : 0 < T.

Lemma weight_nonneg (v : Q) : 0 <= weight T v.
Proof.
  unfold weight. apply Qle_shift_div_l; [exact HT|]. rewrite Qmult_0_l. apply Qabs_nonneg.
Qed.

Lemma sum_weights_nonneg (l : list (string * Q)) : 0 <= sum_weights T l.
Proof.
  induction l as [|[k v] l IH]; cbn [sum_weights fold_right snd]; [lra|].
  fold (sum_weights T l). pose proof (weight_nonneg v). lra.
Qed.

Lemma corr_bound (a b : string) : -1 <= get_correlation r a b <= 1.
Proof.
  unfold get_correlation. destruct (correlations r !! corr_key a b) as [v|] eqn:E; cbn.
  - exact (Hc _ _ E).
  - lra.
Qed.

Lemma term_bound (c wa wb : Q) :
  -1 <= c <= 1 -> 0 <= wa -> 0 <= wb -> - (wa * wb) <= c * wa * wb <= wa * wb.
Proof.
  intros [H1 H2] Ha Hb.
  assert (Hp : 0 <= wa * wb) by (apply Qmult_le_0_compat; assumption).
  assert (E : c * wa * wb == c * (wa * wb)) by ring.
  rewrite E. split.
  - assert (L : -1 * (wa * wb) <= c * (wa * wb)) by (apply Qmult_le_compat_r; assumption). lra.
  - assert (L : c * (wa * wb) <= 1 * (wa * wb)) by (apply Qmult_le_compat_r; assumption). lra.
Qed.

Lemma beta_inner_bound (a : string) (va : Q) (Ha : dict_get P a = va) :
  forall rest, (forall k v, In (k, v) rest -> dict_get P k = v) ->
  forall acc,
  acc - weight T va * sum_weights T rest <= beta_inner r P T a (map fst rest) acc <=
  acc + weight T va * sum_weights T rest.
Proof.
  induction rest as [|[b vb] rest IH]; intros Hget acc; cbn [map fst snd beta_inner sum_weights fold_right].
  - lra.
  - rewrite Ha, (Hget b vb (or_introl eq_refl)). cbv zeta.
    pose proof (term_bound (get_correlation r a b) (Qabs va / T) (Qabs vb / T)
                  (corr_bound a b) (weight_nonneg va) (weight_nonneg vb)) as TB.
    destruct (IH (fun k v H => Hget k v (or_intror H)) (acc + get_correlation r a b * (Qabs va / T) * (Qabs vb / T)))
      as [L U].
    cbn [snd]. fold (sum_weights T rest). unfold weight in *. split; lra.
Qed.

Lemma beta_outer_bound :
  forall l, (forall k v, In (k, v) l -> dict_get P k = v) ->
  forall acc, acc - pair_weights T l <= beta_outer r P T (map fst l) acc <= acc + pair_weights T l.
Proof.
  induction l as [|[a va] rest IH]; intros Hget acc; cbn [map fst beta_outer pair_weights].
  - lra.
  - destruct (beta_inner_bound a va (Hget a va (or_introl eq_refl)) rest
                (fun k v H => Hget k v (or_intror H)) acc) as [L1 U1].
    destruct (IH (fun k v H => Hget k v (or_intror H))
                (beta_inner r P T a (map fst rest) acc)) as [L2 U2].
    split; lra.
Qed.

Lemma pair_weights_le (l : list (string * Q)) :
  pair_weights T l <= sum_weights T l * sum_weights T l / 2.
Proof.
  induction l as [|[k v] l IH]; cbn [pair_weights sum_weights fold_right snd].
  - unfold Qdiv. rewrite Qmult_0_l, Qmult_0_l. lra.
  - fold (sum_weights T l).
    assert (Hw : 0 <= weight T v * weight T v) by (apply Qmult_le_0_compat; apply weight_nonneg).
    assert (E : (weight T v + sum_weights T l) * (weight T v + sum_weights T l) / 2 ==
                weight T v * weight T v / 2 + weight T v * sum_weights T l + sum_weights T l * sum_weights T l / 2)
      by field.
    rewrite E.
    assert (Hh : 0 <= weight T v * weight T v / 2) by (apply Qle_shift_div_l; [lra|]; lra).
    lra.
Qed.

Lemma sum_weights_total (l : list (string * Q)) (acc : Q) :
  fold_left (fun acc '(_, p) => acc + Qabs p) l acc == acc + sum_weights T l * T.
Proof.
  revert acc. induction l as [|[k v] l IH]; intros acc; cbn [fold_left sum_weights fold_right snd].
  - ring.
  - rewrite IH. fold (sum_weights T l). unfold weight.
    assert (E : Qabs v / T * T == Qabs v) by (unfold Qdiv; field; intros E; rewrite E in HT; discriminate).
    rewrite Qmult_plus_distr_l, E. ring.
Qed.

End Beta.

Lemma dict_get_nodup (positions : list (string * Q)) :
  List.NoDup (map fst positions) -> forall k v, In (k, v) positions -> dict_get positions k = v.
Proof.
  induction positions as [|[m p] rest IH]; intros Hnd k v Hin; [destruct Hin|].
  cbn [map] in Hnd. apply List.NoDup_cons_iff in Hnd as [Hm Hnd].
  destruct Hin as [E|Hin].
  - injection E as <- <-. cbn. rewrite String.eqb_refl. reflexivity.
  - cbn. destruct (String.eqb k m) eqn:E.
    + apply String.eqb_eq in E. subst k. exfalso. apply Hm.
      apply (in_map fst) in Hin. exact Hin.
    + apply IH; assumption.
Qed.

(** Extra: [calculate_portfolio_beta] is 1 for at most one position and
    when every position is zero; and when the market keys are distinct and
    every stored correlation lies in [[-1, 1]], the beta lies in
    [[0.5, 1.5]]: the weights [abs(p) / total] sum to 1, so the pairwise
    products [weight_a * weight_b] sum to at most 1/2. *)
Theorem portfolio_beta_bounds (r : PortfolioRisk) (positions : list (string * Q))
  (Hkeys : List.NoDup (map fst positions))
  (Hc : forall k v, correlations r !! k = Some v -> -1 <= v <= 1) :
  ((length positions <= 1)%nat \/ (forall m p, In (m, p) positions -> p == 0) ->
     calculate_portfolio_beta r positions = 1) /\
  1 # 2 <= calculate_portfolio_beta r positions <= 3 # 2.
Proof.
  assert (Htot : forall T, 0 < T -> fold_left (fun acc '(_, p) => acc + Qabs p) positions 0 == T ->
                 sum_weights T positions == 1).
  { intros T HT E. rewrite sum_weights_total in E by exact HT.
    assert (E2 : sum_weights T positions * T == 1 * T) by lra.
    apply Qmult_inj_r in E2; [exact E2|]. intros Z. rewrite Z in HT. discriminate. }
  assert (Hzero : (forall m p, In (m, p) positions -> p == 0) ->
                  fold_left (fun acc '(_, p) => acc + Qabs p) positions 0 == 0).
  { intros H. assert (G : forall (l : list (string * Q)) (acc : Q), (forall m p, In (m, p) l -> p == 0) ->
      fold_left (fun acc '(_, p) => acc + Qabs p) l acc == acc).
    { induction l as [|[m p] l IH]; intros acc Hl; cbn [fold_left]; [reflexivity|].
      rewrite IH by (intros; eapply Hl; right; eassumption).
      rewrite (Hl m p (or_introl eq_refl)). change (Qabs 0) with 0. ring. }
    apply G, H. }
  split.
  - intros [H|H]; unfold calculate_portfolio_beta.
    + apply Nat.leb_le in H. rewrite H. reflexivity.
    + destruct (Nat.leb _ _); [reflexivity|]. cbv zeta.
      rewrite (proj2 (Qeq_bool_iff _ 0) (Hzero H)). reflexivity.
  - unfold calculate_portfolio_beta.
    destruct (Nat.leb _ _); [split; discriminate|]. cbv zeta.
    set (T := fold_left (fun acc '(_, p) => acc + Qabs p) positions 0).
    destruct (Qeq_bool T 0) eqn:ET; [split; discriminate|].
    assert (HT0 : 0 <= T).
    { unfold T. rewrite (sum_weights_total 1 ltac:(reflexivity) positions 0).
      pose proof (sum_weights_nonneg 1 ltac:(reflexivity) positions). lra. }
    assert (HT : 0 < T).
    { destruct (Qle_lt_or_eq 0 T HT0) as [H|H]; [exact H|].
      exfalso. apply Bool.not_true_iff_false in ET. apply ET, Qeq_bool_iff. symmetry. exact H. }
    destruct (beta_outer_bound r Hc positions T HT positions (dict_get_nodup positions Hkeys) 0)
      as [L U].
    pose proof (pair_weights_le T HT positions) as PW.
    rewrite (Htot T HT (Qeq_refl T)) in PW.
    assert (PW' : pair_weights T positions <= 1 # 2) by (eapply Qle_trans; [exact PW|]; vm_compute; discriminate).
    split; lra.
Qed.

Lemma portfolio_beta_bounds_witness :
  List.NoDup (map fst [("a"%string, 100%Q); ("b"%string, (-50)%Q)]) /\
  (forall k v, correlations Samples.pr_sample !! k = Some v -> -1 <= v <= 1) /\
  (((length [("a"%string, 100%Q); ("b"%string, (-50)%Q)] <= 1)%nat \/
    (forall m p, In (m, p) [("a"%string, 100%Q); ("b"%string, (-50)%Q)] -> p == 0) ->
     calculate_portfolio_beta Samples.pr_sample [("a"%string, 100%Q); ("b"%string, (-50)%Q)] = 1) /\
   1 # 2 <= calculate_portfolio_beta Samples.pr_sample [("a"%string, 100%Q); ("b"%string, (-50)%Q)] <= 3 # 2).
Proof.
  assert (H1 : List.NoDup (map fst [("a"%string, 100%Q); ("b"%string, (-50)%Q)]))
    by (cbn; constructor; [cbn; intros [E|[]]; discriminate | constructor; [intros []|constructor]]).
  assert (H2 : forall k v, correlations Samples.pr_sample !! k = Some v -> -1 <= v <= 1).
  { intros k v E. unfold Samples.pr_sample, set_correlation in E. cbn [correlations] in E.
    destruct (decide (k = corr_key "a" "b")) as [->|Hne].
    - rewrite lookup_insert_eq in E. injection E as <-. lra.
    - rewrite lookup_insert_ne in E by congruence. rewrite lookup_empty in E. discriminate. }
  split; [exact H1|]. split; [exact H2|].
  exact (portfolio_beta_bounds Samples.pr_sample _ H1 H2).
Defined.

Lemma py_suffix_pos {A} (w : Z) (l : list A) :
  (0 < w)%Z ->
  l = firstn (length l - length (CorrelationTracker.py_suffix w l)) l ++ CorrelationTracker.py_suffix w l /\
  Z.of_nat (length (CorrelationTracker.py_suffix w l)) = Z.min w (Z.of_nat (length l)).
Proof.
  intros Hw. unfold CorrelationTracker.py_suffix.
  replace (Z.ltb (- w) 0) with true by (symmetry; apply Z.ltb_lt; lia).
  rewrite length_skipn.
  replace (length l - (length l - Z.to_nat (Z.max 0 (Z.of_nat (length l) + - w))))%nat
    with (Z.to_nat (Z.max 0 (Z.of_nat (length l) + - w))) by lia.
  split; [symmetry; apply firstn_skipn | lia].
Qed.

Lemma py_suffix_zero {A} (l : list A) : CorrelationTracker.py_suffix 0 l = l.
Proof. reflexivity. Qed.

(** Extra: [CorrelationTracker.record_price] touches only the recorded
    market's history; with [window_size > 0] that history becomes the last
    [min(window_size, n)] of the [n] prices after the append, and with
    [window_size = 0] nothing is ever dropped ([l[-0:]] is the whole
    list). *)
Theorem record_price_window (t : CorrelationTracker.Tracker) (m : string) (p : Q) :
  let l := default [] (CorrelationTracker.prices t !! m) ++ [p] in
  let t' := CorrelationTracker.record_price t m p in
  CorrelationTracker.window_size t' = CorrelationTracker.window_size t /\
  (forall m', m' <> m -> CorrelationTracker.prices t' !! m' = CorrelationTracker.prices t !! m') /\
  ((0 < CorrelationTracker.window_size t)%Z ->
     exists pre new, CorrelationTracker.prices t' !! m = Some new /\ l = pre ++ new /\
       Z.of_nat (length new) = Z.min (CorrelationTracker.window_size t) (Z.of_nat (length l))) /\
  (CorrelationTracker.window_size t = 0%Z -> CorrelationTracker.prices t' !! m = Some l).
Proof.
  cbv zeta. unfold CorrelationTracker.record_price. cbn [CorrelationTracker.window_size CorrelationTracker.prices].
  set (l := default [] (CorrelationTracker.prices t !! m) ++ [p]).
  split; [reflexivity|]. split; [|split].
  - intros m' Hne. apply lookup_insert_ne. congruence.
  - intros Hw. rewrite lookup_insert_eq.
    destruct (Z.ltb (CorrelationTracker.window_size t) (Z.of_nat (length l))) eqn:E.
    + destruct (py_suffix_pos (CorrelationTracker.window_size t) l Hw) as [E1 E2].
      eexists _, _. split; [reflexivity|]. split; [exact E1 | exact E2].
    + exists [], l. split; [reflexivity|]. split; [reflexivity|].
      apply Z.ltb_ge in E. lia.
  - intros Hw. rewrite lookup_insert_eq, Hw.
    destruct (Z.ltb 0 _); reflexivity.
Qed.

Lemma record_prices_bounded (w : Z) (Hw : (0 < w)%Z) (obs : list (string * Q)) :
  forall t, CorrelationTracker.window_size t = w ->
  (forall m l, CorrelationTracker.prices t !! m = Some l -> (Z.of_nat (length l) <= w)%Z) ->
  let t' := CorrelationTracker.record_prices t obs in
  CorrelationTracker.window_size t' = w /\
  (forall m l, CorrelationTracker.prices t' !! m = Some l -> (Z.of_nat (length l) <= w)%Z).
Proof.
  induction obs as [|[m p] rest IH]; intros t Hws Hinv; cbv zeta; cbn [CorrelationTracker.record_prices].
  - auto.
  - apply IH.
    + destruct (record_price_window t m p) as [E _]. rewrite E. exact Hws.
    + intros m' l' H'. destruct (decide (m' = m)) as [->|Hne].
      * destruct (record_price_window t m p) as (_ & _ & Hpos & _).
        rewrite Hws in Hpos. destruct (Hpos Hw) as (pre & new & Hn & _ & Hl).
        rewrite Hn in H'. injection H' as <-. lia.
      * destruct (record_price_window t m p) as (_ & Hne' & _).
        rewrite (Hne' m' Hne) in H'. exact (Hinv m' l' H').
Qed.

(** Extra: with [0 < window_size < MIN_SAMPLES = 20], a tracker never
    holds more than [window_size] prices for a market, so
    [CorrelationTracker.get_correlation] returns 0.0 for every pair after
    any sequence of [record_price] calls, whatever [np.corrcoef]
    computes. *)
Theorem small_window_no_correlation (w : Z) (Hw : (0 < w < CorrelationTracker.MIN_SAMPLES)%Z)
  (corrcoef : list Q -> list Q -> option Q) (obs : list (string * Q)) (a b : string) :
  CorrelationTracker.get_correlation corrcoef
    (CorrelationTracker.record_prices (CorrelationTracker.mkTracker w empty) obs) a b = 0.
Proof.
  destruct (record_prices_bounded w (proj1 Hw) obs (CorrelationTracker.mkTracker w empty) eq_refl)
    as [_ Hb].
  { intros m l H. cbn [CorrelationTracker.prices] in H. rewrite lookup_empty in H. discriminate. }
  unfold CorrelationTracker.get_correlation.
  set (t' := CorrelationTracker.record_prices _ obs) in *.
  replace (Z.ltb (Z.of_nat (length (default [] (CorrelationTracker.prices t' !! a))))
             CorrelationTracker.MIN_SAMPLES) with true; [reflexivity|].
  symmetry. apply Z.ltb_lt.
  destruct (CorrelationTracker.prices t' !! a) as [l|] eqn:E; simpl.
  - pose proof (Hb a l E). unfold CorrelationTracker.MIN_SAMPLES in *. lia.
  - unfold CorrelationTracker.MIN_SAMPLES. cbn. lia.
Qed.

Lemma small_window_no_correlation_witness :
  (0 < 5 < CorrelationTracker.MIN_SAMPLES)%Z /\
  CorrelationTracker.get_correlation (fun _ _ => Some 1)
    (CorrelationTracker.record_prices (CorrelationTracker.mkTracker 5 empty)
       [("a"%string, 1 # 2); ("b"%string, 1 # 3); ("a"%string, 2 # 3)]) "a" "b" = 0.
Proof.
  assert (H : (0 < 5 < CorrelationTracker.MIN_SAMPLES)%Z) by (unfold CorrelationTracker.MIN_SAMPLES; lia).
  split; [exact H|].
  exact (small_window_no_correlation 5 H (fun _ _ => Some 1) _ "a" "b").
Defined.

End CorrelationExtra.

Module VolatilityExtra.
Import Volatility VolatilityView.
Local Open Scope R_scope.

Lemma update_fields (vt : VolatilityTracker) (now price : R) :
  let vt' := snd (update vt now price) in
  token_id vt' = token_id vt /\ sample_interval vt' = sample_interval vt /\
  window_seconds vt' = window_seconds vt /\ min_samples vt' = min_samples vt /\
  mult_min vt' = mult_min vt /\ mult_max vt' = mult_max vt /\ max_samples vt' = max_samples vt.
Proof.
  unfold update.
  destruct (Rle_dec price 0); [simpl; tauto|].
  destruct (Rlt_dec _ _); [simpl; tauto|].
  destruct (Nat.leb _ _); simpl; tauto.
Qed.

Lemma run_fields (calls : list (R * R)) : forall vt : VolatilityTracker,
  let vt' := run vt calls in
  token_id vt' = token_id vt /\ sample_interval vt' = sample_interval vt /\
  window_seconds vt' = window_seconds vt /\ min_samples vt' = min_samples vt /\
  mult_min vt' = mult_min vt /\ mult_max vt' = mult_max vt /\ max_samples vt' = max_samples vt.
Proof.
  induction calls as [|[now price] rest IH]; intros vt; cbn [run]; [tauto|].
  destruct (IH (snd (update vt now price))) as (E1 & E2 & E3 & E4 & E5 & E6 & E7).
  destruct (update_fields vt now price) as (F1 & F2 & F3 & F4 & F5 & F6 & F7).
  cbv zeta in *. rewrite E1, E2, E3, E4, E5, E6, E7, F1, F2, F3, F4, F5, F6, F7. tauto.
Qed.

Lemma ssorted_snoc {A} (Rl : A -> A -> Prop) (l : list A) (y : A) :
  StronglySorted Rl l -> (forall x, In x l -> Rl x y) -> StronglySorted Rl (l ++ [y]).
Proof.
  induction l as [|x l IH]; intros S H; cbn.
  - constructor; [constructor | constructor].
  - apply StronglySorted_inv in S as [S F]. constructor.
    + apply IH; [exact S|]. intros z Hz. apply H. right. exact Hz.
    + apply Forall_app. split; [exact F|]. constructor; [apply H; left; reflexivity | constructor].
Qed.

Lemma ssorted_skipn {A} (Rl : A -> A -> Prop) (n : nat) :
  forall l : list A, StronglySorted Rl l -> StronglySorted Rl (skipn n l).
Proof.
  induction n as [|n IH]; intros l S; [exact S|].
  destruct l as [|x l]; [exact S|]. cbn. apply IH. apply StronglySorted_inv in S. tauto.
Qed.

Lemma prune_suffix (c : R) (l : list (R * R)) : exists pre, l = pre ++ prune c l.
Proof.
  induction l as [|[t p] l [pre IH]]; cbn.
  - exists []. reflexivity.
  - destruct (Rlt_dec t c).
    + exists ((t, p) :: pre). cbn. rewrite <- IH. reflexivity.
    + exists []. reflexivity.
Qed.

Lemma prune_above (c : R) (l : list (R * R)) :
  StronglySorted (fun a b => fst a < fst b) l ->
  StronglySorted (fun a b => fst a < fst b) (prune c l) /\
  forall x, In x (prune c l) -> c <= fst x.
Proof.
  induction l as [|[t p] l IH]; intros S; cbn.
  - split; [constructor | intros _ []].
  - apply StronglySorted_inv in S as [S F].
    destruct (Rlt_dec t c) as [Hlt|Hge].
    + apply IH, S.
    + split; [constructor; assumption|].
      intros x [<-|Hx]; cbn; [lra|].
      rewrite Forall_forall in F. specialize (F x (proj2 (list_elem_of_In _ _) Hx)). cbn in F. lra.
Qed.

Lemma prune_last (c : R) (l : list (R * R)) :
  l <> [] -> c <= fst (List.last l (0, 0)) ->
  prune c l <> [] /\ List.last (prune c l) (0, 0) = List.last l (0, 0).
Proof.
  induction l as [|[t p] l IH]; intros Hne Hc; [contradiction|]. cbn [prune].
  destruct (Rlt_dec t c) as [Hlt|Hge].
  - destruct l as [|y l].
    + cbn in Hc. exfalso. lra.
    + assert (E : List.last ((t, p) :: y :: l) (0, 0) = List.last (y :: l) (0, 0)) by reflexivity.
      rewrite E in *. apply IH; [discriminate | exact Hc].
  - split; [discriminate | reflexivity].
Qed.

Lemma deque_append_last {A} (maxlen : nat) (l : list A) (x d : A) :
  (1 <= maxlen)%nat ->
  List.last (deque_append maxlen l x) d = x /\
  (length (deque_append maxlen l x) <= maxlen)%nat /\
  exists pre, l ++ [x] = pre ++ deque_append maxlen l x.
Proof.
  intros Hm. unfold deque_append.
  rewrite length_app. cbn [length].
  split; [|split].
  - rewrite skipn_app. replace (length l + 1 - maxlen - length l)%nat with 0%nat by lia.
    cbn [skipn]. apply last_last.
  - rewrite length_skipn, length_app. cbn [length]. lia.
  - exists (firstn (length l + 1 - maxlen) (l ++ [x])). symmetry. apply firstn_skipn.
Qed.

Lemma calculate_volatility_nonneg (vt : VolatilityTracker) : 0 <= calculate_volatility vt.
Proof.
  unfold calculate_volatility.
  destruct (Nat.ltb _ 2); [lra|]. cbv zeta.
  destruct (Nat.ltb _ 2); [lra|].
  apply Rmult_le_pos; apply sqrt_pos.
Qed.

Lemma update_inv (vt : VolatilityTracker) (now price : R) :
  0 < sample_interval vt -> 0 <= window_seconds vt -> (1 <= max_samples vt)%nat ->
  vt_inv vt -> vt_inv (snd (update vt now price)).
Proof.
  intros Hsi Hws Hms (S & F & L & V & La). unfold update.
  destruct (Rle_dec price 0) as [Hp|Hp]; [exact (conj S (conj F (conj L (conj V La))))|].
  destruct (Rlt_dec (now - last_sample_time vt) (sample_interval vt)) as [Ht|Ht];
    [exact (conj S (conj F (conj L (conj V La))))|].
  cbv zeta.
  set (s1 := deque_append (max_samples vt) (samples vt) (now, price)).
  set (s2 := prune (now - window_seconds vt) s1).
  destruct (deque_append_last (max_samples vt) (samples vt) (now, price) (0, 0) Hms)
    as (L1 & Len1 & pre1 & E1).
  fold s1 in L1, Len1, E1.
  assert (Hall : forall x, In x (samples vt ++ [(now, price)]) -> 0 < snd x /\ fst x <= now).
  { intros x Hx. apply in_app_or in Hx as [Hx|[<-|[]]]; [|cbn; lra].
    rewrite Forall_forall in F. specialize (F x (proj2 (list_elem_of_In _ _) Hx)). lra. }
  assert (S1 : StronglySorted (fun a b => fst a < fst b) s1).
  { unfold s1, deque_append. apply ssorted_skipn, ssorted_snoc; [exact S|].
    intros x Hx. rewrite Forall_forall in F. specialize (F x (proj2 (list_elem_of_In _ _) Hx)).
    cbn. lra. }
  destruct (prune_above (now - window_seconds vt) s1 S1) as [S2 A2].
  destruct (prune_suffix (now - window_seconds vt) s1) as [pre2 E2]. fold s2 in E2, S2, A2.
  assert (Hin : forall x, In x s2 -> In x (samples vt ++ [(now, price)])).
  { intros x Hx. rewrite E1, E2. apply in_or_app. right. apply in_or_app. right. exact Hx. }
  assert (Hne1 : s1 <> []).
  { intros E. assert (Hl : length s1 = 0%nat) by (rewrite E; reflexivity).
    unfold s1, deque_append in Hl. rewrite length_skipn, length_app in Hl. cbn in Hl. lia. }
  assert (Hc1 : now - window_seconds vt <= fst (List.last s1 (0, 0))) by (rewrite L1; cbn; lra).
  destruct (prune_last (now - window_seconds vt) s1 Hne1 Hc1) as [Hne2 L2].
  fold s2 in Hne2, L2.
  assert (Inv2 : forall v, 0 <= v -> vt_inv (with_samples vt s2 now (Some price) v)).
  { intros v Hv. unfold vt_inv, with_samples; cbn [samples last_sample_time window_seconds
      max_samples realized_vol last_price].
    split; [exact S2|]. split; [|split; [|split; [exact Hv|]]].
    - apply Forall_forall. intros x Hx. apply list_elem_of_In in Hx.
      destruct (Hall x (Hin x Hx)) as [H1 H2]. pose proof (A2 x Hx). lra.
    - assert (length s2 <= length s1)%nat by (rewrite E2, length_app; lia). lia.
    - right. exists price. split; [reflexivity|]. rewrite L2, L1. reflexivity. }
  destruct (Nat.leb _ _); cbn [snd]; apply Inv2; [apply calculate_volatility_nonneg | exact V].
Qed.

Lemma run_inv (calls : list (R * R)) : forall vt : VolatilityTracker,
  0 < sample_interval vt -> 0 <= window_seconds vt -> (1 <= max_samples vt)%nat ->
  vt_inv vt -> vt_inv (run vt calls).
Proof.
  induction calls as [|[now price] rest IH]; intros vt Hsi Hws Hms I; cbn [run]; [exact I|].
  destruct (update_fields vt now price) as (_ & F2 & F3 & _ & _ & _ & F7).
  apply IH; try congruence. apply update_inv; assumption.
Qed.

Lemma init_max_samples (tok : string) (si ws : R) (ms : nat) (mmin mmax : R) :
  0 < si -> 0 <= ws -> (10 <= max_samples (init tok si ws ms mmin mmax))%nat.
Proof.
  intros Hsi Hws. cbn [init max_samples]. unfold py_int_R.
  assert (Hq : 0 <= ws / si) by (unfold Rdiv; apply Rmult_le_pos; [exact Hws | left; apply Rinv_0_lt_compat, Hsi]).
  destruct (Rle_dec 0 (ws / si)) as [_|N]; [|contradiction].
  destruct (base_Int_part (ws / si)) as [_ B].
  assert (Hi : (0 <= Int_part (ws / si))%Z).
  { apply Z.lt_succ_r, lt_IZR. rewrite succ_IZR. lra. }
  lia.
Qed.

(** Extra: for a tracker built by the constructor with
    [sample_interval > 0] and [window_seconds >= 0], after any sequence
    of [update] calls: the samples are strictly increasing in time, all
    prices are positive, every sample lies in the window
    [[last_sample_time - window_seconds, last_sample_time]], there are at
    most [maxlen] samples, the realized volatility is non-negative, and
    unless there are no samples the newest one is
    [(last_sample_time, last_price)]. *)
Theorem run_samples_invariant (tok : string) (si ws : R) (ms : nat) (mmin mmax : R)
  (calls : list (R * R)) (Hsi : 0 < si) (Hws : 0 <= ws) :
  vt_inv (run (init tok si ws ms mmin mmax) calls).
Proof.
  apply run_inv; cbn [init sample_interval window_seconds]; try assumption.
  - pose proof (init_max_samples tok si ws ms mmin mmax Hsi Hws). lia.
  - unfold vt_inv. cbn. split; [constructor|]. split; [constructor|].
    split; [lia|]. split; [lra|]. left; reflexivity.
Qed.

Lemma run_samples_invariant_witness :
  0 < 5 /\ 0 <= 1800 /\ vt_inv (run (init "tok" 5 1800 3 (7 / 10) 2) Samples.vol_calls).
Proof.
  assert (H1 : 0 < 5) by lra. assert (H2 : 0 <= 1800) by lra.
  split; [exact H1|]. split; [exact H2|].
  exact (run_samples_invariant "tok" 5 1800 3 (7 / 10) 2 Samples.vol_calls H1 H2).
Defined.


(** Extra: [get_level] and [get_multiplier] agree: with [mult_min <= 1]
    and [mult_max >= 1.5], "UNKNOWN" goes with the neutral 1.0, "LOW" with
    [mult_min], "NORMAL" with a multiplier in [[mult_min, 1]], "HIGH" with
    one in [[1, 1.5)] and "EXTREME" with one in [[1.5, mult_max]]; no
    other level is returned. *)
Theorem level_multiplier_consistent (vt : VolatilityTracker)
  (Hmin : mult_min vt <= 1) (Hmax : 3 / 2 <= mult_max vt) :
  let m := get_multiplier vt in
  (get_level vt = "UNKNOWN"%string /\ m = 1) \/
  (get_level vt = "LOW"%string /\ m = mult_min vt) \/
  (get_level vt = "NORMAL"%string /\ mult_min vt <= m <= 1) \/
  (get_level vt = "HIGH"%string /\ 1 <= m < 3 / 2) \/
  (get_level vt = "EXTREME"%string /\ 3 / 2 <= m <= mult_max vt).
Proof.
  cbv zeta. unfold get_level, get_multiplier.
  destruct (Nat.ltb (length (samples vt)) (min_samples vt)); [left; split; reflexivity|].
  unfold VOL_LOW, VOL_NORMAL, VOL_HIGH. cbv zeta.
  set (vol := realized_vol vt).
  destruct (Rlt_dec vol (5 / 100)); [right; left; split; reflexivity|].
  destruct (Rlt_dec vol (15 / 100)).
  - right; right; left. split; [reflexivity|].
    replace ((vol - 5 / 100) / (15 / 100 - 5 / 100)) with ((vol - 5 / 100) * 10) by field.
    split; nra.
  - destruct (Rlt_dec vol (30 / 100)).
    + right; right; right; left. split; [reflexivity|].
      replace ((vol - 15 / 100) / (30 / 100 - 15 / 100)) with ((vol - 15 / 100) * (20 / 3))
        by field.
      split; nra.
    + right; right; right; right. split; [reflexivity|]. unfold py_min_R.
      replace ((vol - 30 / 100) / (20 / 100)) with ((vol - 30 / 100) * 5) by field.
      destruct (Rlt_dec ((vol - 30 / 100) * 5) 1); split; nra.
Qed.

Lemma level_multiplier_consistent_witness :
  mult_min (run (init "tok" 5 1800 3 (7 / 10) 2) Samples.vol_calls) <= 1 /\ 3 / 2 <= mult_max (run (init "tok" 5 1800 3 (7 / 10) 2) Samples.vol_calls) /\
  get_level (run (init "tok" 5 1800 3 (7 / 10) 2) Samples.vol_calls) = "HIGH"%string /\
  ((get_level (run (init "tok" 5 1800 3 (7 / 10) 2) Samples.vol_calls) = "UNKNOWN"%string /\ get_multiplier (run (init "tok" 5 1800 3 (7 / 10) 2) Samples.vol_calls) = 1) \/
   (get_level (run (init "tok" 5 1800 3 (7 / 10) 2) Samples.vol_calls) = "LOW"%string /\ get_multiplier (run (init "tok" 5 1800 3 (7 / 10) 2) Samples.vol_calls) = mult_min (run (init "tok" 5 1800 3 (7 / 10) 2) Samples.vol_calls)) \/
   (get_level (run (init "tok" 5 1800 3 (7 / 10) 2) Samples.vol_calls) = "NORMAL"%string /\ mult_min (run (init "tok" 5 1800 3 (7 / 10) 2) Samples.vol_calls) <= get_multiplier (run (init "tok" 5 1800 3 (7 / 10) 2) Samples.vol_calls) <= 1) \/
   (get_level (run (init "tok" 5 1800 3 (7 / 10) 2) Samples.vol_calls) = "HIGH"%string /\ 1 <= get_multiplier (run (init "tok" 5 1800 3 (7 / 10) 2) Samples.vol_calls) < 3 / 2) \/
   (get_level (run (init "tok" 5 1800 3 (7 / 10) 2) Samples.vol_calls) = "EXTREME"%string /\ 3 / 2 <= get_multiplier (run (init "tok" 5 1800 3 (7 / 10) 2) Samples.vol_calls) <= mult_max (run (init "tok" 5 1800 3 (7 / 10) 2) Samples.vol_calls))).
Proof.
  change (init "tok" 5 1800 3 (7 / 10) 2) with (Samples.vt_sample (7 / 10) 2).
  assert (H1 : mult_min (run (Samples.vt_sample (7 / 10) 2) Samples.vol_calls) <= 1)
    by (rewrite VolatilityProofs.run_sample; cbn; lra).
  assert (H2 : 3 / 2 <= mult_max (run (Samples.vt_sample (7 / 10) 2) Samples.vol_calls))
    by (rewrite VolatilityProofs.run_sample; cbn; lra).
  assert (HL : get_level (run (Samples.vt_sample (7 / 10) 2) Samples.vol_calls) = "HIGH"%string).
  { rewrite VolatilityProofs.run_sample. unfold get_level.
    cbn [samples min_samples realized_vol Datatypes.length Nat.ltb Nat.leb].
    rewrite VolatilityProofs.vol_sample_value.
    pose proof VolatilityProofs.vol_sample_bounds as HB.
    set (V := sqrt _) in *. unfold VOL_LOW, VOL_NORMAL, VOL_HIGH.
    destruct (Rlt_dec V (5 / 100)); [lra|].
    destruct (Rlt_dec V (15 / 100)); [lra|].
    destruct (Rlt_dec V (30 / 100)); [reflexivity|lra]. }
  split; [exact H1|]. split; [exact H2|]. split; [exact HL|].
  exact (level_multiplier_consistent _ H1 H2).
Defined.

(** Extra: [reset] after any sequence of [update] calls gives back the
    tracker the constructor built (same token, interval, window, minimum,
    multiplier range and deque [maxlen]); it then reports level "UNKNOWN"
    and multiplier 1.0 whenever [min_samples > 0]. *)
Theorem reset_restores_init (tok : string) (si ws : R) (ms : nat) (mmin mmax : R)
  (calls : list (R * R)) :
  let vt := reset (run (init tok si ws ms mmin mmax) calls) in
  vt = init tok si ws ms mmin mmax /\
  ((0 < ms)%nat -> get_level vt = "UNKNOWN"%string /\ get_multiplier vt = 1).
Proof.
  cbv zeta.
  destruct (run_fields calls (init tok si ws ms mmin mmax)) as (E1 & E2 & E3 & E4 & E5 & E6 & E7).
  cbv zeta in *.
  assert (Hr : reset (run (init tok si ws ms mmin mmax) calls) = init tok si ws ms mmin mmax).
  { unfold reset, with_samples. rewrite E1, E2, E3, E4, E5, E6, E7. reflexivity. }
  rewrite Hr. split; [reflexivity|].
  intros Hms. unfold get_level, get_multiplier. cbn [init samples min_samples length].
  destruct ms; [lia|]. split; reflexivity.
Qed.

Module MultiExtra.
Import MultiTokenVolatilityTracker.

Lemma multi_update_new_tracker (m : MultiTracker) (t : string) (now price : R) (tok : string) :
  new_tracker (snd (MultiTokenVolatilityTracker.update m t now price)) tok = new_tracker m tok.
Proof.
  unfold MultiTokenVolatilityTracker.update.
  destruct (Volatility.update _ now price) as [b tr']. reflexivity.
Qed.

Lemma multi_update_lookup (m : MultiTracker) (t : string) (now price : R) (tok : string) :
  trackers (snd (MultiTokenVolatilityTracker.update m t now price)) !! tok =
  if String.eqb t tok then
    Some (snd (Volatility.update
      (match trackers m !! t with Some x => x | None => new_tracker m t end) now price))
  else trackers m !! tok.
Proof.
  unfold MultiTokenVolatilityTracker.update.
  destruct (Volatility.update _ now price) as [b tr'] eqn:E. cbn [snd].
  unfold set_trackers; cbn [trackers].
  destruct (String.eqb_spec t tok) as [<-|Hne].
  - rewrite lookup_insert_eq. reflexivity.
  - apply lookup_insert_ne. congruence.
Qed.

Lemma multi_run_lookup (calls : list (string * R * R)) (m : MultiTracker) (tok : string) :
  trackers (MultiTokenVolatilityTracker.run m calls) !! tok =
  match trackers m !! tok with
  | Some t => Some (Volatility.run t (calls_of tok calls))
  | None =>
      match calls_of tok calls with
      | [] => None
      | _ => Some (Volatility.run (new_tracker m tok) (calls_of tok calls))
      end
  end.
Proof.
  revert m. induction calls as [|[[t now] price] cs IH]; intros m.
  - cbn. destruct (trackers m !! tok); reflexivity.
  - cbn [MultiTokenVolatilityTracker.run]. rewrite IH.
    rewrite multi_update_new_tracker, multi_update_lookup.
    unfold calls_of. cbn [List.filter fst snd].
    destruct (String.eqb_spec t tok) as [<-|Hne].
    + cbn [List.map fst snd].
      destruct (trackers m !! t); reflexivity.
    + reflexivity.
Qed.

(** Extra: [MultiTokenVolatilityTracker] keeps one independent tracker
    per token.  After any sequence of [update(token, now, price)] calls,
    the tracker of a token is exactly what a single [VolatilityTracker]
    reaches from the calls addressed to that token alone, in order:
    starting from the token's existing tracker, or, for a token without
    one, from a fresh tracker built with the shared constructor arguments
    (created by its first call, even a rejected one).  Calls for other
    tokens have no effect on it, and [get_multiplier] of a token that
    has no tracker and received no call is 1.0. *)
Theorem multi_run_per_token (m : MultiTracker) (calls : list (string * R * R)) (tok : string) :
  let own := calls_of tok calls in
  let res := match trackers m !! tok with
             | Some t => Some (Volatility.run t own)
             | None => match own with
                       | [] => None
                       | _ => Some (Volatility.run (new_tracker m tok) own)
                       end
             end in
  trackers (MultiTokenVolatilityTracker.run m calls) !! tok = res /\
  MultiTokenVolatilityTracker.get_multiplier (MultiTokenVolatilityTracker.run m calls) tok =
    match res with Some t => Volatility.get_multiplier t | None => 1 end.
Proof.
  cbv zeta. pose proof (multi_run_lookup calls m tok) as H.
  split; [exact H|].
  unfold MultiTokenVolatilityTracker.get_multiplier. rewrite H.
  destruct (trackers m !! tok); [reflexivity|].
  destruct (calls_of tok calls); reflexivity.
Qed.

End MultiExtra.

End VolatilityExtra.
